(** * Task_Manager: the natural-language front end and the task store

    A shallow embedding of the decision logic of
    - [task_manager.py]  (class [TaskManager]: parsing of an utterance into
      title, due date, priority and description),
    - [ai_assistant.py]  (class [AIAssistant]: intent classification and the
      task-reference resolver),
    - [database.py]      (class [TaskDatabase]: insert, look-up, update and
      delete on the [tasks] table),
    together with the parts of Python's [str], [re] and [datetime] that this
    code calls.

    Conventions of the model.
    - A Python [str] is a [list ascii]; a character is read as the code point
      of the same number (0..255).  Case mapping and the classes [\s], [\d],
      [\w] are the ones Python applies to these code points.
    - [int(...)] on a run of decimal digits is the conversion to [Z] under the
      interpreter's default limit of 4300 digits, beyond which it raises
      [ValueError].
    - An [int] bound to a [?] of a SQL statement has to fit SQLite's 64-bit
      INTEGER; [sqlite3] raises [OverflowError] for any other.
    - A [datetime] is naive (no time zone); its calendar day is kept as the
      proleptic Gregorian ordinal ([date.toordinal()]), 1 being 0001-01-01 and
      [MAXORDINAL] 9999-12-31.
    - Exceptions are values ([Raise]); the wall clock and the [tasks] table
      live in a [World] that is threaded through the methods that use them. *)

From Stdlib Require Import List Ascii String ZArith Lia Bool Arith.
Import ListNotations.

Set Implicit Arguments.

(* ================================================================== *)
(** ** Exceptions *)

Inductive exn : Type :=
| ValueError       (* a field out of range in [datetime.replace]; too many
                      digits for [int] *)
| OverflowError    (* a date or a [timedelta] out of range *)
| AttributeError   (* a method called on [None] *)
| TypeError.       (* [int(None)] *)

Inductive result (A : Type) : Type :=
| Ok (a : A)
| Raise (e : exn).

Arguments Ok {A} a.
Arguments Raise {A} e.

Definition rbind {A B} (x : result A) (f : A -> result B) : result B :=
  match x with
  | Ok a => f a
  | Raise e => Raise e
  end.

Declare Scope result_scope.
Delimit Scope result_scope with result.
Notation "'try' x <- e ; k" := (rbind e (fun x => k))
  (at level 10, x name, e at level 100, k at level 200) : result_scope.

(* ================================================================== *)
(** ** Python strings *)

Module Str.

Definition str := list ascii.

(** A string literal of the source. *)
Definition lit (s : string) : str := list_ascii_of_string s.

Definition code (c : ascii) : N := N_of_ascii c.

Definition between (lo hi : N) (c : ascii) : bool :=
  ((lo <=? code c) && (code c <=? hi))%N.

(** [str.isspace] on one character, which is also [\s]. *)
Definition isspace (c : ascii) : bool :=
  between 9 13 c || between 28 32 c || (code c =? 133)%N || (code c =? 160)%N.

(** [\d]: the decimal digits. *)
Definition isdigit (c : ascii) : bool := between 48 57 c.

(** [\w]: alphanumeric characters and the underscore. *)
Definition isword (c : ascii) : bool :=
  between 48 57 c || between 65 90 c || between 97 122 c || (code c =? 95)%N
  || (code c =? 170)%N || (code c =? 181)%N || (code c =? 186)%N
  || between 178 179 c || (code c =? 185)%N || between 188 190 c
  || between 192 214 c || between 216 246 c || between 248 255 c.

(** [str.lower] on one character. *)
Definition lower_char (c : ascii) : ascii :=
  if between 65 90 c || between 192 214 c || between 216 222 c
  then ascii_of_N (code c + 32) else c.

(** [s.lower()] *)
Definition lower (s : str) : str := map lower_char s.

Fixpoint lstrip (s : str) : str :=
  match s with
  | c :: s' => if isspace c then lstrip s' else s
  | [] => []
  end.

Definition rstrip (s : str) : str := rev (lstrip (rev s)).

(** [s.strip()] *)
Definition strip (s : str) : str := rstrip (lstrip s).

Definition eqb_char (a b : ascii) : bool := Ascii.eqb a b.

Fixpoint eqb (a b : str) : bool :=
  match a, b with
  | [], [] => true
  | x :: a', y :: b' => eqb_char x y && eqb a' b'
  | _, _ => false
  end.

(** [s.startswith(p)] *)
Fixpoint startswith (p s : str) : bool :=
  match p, s with
  | [], _ => true
  | x :: p', y :: s' => eqb_char x y && startswith p' s'
  | _ :: _, [] => false
  end.

(** [k in s]: [k] occurs in [s] as a contiguous substring. *)
Fixpoint contains (k s : str) : bool :=
  startswith k s ||
  match s with
  | [] => false
  | _ :: s' => contains k s'
  end.

(** [any(k in s for k in ks)] *)
Definition any_in (ks : list str) (s : str) : bool :=
  existsb (fun k => contains k s) ks.

Definition digit_val (c : ascii) : Z := Z.of_N (code c) - 48.

(** The number that a string of decimal digits denotes. *)
Definition decimal (s : str) : Z :=
  fold_left (fun acc c => 10 * acc + digit_val c)%Z s 0%Z.

(** [sys.int_info.default_max_str_digits] *)
Definition max_str_digits : nat := 4300.

(** [int(s)] for a string of decimal digits: the number they denote, and
    [ValueError] ("Exceeds the limit (4300 digits) for integer string
    conversion") when there are more than [max_str_digits] of them, leading
    zeros included. *)
Definition int (s : str) : result Z :=
  if (max_str_digits <? List.length s)%nat then Raise ValueError
  else Ok (decimal s).

(** Truth value of a string: the empty string is false. *)
Definition truthy (s : str) : bool :=
  match s with [] => false | _ => true end.

End Str.

Import Str.

(* ================================================================== *)
(** ** The fragment of [re] the program uses

    Every repetition in the program's patterns is over a single character
    class ([\s+], [\s*], [\d{1,2}], [\d{2}], [\d+], [\w+], [.+?]), so a
    repetition node carries a class and its bounds.  [run] lists the ways a
    pattern can match at the beginning of the input in the order in which the
    backtracking matcher of [re] tries them; the head of the list is the match
    [re] reports. *)

Module Re.

Inductive cclass : Type :=
| Digit    (* \d *)
| Space    (* \s *)
| Word     (* \w *)
| Dot.     (* .  : anything but a newline *)

Definition in_class (k : cclass) (c : ascii) : bool :=
  match k with
  | Digit => isdigit c
  | Space => isspace c
  | Word => isword c
  | Dot => negb (code c =? 10)%N
  end.

Inductive regex : Type :=
| Lit (s : str)                                       (* literal text *)
| Rep (k : cclass) (lo : nat) (hi : option nat) (greedy : bool)
| Seq (r1 r2 : regex)
| Alt (r1 r2 : regex)                                 (* r1|r2 *)
| Opt (r : regex)                                     (* (?:r)? *)
| Grp (n : nat) (r : regex)                           (* n-th capturing group *)
| Eos.                                                (* $ *)

Definition caps := list (nat * str).

(** Comparison of a pattern character with an input character. *)
Definition char_match (ic : bool) (p c : ascii) : bool :=
  if ic then eqb_char (lower_char p) (lower_char c) else eqb_char p c.

Fixpoint lit_match (ic : bool) (p s : str) : option str :=
  match p, s with
  | [], _ => Some s
  | x :: p', y :: s' => if char_match ic x y then lit_match ic p' s' else None
  | _ :: _, [] => None
  end.

(** Length of the longest prefix of [s] in class [k], capped by [hi]. *)
Fixpoint span (k : cclass) (hi : option nat) (s : str) : nat :=
  match hi, s with
  | Some 0, _ => 0
  | _, [] => 0
  | _, c :: s' =>
      if in_class k c then S (span k (option_map pred hi) s') else 0
  end.

(** The repetition counts tried for [k{lo,hi}], in order. *)
Definition counts (greedy : bool) (lo top : nat) : list nat :=
  let up := seq lo (S top - lo) in
  if greedy then rev up else up.

(** [$]: at the end, or just before a newline that ends the string. *)
Definition at_end (s : str) : bool :=
  match s with
  | [] => true
  | [c] => (code c =? 10)%N
  | _ => false
  end.

Definition consumed (s rest : str) : str :=
  firstn (List.length s - List.length rest) s.

Fixpoint run (ic : bool) (r : regex) (s : str) : list (caps * str) :=
  match r with
  | Lit p =>
      match lit_match ic p s with
      | Some rest => [([], rest)]
      | None => []
      end
  | Rep k lo hi greedy =>
      map (fun j => ([], skipn j s)) (counts greedy lo (span k hi s))
  | Seq r1 r2 =>
      flat_map (fun m1 =>
                  map (fun m2 => (fst m1 ++ fst m2, snd m2))
                      (run ic r2 (snd m1)))
               (run ic r1 s)
  | Alt r1 r2 => run ic r1 s ++ run ic r2 s
  | Opt r1 => run ic r1 s ++ [([], s)]
  | Grp n r1 =>
      map (fun m => ((n, consumed s (snd m)) :: fst m, snd m)) (run ic r1 s)
  | Eos => if at_end s then [([], s)] else []
  end.

(** A match object: where it starts, the text it covers, its groups. *)
Record Match : Type := mkMatch {
  m_start : nat;
  m_text : str;
  m_caps : caps
}.

(** [m.group(n)], [None] when the group took no part in the match. *)
Definition group (n : nat) (m : Match) : option str :=
  option_map snd (find (fun p => Nat.eqb (fst p) n) (m_caps m)).

Definition match_here (ic : bool) (r : regex) (pos : nat) (s : str)
  : option Match :=
  match run ic r s with
  | (c, rest) :: _ => Some (mkMatch pos (consumed s rest) c)
  | [] => None
  end.

(** [re.match(r, s)] *)
Definition re_match (ic : bool) (r : regex) (s : str) : option Match :=
  match_here ic r 0 s.

Fixpoint search_from (ic : bool) (r : regex) (pos : nat) (s : str)
  : option Match :=
  match match_here ic r pos s with
  | Some m => Some m
  | None =>
      match s with
      | [] => None
      | _ :: s' => search_from ic r (S pos) s'
      end
  end.

(** [re.search(r, s)]: the leftmost match. *)
Definition search (ic : bool) (r : regex) (s : str) : option Match :=
  search_from ic r 0 s.

(** [re.sub(r, '', s)]: every non-overlapping match, leftmost first, is
    removed.  [skip] counts the characters of the current match still to be
    dropped.  A match of length zero removes nothing. *)
Fixpoint sub_from (ic : bool) (r : regex) (skip : nat) (s : str) : str :=
  match s with
  | [] => []
  | c :: s' =>
      match skip with
      | S k => sub_from ic r k s'
      | 0 =>
          match match_here ic r 0 s with
          | Some m =>
              match List.length (m_text m) with
              | S k => sub_from ic r k s'
              | 0 => c :: sub_from ic r 0 s'
              end
          | None => c :: sub_from ic r 0 s'
          end
      end
  end.

Definition sub (ic : bool) (r : regex) (s : str) : str := sub_from ic r 0 s.

(** Pattern-building shorthands. *)
Definition L (s : string) : regex := Lit (lit s).
Definition plus (k : cclass) : regex := Rep k 1 None true.
Definition star (k : cclass) : regex := Rep k 0 None true.
Definition lazy_plus (k : cclass) : regex := Rep k 1 None false.
Definition range (k : cclass) (lo hi : nat) : regex := Rep k lo (Some hi) true.

Fixpoint seqs (rs : list regex) : regex :=
  match rs with
  | [] => Lit []
  | [r] => r
  | r :: rs' => Seq r (seqs rs')
  end.

Fixpoint alts (rs : list regex) : regex :=
  match rs with
  | [] => Lit []
  | [r] => r
  | r :: rs' => Alt r (alts rs')
  end.

End Re.

Import Re.

(* ================================================================== *)
(** ** The fragment of [datetime] the program uses *)

Module Datetime.

Local Open Scope Z_scope.
Local Open Scope result_scope.

Record datetime : Type := mkDatetime {
  ordinal : Z;        (* date.toordinal() of the calendar day *)
  hour : Z;
  minute : Z;
  second : Z;
  microsecond : Z
}.

Definition MAXORDINAL : Z := 3652059.

(** The values a [datetime] object can hold. *)
Definition valid (d : datetime) : Prop :=
  1 <= ordinal d <= MAXORDINAL /\ 0 <= hour d < 24 /\ 0 <= minute d < 60 /\
  0 <= second d < 60 /\ 0 <= microsecond d < 1000000.

Definition in_range (lo hi x : Z) : bool := (lo <=? x) && (x <? hi).

(** [d.replace(hour=h, minute=m, second=s, microsecond=us)] *)
Definition replace (d : datetime) (h m s us : Z) : result datetime :=
  if in_range 0 24 h && in_range 0 60 m && in_range 0 60 s
     && in_range 0 1000000 us
  then Ok (mkDatetime (ordinal d) h m s us)
  else Raise ValueError.

(** A [timedelta], as its length in microseconds. *)
Definition timedelta_t : Type := Z.

Definition us_per_second : Z := 1000000.
Definition us_per_day : Z := 86400 * us_per_second.

(** [timedelta(days=d, hours=h, minutes=m)] *)
Definition timedelta (days hours minutes : Z) : result timedelta_t :=
  let us := (days * 86400 + hours * 3600 + minutes * 60) * us_per_second in
  if Z.abs (us / us_per_day) <=? 999999999 then Ok us else Raise OverflowError.

Definition to_us (d : datetime) : Z :=
  (ordinal d * 86400 + hour d * 3600 + minute d * 60 + second d)
  * us_per_second + microsecond d.

(** [d + delta] *)
Definition add (d : datetime) (delta : timedelta_t) : result datetime :=
  let total := to_us d + delta in
  let days := total / us_per_day in
  let rem := total mod us_per_day in
  let secs := rem / us_per_second in
  if (0 <? days) && (days <=? MAXORDINAL)
  then Ok (mkDatetime days (secs / 3600) ((secs mod 3600) / 60)
                      (secs mod 60) (rem mod us_per_second))
  else Raise OverflowError.

(** [a <= b] *)
Definition leb (a b : datetime) : bool :=
  let key d := [ordinal d; hour d; minute d; second d; microsecond d] in
  (fix lex (x y : list Z) : bool :=
     match x, y with
     | u :: x', v :: y' => (u <? v) || ((u =? v) && lex x' y')
     | _, _ => true
     end) (key a) (key b).

(** Year, month and day of an ordinal, by the algorithm of [date.fromordinal]. *)
Definition days_before_month (leap : bool) (month : Z) : Z :=
  let base := nth (Z.to_nat month)
                  [0; 0; 31; 59; 90; 120; 151; 181; 212; 243; 273; 304; 334] 0 in
  if leap && (2 <? month) then base + 1 else base.

Definition days_in_month (leap : bool) (month : Z) : Z :=
  let base := nth (Z.to_nat month)
                  [0; 31; 28; 31; 30; 31; 30; 31; 31; 30; 31; 30; 31] 0 in
  if leap && (month =? 2) then base + 1 else base.

Definition ord2ymd (n : Z) : Z * Z * Z :=
  let n := n - 1 in
  let n400 := n / 146097 in
  let n := n mod 146097 in
  let n100 := n / 36524 in
  let n := n mod 36524 in
  let n4 := n / 1461 in
  let n := n mod 1461 in
  let n1 := n / 365 in
  let n := n mod 365 in
  let year := n400 * 400 + 1 + n100 * 100 + n4 * 4 + n1 in
  if (n1 =? 4) || (n100 =? 4) then (year - 1, 12, 31)
  else
    let leap := (n1 =? 3) && (negb (n4 =? 24) || (n100 =? 3)) in
    let month := Z.shiftr (n + 50) 5 in
    let preceding := days_before_month leap month in
    if n <? preceding
    then (year, month - 1,
          n - (preceding - days_in_month leap (month - 1)) + 1)
    else (year, month, n - preceding + 1).

Definition digit (x : Z) : ascii := ascii_of_N (48 + Z.to_N (x mod 10)).

(** ["%02d" % x], ["%04d" % x] and ["%06d" % x] for a value of that width. *)
Definition pad2 (x : Z) : str := [digit (x / 10); digit x].
Definition pad4 (x : Z) : str := pad2 (x / 100) ++ pad2 x.
Definition pad6 (x : Z) : str := pad2 (x / 10000) ++ pad4 x.

(** [d.isoformat()]: [YYYY-MM-DDTHH:MM:SS], with [.ffffff] appended when the
    microsecond is not zero. *)
Definition isoformat (d : datetime) : str :=
  let '(y, m, dd) := ord2ymd (ordinal d) in
  pad4 y ++ lit "-" ++ pad2 m ++ lit "-" ++ pad2 dd ++ lit "T"
  ++ pad2 (hour d) ++ lit ":" ++ pad2 (minute d) ++ lit ":" ++ pad2 (second d)
  ++ (if microsecond d =? 0 then [] else lit "." ++ pad6 (microsecond d)).

(** [datetime(y, m, d, ...)].toordinal(), used to write reference times. *)
Definition ymd2ord (y m d : Z) : Z :=
  let y1 := y - 1 in
  let leap := ((y mod 4 =? 0) && (negb (y mod 100 =? 0) || (y mod 400 =? 0))) in
  y1 * 365 + y1 / 4 - y1 / 100 + y1 / 400 + days_before_month leap m + d.

End Datetime.

Import Datetime.

(* ================================================================== *)
(** ** The world: the wall clock and the [tasks] table *)

(** A value of a nullable TEXT column: [None] is SQL NULL. *)
Definition sqltext : Type := option str.

(** A row of the table [tasks] created by [TaskDatabase.init_database]. *)
Record Task : Type := mkTask {
  id : Z;
  title : str;
  description : sqltext;
  due_date : sqltext;
  priority : sqltext;
  status : sqltext;
  created_at : sqltext;
  updated_at : sqltext
}.

(** [clock w n] is what the [n]-th call of [datetime.now()] returns; [reads]
    counts the calls made so far. *)
Record World : Type := mkWorld {
  clock : nat -> datetime;
  reads : nat;
  tasks : list Task
}.

Definition M (A : Type) : Type := World -> result A * World.

Definition ret {A} (a : A) : M A := fun w => (Ok a, w).

Definition bind {A B} (x : M A) (f : A -> M B) : M B :=
  fun w =>
    match x w with
    | (Ok a, w') => f a w'
    | (Raise e, w') => (Raise e, w')
    end.

Definition lift {A} (x : result A) : M A := fun w => (x, w).

Declare Scope world_scope.
Delimit Scope world_scope with world.
Notation "'let*' x := e 'in' k" := (bind e (fun x => k))
  (at level 10, x name, e at level 100, k at level 200) : world_scope.

(** [datetime.now()] *)
Definition datetime_now : M datetime :=
  fun w => (Ok (clock w (reads w)),
            mkWorld (clock w) (S (reads w)) (tasks w)).

Definition get_tasks : M (list Task) := fun w => (Ok (tasks w), w).

Definition put_tasks (ts : list Task) : M unit :=
  fun w => (Ok tt, mkWorld (clock w) (reads w) ts).

(** What SQLite keeps beside the rows of [tasks]: [sequence] is the entry of
    the table in [sqlite_sequence], the largest id AUTOINCREMENT has issued
    (0 before the first insert); [timestamps n] is what CURRENT_TIMESTAMP
    evaluates to at the INSERT number [n], and [inserts] counts the INSERTs. *)
Record Store : Type := mkStore {
  world : World;
  sequence : Z;
  timestamps : nat -> str;
  inserts : nat
}.

(** How a method that inserts can end. *)
Inductive outcome (A : Type) : Type :=
| Returned (a : A)
| Raised (e : exn)      (* an exception of the parse *)
| DatabaseFull.         (* sqlite3 reports SQLITE_FULL: no id is left *)

Arguments Returned {A} a.
Arguments Raised {A} e.
Arguments DatabaseFull {A}.

Definition DB (A : Type) : Type := Store -> outcome A * Store.

(** The store with its world replaced. *)
Definition with_world (s : Store) (w : World) : Store :=
  mkStore w (sequence s) (timestamps s) (inserts s).

(* ================================================================== *)
(** ** database.py: [TaskDatabase] *)

Module TaskDatabase.

Local Open Scope world_scope.

(** [x if new is None else new] for one column of the SET clause. *)
Definition assign (new : option str) (old : sqltext) : sqltext :=
  match new with
  | Some v => Some v
  | None => old
  end.

(** The row after
    [UPDATE tasks SET <the given columns>, updated_at = stamp]. *)
Definition set_columns (new_title new_description new_due_date new_priority
                        new_status : option str) (stamp : str) (t : Task)
  : Task :=
  mkTask (id t)
         (match new_title with Some v => v | None => title t end)
         (assign new_description (description t))
         (assign new_due_date (due_date t))
         (assign new_priority (priority t))
         (assign new_status (status t))
         (created_at t)
         (Some stamp).

(** The smallest and the largest 64-bit integer: the values of an INTEGER of
    SQLite, and so of a row id. *)
Definition MIN_ROWID : Z := -9223372036854775808.

Definition MAX_ROWID : Z := 9223372036854775807.

Definition fits_int64 (n : Z) : bool :=
  (MIN_ROWID <=? n)%Z && (n <=? MAX_ROWID)%Z.

(** A Python [int] bound to a [?] of a statement by [conn.execute]: [sqlite3]
    raises [OverflowError] ("Python int too large to convert to SQLite
    INTEGER") unless it fits 64 bits, and the statement is not run. *)
Definition bind_int (n : Z) : M Z :=
  lift (if fits_int64 n then Ok n else Raise OverflowError).

(** [update_task(task_id, title, description, due_date, priority, status)]:
    the time stamp is taken, then [conn.execute] binds the parameters and the
    UPDATE touches the rows [WHERE id = task_id]; the result is
    [cursor.rowcount > 0]. *)
Definition update_task (task_id : Z)
           (new_title new_description new_due_date new_priority
            new_status : option str) : M bool :=
  let* now := datetime_now in
  let* task_id := bind_int task_id in
  let* rows := get_tasks in
  let hit (t : Task) := Z.eqb (id t) task_id in
  let rows' :=
    map (fun t =>
           if hit t
           then set_columns new_title new_description new_due_date
                            new_priority new_status (isoformat now) t
           else t) rows in
  let rowcount := List.length (filter hit rows) in
  let* _ := put_tasks rows' in
  ret (0 <? rowcount)%nat.

(** [get_task_by_id(task_id)]: [fetchone()] of
    [SELECT * FROM tasks WHERE id = task_id]. *)
Definition get_task_by_id (task_id : Z) : M (option Task) :=
  let* task_id := bind_int task_id in
  let* rows := get_tasks in
  ret (find (fun t => Z.eqb (id t) task_id) rows).

(** [delete_task(task_id)]: [DELETE FROM tasks WHERE id = task_id]; the
    result is [cursor.rowcount > 0]. *)
Definition delete_task (task_id : Z) : M bool :=
  let* task_id := bind_int task_id in
  let* rows := get_tasks in
  let hit (t : Task) := Z.eqb (id t) task_id in
  let rowcount := List.length (filter hit rows) in
  let* _ := put_tasks (filter (fun t => negb (hit t)) rows) in
  ret (0 <? rowcount)%nat.

(** The largest id in the table, [None] for an empty table. *)
Fixpoint last_rowid (rows : list Task) : option Z :=
  match rows with
  | [] => None
  | t :: rest =>
      match last_rowid rest with
      | None => Some (id t)
      | Some m => Some (Z.max (id t) m)
      end
  end.

(** The id [INTEGER PRIMARY KEY AUTOINCREMENT] gives to a new row: one more
    than the largest id in the table (1 for an empty table), and at least one
    more than the recorded sequence; none when the largest id or the sequence
    has reached [MAX_ROWID]. *)
Definition new_rowid (rows : list Task) (seq : Z) : option Z :=
  let candidate :=
    match last_rowid rows with
    | None => Some 1%Z
    | Some l => if (MAX_ROWID <=? l)%Z then None else Some (l + 1)%Z
    end in
  match candidate with
  | None => None
  | Some v =>
      if (seq =? MAX_ROWID)%Z then None
      else Some (if (v <? seq + 1)%Z then (seq + 1)%Z else v)
  end.

(** [add_task(title, description, due_date, priority)]:
    [INSERT INTO tasks (title, description, due_date, priority)]; [status]
    takes its default 'pending', [created_at] and [updated_at] take
    CURRENT_TIMESTAMP; the result is [cursor.lastrowid]. *)
Definition add_task (new_title new_description : str)
           (new_due_date : option str) (new_priority : str) : DB Z :=
  fun s =>
    let w := world s in
    match new_rowid (tasks w) (sequence s) with
    | None => (DatabaseFull, s)
    | Some rowid =>
        let stamp := timestamps s (inserts s) in
        let row := mkTask rowid new_title (Some new_description) new_due_date
                          (Some new_priority) (Some (lit "pending"))
                          (Some stamp) (Some stamp) in
        (Returned rowid,
         mkStore (mkWorld (clock w) (reads w) (tasks w ++ [row]))
                 rowid (timestamps s) (S (inserts s)))
    end.

End TaskDatabase.

(* ================================================================== *)
(** ** task_manager.py: [TaskManager] *)

Module TaskManager.

Local Open Scope result_scope.
Local Open Scope world_scope.
Local Open Scope Z_scope.

(** [self.priority_keywords], in the order the dictionary is written. *)
Definition priority_keywords : list (str * list str) :=
  [ (lit "high", map lit ["urgent"; "asap"; "immediately"; "critical";
                          "important"; "high"]%string);
    (lit "medium", map lit ["normal"; "regular"; "medium"]%string);
    (lit "low", map lit ["low"; "later"; "whenever"; "optional"]%string) ].

(** The dictionary [parse_natural_language] returns. *)
Record ParsedTask : Type := mkParsed {
  p_title : str;
  p_due_date : option str;
  p_priority : str;
  p_description : str
}.

(** [(?:am|pm|AM|PM)?] *)
Definition ampm : regex := Opt (alts [L "am"; L "pm"; L "AM"; L "PM"]).

(** [\d{1,2}(?::\d{2})?\s*(?:am|pm|AM|PM)?] *)
Definition clock_re : regex :=
  seqs [range Digit 1 2; Opt (Seq (L ":") (range Digit 2 2)); star Space; ampm].

(** [by\s+(\d{1,2}(?::\d{2})?\s*(?:am|pm|AM|PM)?|tomorrow|today|next\s+\w+)] *)
Definition by_pattern : regex :=
  seqs [L "by"; plus Space;
        Grp 1 (alts [clock_re; L "tomorrow"; L "today";
                     seqs [L "next"; plus Space; plus Word]])].

(** [at\s+(\d{1,2}(?::\d{2})?\s*(?:am|pm|AM|PM)?|noon|midnight)] *)
Definition at_pattern : regex :=
  seqs [L "at"; plus Space; Grp 1 (alts [clock_re; L "noon"; L "midnight"])].

(** [in\s+(\d+)\s+(minutes?|hours?|days?)] *)
Definition relative_pattern : regex :=
  seqs [L "in"; plus Space; Grp 1 (plus Digit); plus Space;
        Grp 2 (alts [Seq (L "minute") (Opt (L "s"));
                     Seq (L "hour") (Opt (L "s"));
                     Seq (L "day") (Opt (L "s"))])].

(** [(\d{1,2})(?::(\d{2}))?\s*(am|pm)?] *)
Definition time_pattern : regex :=
  seqs [Grp 1 (range Digit 1 2); Opt (Seq (L ":") (Grp 2 (range Digit 2 2)));
        star Space; Opt (Grp 3 (Alt (L "am") (L "pm")))].

(** [m.group(n).strip()] *)
Definition group_strip (n : nat) (m : Match) : result str :=
  match group n m with
  | Some g => Ok (strip g)
  | None => Raise AttributeError
  end.

(** [int(m.group(n))] *)
Definition group_int (n : nat) (m : Match) : result Z :=
  match group n m with
  | Some g => int g
  | None => Raise TypeError
  end.

(** [int(m.group(n) or 0)] *)
Definition group_int_or_0 (n : nat) (m : Match) : result Z :=
  match group n m with
  | Some g => if truthy g then int g else Ok 0
  | None => Ok 0
  end.

(** [period == word] *)
Definition period_is (period : option str) (word : string) : bool :=
  match period with
  | Some p => Str.eqb p (lit word)
  | None => false
  end.

Definition _calculate_relative_time (amount : Z) (unit : str)
           (base_time : datetime) : result (option str) :=
  try delta <-
    (if startswith (lit "minute") unit then
       try d <- timedelta 0 0 amount; Ok (Some d)
     else if startswith (lit "hour") unit then
       try d <- timedelta 0 amount 0; Ok (Some d)
     else if startswith (lit "day") unit then
       try d <- timedelta amount 0 0; Ok (Some d)
     else Ok None);
  match delta with
  | None => Ok None
  | Some d =>
      try result_time <- add base_time d;
      Ok (Some (isoformat result_time))
  end.

Definition _parse_time_expression (time_str : str) (base_time : datetime)
  : result (option str) :=
  let time_str := lower time_str in
  if Str.eqb time_str (lit "tomorrow") then
    try one_day <- timedelta 1 0 0;
    try tomorrow <- add base_time one_day;
    try r <- replace tomorrow 9 0 0 0;
    Ok (Some (isoformat r))
  else if Str.eqb time_str (lit "today") then
    try r <- replace base_time 18 0 0 0;
    Ok (Some (isoformat r))
  else if Str.eqb time_str (lit "noon") then
    try r <- replace base_time 12 0 0 0;
    Ok (Some (isoformat r))
  else if Str.eqb time_str (lit "midnight") then
    try r <- replace base_time 0 0 0 0;
    Ok (Some (isoformat r))
  else
    match re_match false time_pattern time_str with
    | Some time_match =>
        try hour <- group_int 1 time_match;
        try minute <- group_int_or_0 2 time_match;
        let period := group 3 time_match in
        let hour :=
          if period_is period "pm" && negb (hour =? 12) then hour + 12
          else if period_is period "am" && (hour =? 12) then 0
          else hour in
        try result_time <- replace base_time hour minute 0 0;
        try result_time <-
          (if leb result_time base_time then
             try one_day <- timedelta 1 0 0;
             add result_time one_day
           else Ok result_time);
        Ok (Some (isoformat result_time))
    | None => Ok None
    end.

(** The body of [_extract_due_date] after [now = datetime.now()]. *)
Definition extract_due_date_at (now : datetime) (text : str)
  : result (option str) :=
  match search false by_pattern text with
  | Some by_match =>
      try time_str <- group_strip 1 by_match;
      _parse_time_expression time_str now
  | None =>
      match search false at_pattern text with
      | Some at_match =>
          try time_str <- group_strip 1 at_match;
          _parse_time_expression time_str now
      | None =>
          match search false relative_pattern text with
          | Some relative_match =>
              try amount <- group_int 1 relative_match;
              match group 2 relative_match with
              | Some unit => _calculate_relative_time amount unit now
              | None => Raise AttributeError
              end
          | None => Ok None
          end
      end
  end.

Definition _extract_due_date (text : str) : M (option str) :=
  let* now := datetime_now in
  lift (extract_due_date_at now text).

(** The priority of the first keyword list with a keyword in [text]. *)
Fixpoint first_priority (table : list (str * list str)) (text : str)
  : option str :=
  match table with
  | [] => None
  | (priority, keywords) :: rest =>
      if any_in keywords text then Some priority
      else first_priority rest text
  end.

Definition _extract_priority (text : str) : option str :=
  first_priority priority_keywords text.

(** [(?:\s+by|\s+at|\s+in|$)] *)
Definition stop_re : regex :=
  alts [Seq (plus Space) (L "by"); Seq (plus Space) (L "at");
        Seq (plus Space) (L "in"); Eos].

(** [to\s+(.+?)(?:\s+by|\s+at|\s+in|$)] *)
Definition to_pattern : regex :=
  seqs [L "to"; plus Space; Grp 1 (lazy_plus Dot); stop_re].

(** [about\s+(.+?)(?:\s+by|\s+at|\s+in|$)] *)
Definition about_pattern : regex :=
  seqs [L "about"; plus Space; Grp 1 (lazy_plus Dot); stop_re].

Definition _extract_description (text : str) : result str :=
  match search true to_pattern text with
  | Some to_match => group_strip 1 to_match
  | None =>
      match search true about_pattern text with
      | Some about_match => group_strip 1 about_match
      | None => Ok []
      end
  end.

Definition patterns_to_remove : list regex :=
  [ seqs [plus Space; L "by"; plus Space; range Digit 1 2;
          Opt (Seq (L ":") (range Digit 2 2)); star Space; ampm];
    seqs [plus Space; L "at"; plus Space; range Digit 1 2;
          Opt (Seq (L ":") (range Digit 2 2)); star Space; ampm];
    seqs [plus Space; L "in"; plus Space; plus Digit; plus Space;
          alts [Seq (L "minute") (Opt (L "s")); Seq (L "hour") (Opt (L "s"));
                Seq (L "day") (Opt (L "s"))]];
    seqs [plus Space; L "by"; plus Space; L "tomorrow"];
    seqs [plus Space; L "by"; plus Space; L "today"];
    seqs [plus Space; L "at"; plus Space; L "noon"];
    seqs [plus Space; L "at"; plus Space; L "midnight"] ].

Definition _clean_title_from_date (original_text : str) (due_date : str)
  : str :=
  strip (fold_left (fun cleaned_text pattern => sub true pattern cleaned_text)
                   patterns_to_remove original_text).

Definition parse_natural_language (user_input : str) : M ParsedTask :=
  let input_lower := lower user_input in
  let* due_date := _extract_due_date input_lower in
  let '(res_due, res_title) :=
    match due_date with
    | Some d =>
        if truthy d then (Some d, _clean_title_from_date user_input d)
        else (None, strip user_input)
    | None => (None, strip user_input)
    end in
  let res_priority :=
    match _extract_priority input_lower with
    | Some p => if truthy p then p else lit "medium"
    | None => lit "medium"
    end in
  let* description := lift (_extract_description user_input) in
  let res_description := if truthy description then description else [] in
  ret (mkParsed res_title res_due res_priority res_description).

(** [mark_task_complete(task_id)] *)
Definition mark_task_complete (task_id : Z) : M bool :=
  TaskDatabase.update_task task_id None None None None
                           (Some (lit "completed")).

(** [add_task_from_natural_language(user_input)] *)
Definition add_task_from_natural_language (user_input : str) : DB Z :=
  fun s =>
    match parse_natural_language user_input (world s) with
    | (Ok parsed_task, w) =>
        TaskDatabase.add_task (p_title parsed_task)
                              (p_description parsed_task)
                              (p_due_date parsed_task)
                              (p_priority parsed_task)
                              (with_world s w)
    | (Raise e, w) => (Raised e, with_world s w)
    end.

(** [delete_task(task_id)] *)
Definition delete_task (task_id : Z) : M bool :=
  TaskDatabase.delete_task task_id.

(** [update_task_priority(task_id, priority)] *)
Definition update_task_priority (task_id : Z) (new_priority : str) : M bool :=
  TaskDatabase.update_task task_id None None None (Some new_priority) None.

End TaskManager.

(* ================================================================== *)
(** ** ai_assistant.py: [AIAssistant] *)

Module AIAssistant.

Local Open Scope result_scope.

(** The intent names [_classify_intent] returns. *)
Inductive Intent : Type :=
| create_task
| view_tasks
| complete_task
| delete_task
| general_chat.

Definition create_keywords : list str :=
  map lit ["remind me"; "add"; "create"; "new task"; "schedule"; "set"]%string.
Definition view_keywords : list str :=
  map lit ["show"; "list"; "what"; "tasks"; "todo"; "pending"; "due"]%string.
Definition complete_keywords : list str :=
  map lit ["done"; "complete"; "finished"; "mark as done"]%string.
Definition delete_keywords : list str :=
  map lit ["delete"; "remove"; "cancel"; "drop"]%string.

Definition _classify_intent (user_input : str) : Intent :=
  if any_in create_keywords user_input then create_task
  else if any_in view_keywords user_input then view_tasks
  else if any_in complete_keywords user_input then complete_task
  else if any_in delete_keywords user_input then delete_task
  else general_chat.

(** The intent [process_user_input] dispatches on: the input is lower-cased,
    then classified. *)
Definition classify (user_input : str) : Intent :=
  let input_lower := lower user_input in
  _classify_intent input_lower.

(** [task\s*#?(\d+)], [#(\d+)], [(\d+)] *)
Definition id_patterns : list regex :=
  [ seqs [L "task"; star Space; Opt (L "#"); Grp 1 (plus Digit)];
    seqs [L "#"; Grp 1 (plus Digit)];
    Grp 1 (plus Digit) ].

Fixpoint first_reference (patterns : list regex) (user_input : str)
  : result (option Z) :=
  match patterns with
  | [] => Ok None
  | pattern :: rest =>
      match search true pattern user_input with
      | Some m =>
          match group 1 m with
          | Some g => try n <- int g; Ok (Some n)
          | None => Raise TypeError
          end
      | None => first_reference rest user_input
      end
  end.

Definition _extract_task_reference (user_input : str) : result (option Z) :=
  first_reference id_patterns user_input.

(** The messages of the completion and deletion handlers, by the statement
    that builds them; [n] is the task id and [e] the exception put into the
    text. *)
Inductive Message : Type :=
| completed_well_done (n : Z)        (* "Great! Task n has been marked as completed. ..." *)
| not_found_to_complete (n : Z)      (* "Sorry, I couldn't find task n to mark as complete." *)
| which_task_to_complete             (* "I couldn't identify which task you want to complete. ..." *)
| could_not_complete (e : exn)       (* "Sorry, I couldn't complete that task. Error: e" *)
| deleted_successfully (n : Z)       (* "Task n has been deleted successfully." *)
| not_found_to_delete (n : Z)        (* "Sorry, I couldn't find task n to delete." *)
| which_task_to_delete               (* "I couldn't identify which task you want to delete. ..." *)
| could_not_delete (e : exn).        (* "Sorry, I couldn't delete that task. Error: e" *)

(** The dictionary a handler returns; [r_task_id] is [None] when the key is
    not set. *)
Record Response : Type := mkResponse {
  r_action : str;
  r_message : Message;
  r_task_id : option Z
}.

(** [if task_id:] for an optional integer: [None] and 0 are false. *)
Definition truthy_id (task_id : option Z) : option Z :=
  match task_id with
  | Some n => if Z.eqb n 0 then None else Some n
  | None => None
  end.

Definition error_response (m : Message) : Response :=
  mkResponse (lit "error") m None.

Definition _handle_complete_task (user_input : str) : M Response :=
  fun w =>
    match _extract_task_reference user_input with
    | Raise e => (Ok (error_response (could_not_complete e)), w)
    | Ok task_id =>
        match truthy_id task_id with
        | Some n =>
            match TaskManager.mark_task_complete n w with
            | (Ok true, w') =>
                (Ok (mkResponse (lit "task_completed") (completed_well_done n)
                                (Some n)), w')
            | (Ok false, w') =>
                (Ok (error_response (not_found_to_complete n)), w')
            | (Raise e, w') =>
                (Ok (error_response (could_not_complete e)), w')
            end
        | None => (Ok (error_response which_task_to_complete), w)
        end
    end.

Definition _handle_delete_task (user_input : str) : M Response :=
  fun w =>
    match _extract_task_reference user_input with
    | Raise e => (Ok (error_response (could_not_delete e)), w)
    | Ok task_id =>
        match truthy_id task_id with
        | Some n =>
            match TaskManager.delete_task n w with
            | (Ok true, w') =>
                (Ok (mkResponse (lit "task_deleted") (deleted_successfully n)
                                (Some n)), w')
            | (Ok false, w') =>
                (Ok (error_response (not_found_to_delete n)), w')
            | (Raise e, w') =>
                (Ok (error_response (could_not_delete e)), w')
            end
        | None => (Ok (error_response which_task_to_delete), w)
        end
    end.

End AIAssistant.

(* ================================================================== *)
(** * Vocabulary of the statements *)

Import TaskManager AIAssistant.

(** ** Keywords in a text *)

(** [k] occurs in [s]: some text before it, some text after it. *)
Definition occurs (k s : str) : Prop := exists pre post, s = pre ++ k ++ post.

(** Some keyword of the list occurs in the text. *)
Definition mentions (keywords : list str) (text : str) : Prop :=
  exists k, In k keywords /\ occurs k text.

(** "The tables are tried in order and the first whose keyword occurs in the
    text decides": the outcome is the label of the first table that the text
    mentions, and nothing when it mentions none. *)
Inductive first_table {A : Type} (text : str)
  : list (A * list str) -> option A -> Prop :=
| first_table_none : first_table text [] None
| first_table_hit (a : A) (keywords : list str) (rest : list (A * list str)) :
    mentions keywords text ->
    first_table text ((a, keywords) :: rest) (Some a)
| first_table_skip (a : A) (keywords : list str) (rest : list (A * list str))
                   (r : option A) :
    ~ mentions keywords text ->
    first_table text rest r ->
    first_table text ((a, keywords) :: rest) r.

(** The four keyword sets in their order of precedence. *)
Definition intent_table : list (Intent * list str) :=
  [ (create_task, map lit ["remind me"; "add"; "create"; "new task";
                           "schedule"; "set"]%string);
    (view_tasks, map lit ["show"; "list"; "what"; "tasks"; "todo"; "pending";
                          "due"]%string);
    (complete_task, map lit ["done"; "complete"; "finished";
                             "mark as done"]%string);
    (delete_task, map lit ["delete"; "remove"; "cancel"; "drop"]%string) ].

(** The default branch of the classifier. *)
Definition or_general_chat (r : option Intent) : Intent :=
  match r with
  | Some i => i
  | None => general_chat
  end.

(** The three keyword maps in their order of declaration. *)
Definition priority_table : list (str * list str) :=
  [ (lit "high", map lit ["urgent"; "asap"; "immediately"; "critical";
                          "important"; "high"]%string);
    (lit "medium", map lit ["normal"; "regular"; "medium"]%string);
    (lit "low", map lit ["low"; "later"; "whenever"; "optional"]%string) ].

(** The parser's default priority. *)
Definition or_medium (p : option str) : str :=
  match p with
  | Some x => if truthy x then x else lit "medium"
  | None => lit "medium"
  end.

(** ** Digits and groups of a match *)

(** Some character of the text is a decimal digit. *)
Definition has_digit (s : str) : Prop :=
  exists c, In c s /\ isdigit c = true.

(** Patterns every match of which covers at least one digit. *)
Fixpoint demands_digit (r : regex) : bool :=
  match r with
  | Rep Digit (S _) _ _ => true
  | Seq r1 r2 => demands_digit r1 || demands_digit r2
  | Alt r1 r2 => demands_digit r1 && demands_digit r2
  | Grp _ r1 => demands_digit r1
  | _ => false
  end.

(** Patterns every match of which fills group [n]. *)
Fixpoint always_captures (n : nat) (r : regex) : bool :=
  match r with
  | Grp m r1 => Nat.eqb m n || always_captures n r1
  | Seq r1 r2 => always_captures n r1 || always_captures n r2
  | Alt r1 r2 => always_captures n r1 && always_captures n r2
  | _ => false
  end.

(** Group [n] is among the captures. *)
Definition has_key (n : nat) (c : caps) : bool :=
  existsb (fun p => Nat.eqb (fst p) n) c.

(** The match of the first pattern, in the order given, that matches. *)
Fixpoint first_match (patterns : list regex) (text : str) : option Match :=
  match patterns with
  | [] => None
  | pattern :: rest =>
      match search true pattern text with
      | Some m => Some m
      | None => first_match rest text
      end
  end.

(** The text of group [n], empty when the group is unset. *)
Definition captured (n : nat) (m : Match) : str :=
  match group n m with
  | Some g => g
  | None => []
  end.

(** The three numeric patterns in the order in which they are tried:
    [task\s*#?(\d+)], [#(\d+)] and [(\d+)]. *)
Definition numeric_patterns : list regex :=
  [ Seq (L "task") (Seq (star Space) (Seq (Opt (L "#")) (Grp 1 (plus Digit))));
    Seq (L "#") (Grp 1 (plus Digit));
    Grp 1 (plus Digit) ].

(** The reference a match stands for: the integer of the digits in group 1,
    which [int] refuses when they are more than 4300. *)
Definition reference_of (m : Match) : result (option Z) :=
  if (List.length (captured 1 m) <=? 4300)%nat
  then Ok (Some (decimal (captured 1 m)))
  else Raise ValueError.

(** "task" followed by a run of 4301 digits. *)
Definition long_reference : str :=
  lit "complete task " ++ repeat "1"%char 4301.

(** ** The parts of a parse *)

(** The world after one call of [datetime.now()]. *)
Definition tick (w : World) : World :=
  mkWorld (clock w) (S (reads w)) (tasks w).

(** The due date and the title the parser records for an extracted date. *)
Definition due_of (due : option str) : option str :=
  match due with
  | Some d => if truthy d then Some d else None
  | None => None
  end.

Definition title_of (user_input : str) (due : option str) : str :=
  match due_of due with
  | Some d => _clean_title_from_date user_input d
  | None => strip user_input
  end.

(** ** The date phrases of the title cleaner *)

(** [\s+by\s+H[:MM][am|pm]] and [\s+at\s+H[:MM][am|pm]] *)
Definition clock_phrase (word : string) : regex :=
  seqs [plus Space; L word; plus Space; range Digit 1 2;
        Opt (Seq (L ":") (range Digit 2 2)); star Space;
        Opt (alts [L "am"; L "pm"; L "AM"; L "PM"])].

(** [\s+in\s+N\s+(minutes?|hours?|days?)] *)
Definition relative_phrase : regex :=
  seqs [plus Space; L "in"; plus Space; plus Digit; plus Space;
        alts [Seq (L "minute") (Opt (L "s")); Seq (L "hour") (Opt (L "s"));
              Seq (L "day") (Opt (L "s"))]].

(** [\s+by\s+tomorrow] and the like *)
Definition keyword_phrase (word keyword : string) : regex :=
  seqs [plus Space; L word; plus Space; L keyword].

(** The seven phrases, each led by white space, in the order in which they
    are deleted. *)
Definition date_phrases : list regex :=
  [ clock_phrase "by"; clock_phrase "at"; relative_phrase;
    keyword_phrase "by" "tomorrow"; keyword_phrase "by" "today";
    keyword_phrase "at" "noon"; keyword_phrase "at" "midnight" ].

(** The text with every match of each phrase deleted, case-insensitively, one
    phrase after the other. *)
Definition delete_phrases (phrases : list regex) (text : str) : str :=
  fold_left (fun remaining phrase => sub true phrase remaining) phrases text.

(** ** Clock times *)

(** The 12-hour convention: "pm" adds 12 unless the hour is 12, "am" turns
    hour 12 into 0, and without am/pm the hour is taken as written. *)
Definition hour24 (h : Z) (period : option str) : Z :=
  match period with
  | Some p =>
      if Str.eqb p (lit "pm") then (if h =? 12 then h else h + 12)%Z
      else if Str.eqb p (lit "am") then (if h =? 12 then 0 else h)%Z
      else h
  | None => h
  end.

(** The minutes, 0 when none are written. *)
Definition minute_of (mm : option str) : Z :=
  match mm with
  | Some x => decimal x
  | None => 0%Z
  end.

(** The hour digits, minute digits and am/pm that [time_pattern] finds at the
    start of a time expression. *)
Definition clock_groups (s : str) : option (str * option str * option str) :=
  match re_match false time_pattern s with
  | Some m =>
      match group 1 m with
      | Some h => Some (h, group 2 m, group 3 m)
      | None => None
      end
  | None => None
  end.

(** ** The three expression families *)

(** What a match of the "by" or of the "at" pattern resolves to. *)
Definition resolve_clock (now : datetime) (m : Match) : result (option str) :=
  _parse_time_expression (strip (captured 1 m)) now.

(** What a match of the "in N unit" pattern resolves to. *)
Definition resolve_relative (now : datetime) (m : Match)
  : result (option str) :=
  rbind (int (captured 1 m)) (fun amount =>
  _calculate_relative_time amount (captured 2 m) now).

(** Each family on its own: the resolution of its match, nothing without. *)
Definition by_family (now : datetime) (text : str) : result (option str) :=
  match search false by_pattern text with
  | Some m => resolve_clock now m
  | None => Ok None
  end.

Definition at_family (now : datetime) (text : str) : result (option str) :=
  match search false at_pattern text with
  | Some m => resolve_clock now m
  | None => Ok None
  end.

Definition in_family (now : datetime) (text : str) : result (option str) :=
  match search false relative_pattern text with
  | Some m => resolve_relative now m
  | None => Ok None
  end.

(** The extraction in the words "the first family that succeeds wins": a
    family that yields no timestamp passes the text on to the next one. *)
Definition first_success (now : datetime) (text : str)
  : result (option str) :=
  rbind (by_family now text) (fun r =>
  match r with
  | Some d => Ok (Some d)
  | None =>
      rbind (at_family now text) (fun r =>
      match r with
      | Some d => Ok (Some d)
      | None => in_family now text
      end)
  end).

(** The extraction in the words "the first family that matches decides". *)
Inductive first_matching_family (now : datetime) (text : str)
  : result (option str) -> Prop :=
| by_decides (m : Match) :
    search false by_pattern text = Some m ->
    first_matching_family now text (resolve_clock now m)
| at_decides (m : Match) :
    search false by_pattern text = None ->
    search false at_pattern text = Some m ->
    first_matching_family now text (resolve_clock now m)
| in_decides (m : Match) :
    search false by_pattern text = None ->
    search false at_pattern text = None ->
    search false relative_pattern text = Some m ->
    first_matching_family now text (resolve_relative now m)
| none_matches :
    search false by_pattern text = None ->
    search false at_pattern text = None ->
    search false relative_pattern text = None ->
    first_matching_family now text (Ok None).

(** Every id in the table is one SQLite can store: a 64-bit integer. *)
Definition stored_ids (w : World) : Prop :=
  Forall (fun t => TaskDatabase.fits_int64 (id t) = true) (tasks w).

(** A store as SQLite holds it: the ids in the table and the recorded
    sequence are 64-bit integers. *)
Definition sqlite_store (s : Store) : Prop :=
  stored_ids (world s) /\ TaskDatabase.fits_int64 (sequence s) = true.

(** ** Reference times, worlds and rows used in the examples *)

(** 2024-01-01T10:00:00, and the same day at 11:00:00 and at 19:30:00. *)
Definition new_year_10am : datetime := mkDatetime (ymd2ord 2024 1 1) 10 0 0 0.

Definition new_year_11am : datetime := mkDatetime (ymd2ord 2024 1 1) 11 0 0 0.

Definition new_year_evening : datetime :=
  mkDatetime (ymd2ord 2024 1 1) 19 30 0 0.

(** The evening of the last day a [datetime] can hold, 9999-12-31. *)
Definition last_evening : datetime := mkDatetime MAXORDINAL 19 30 0 0.

(** Worlds with an empty table whose clock stands at one moment. *)
Definition morning_world : World := mkWorld (fun _ => new_year_10am) 0 [].

Definition hour_later_world : World := mkWorld (fun _ => new_year_11am) 0 [].

(** A pending task with id 7. *)
Definition sample_task : Task :=
  mkTask 7 (lit "call mom") (Some (lit "call mom")) None
         (Some (lit "medium")) (Some (lit "pending"))
         (Some (lit "2024-01-01 09:00:00")) (Some (lit "2024-01-01 09:00:00")).

(** A table of two rows, at 10 o'clock. *)
Definition sample_world : World :=
  mkWorld (fun _ => new_year_10am) 0
          [mkTask 3 (lit "buy milk") None None (Some (lit "low"))
                  (Some (lit "pending")) None None;
           sample_task].

(** A world that agrees with [morning_world] on the next clock reading only. *)
Definition later_world : World :=
  mkWorld (fun n => match n with
                    | O => new_year_10am
                    | S _ => mkDatetime (ymd2ord 2024 1 1) 23 59 59 0
                    end) 0 [sample_task].

(** ** Vocabulary of the further properties *)

(** Seconds in the unit of an "in N unit" expression. *)
Definition unit_seconds (unit : str) : option Z :=
  if startswith (lit "minute") unit then Some 60%Z
  else if startswith (lit "hour") unit then Some 3600%Z
  else if startswith (lit "day") unit then Some 86400%Z
  else None.

(** No white space at either end. *)
Definition trimmed (s : str) : Prop :=
  (forall c t, s = c :: t -> isspace c = false) /\
  (forall c t, s = t ++ [c] -> isspace c = false).

(** [a] is [b] with some characters deleted. *)
Inductive subseq : str -> str -> Prop :=
| subseq_nil : subseq [] []
| subseq_drop (c : ascii) (a b : str) : subseq a b -> subseq a (c :: b)
| subseq_keep (c : ascii) (a b : str) : subseq a b -> subseq (c :: a) (c :: b).

(** Every group [n] of the pattern, wherever it matches, covers a text that
    satisfies [P n]. *)
Fixpoint groups_sat (ic : bool) (P : nat -> str -> Prop) (r : regex) : Prop :=
  match r with
  | Grp n r1 =>
      (forall s c rest, In (c, rest) (run ic r1 s) -> P n (consumed s rest))
      /\ groups_sat ic P r1
  | Seq r1 r2 => groups_sat ic P r1 /\ groups_sat ic P r2
  | Alt r1 r2 => groups_sat ic P r1 /\ groups_sat ic P r2
  | Opt r1 => groups_sat ic P r1
  | _ => True
  end.

(** The text begins with a decimal digit. *)
Definition starts_with_digit (g : str) : Prop :=
  exists d t, g = d :: t /\ isdigit d = true.

(** What group 1 of the "by" pattern can hold. *)
Definition by_capture (n : nat) (g : str) : Prop :=
  n = 1 ->
  starts_with_digit g \/ g = lit "tomorrow" \/ g = lit "today" \/
  startswith (lit "next") g = true.

(** What group 1 of the "at" pattern can hold. *)
Definition at_capture (n : nat) (g : str) : Prop :=
  n = 1 ->
  starts_with_digit g \/ g = lit "noon" \/ g = lit "midnight".

(** What group 2 of the "in N unit" pattern can hold. *)
Definition unit_capture (n : nat) (g : str) : Prop :=
  n = 2 -> unit_seconds g <> None.

(** The value a column takes when [update_task] is given [new] for it. *)
Definition updated (new : option str) (old : sqltext) : sqltext :=
  match new with
  | Some v => Some v
  | None => old
  end.

(** The row [get_task_by_id] finds, as a value. *)
Definition lookup (task_id : Z) (w : World) : result (option Task) :=
  fst (TaskDatabase.get_task_by_id task_id w).

(** No two rows of the table share an id. *)
Definition unique_ids (w : World) : Prop := NoDup (map id (tasks w)).

(** A store with the two rows of [sample_world], ids 3 and 7 issued. *)
Definition sample_store : Store :=
  mkStore sample_world 7 (fun _ => lit "2024-01-01 09:30:00") 2.

(** Group 1 holds decimal digits only. *)
Definition digits_capture (n : nat) (g : str) : Prop :=
  n = 1 -> Forall (fun c => isdigit c = true) g.

(* ================================================================== *)
(** * Properties *)

(** ** Substrings *)

Section Substrings.

Lemma eqb_char_eq (a b : ascii) : eqb_char a b = true <-> a = b.
Proof. unfold eqb_char. apply Ascii.eqb_eq. Qed.

Lemma str_eqb_eq (a b : str) : Str.eqb a b = true <-> a = b.
Proof.
  revert b. induction a as [|x a IH]; intros [|y b]; simpl;
    try (split; [discriminate | discriminate]); try tauto.
  rewrite andb_true_iff, eqb_char_eq, IH.
  split; [intros [-> ->]; reflexivity | intros [= -> ->]; auto].
Qed.

Lemma startswith_spec (p s : str) :
  startswith p s = true <-> exists post, s = p ++ post.
Proof.
  revert s. induction p as [|x p IH]; intros s; simpl.
  - split; [intros _; exists s; reflexivity | reflexivity].
  - destruct s as [|y s].
    + split; [discriminate | intros [post H]; discriminate H].
    + rewrite andb_true_iff, eqb_char_eq, IH. split.
      * intros [-> [post ->]]. exists post. reflexivity.
      * intros [post [= -> ->]]. split; [reflexivity | exists post; reflexivity].
Qed.

Lemma contains_spec (k s : str) : contains k s = true <-> occurs k s.
Proof.
  unfold occurs. induction s as [|c s IH].
  - simpl. rewrite orb_false_r, startswith_spec. split.
    + intros [post H]. exists [], post. exact H.
    + intros [pre [post H]]. destruct pre as [|x pre]; [|discriminate H].
      exists post. exact H.
  - cbn [contains]. rewrite orb_true_iff, startswith_spec, IH. split.
    + intros [[post H] | [pre [post H]]].
      * exists [], post. exact H.
      * exists (c :: pre), post. rewrite H. reflexivity.
    + intros [pre [post H]]. destruct pre as [|x pre].
      * left. exists post. exact H.
      * right. injection H as _ H. exists pre, post. exact H.
Qed.

Lemma any_in_spec (ks : list str) (s : str) :
  any_in ks s = true <-> mentions ks s.
Proof.
  unfold any_in, mentions. rewrite existsb_exists.
  split; intros [k [Hin H]]; exists k; (split; [exact Hin|]);
    apply contains_spec; exact H.
Qed.

Lemma any_in_false (ks : list str) (s : str) :
  any_in ks s = false <-> ~ mentions ks s.
Proof.
  rewrite <- any_in_spec. destruct (any_in ks s); split; congruence.
Qed.

Lemma first_priority_table (table : list (str * list str)) (text : str) :
  first_table text table (first_priority table text).
Proof.
  induction table as [|[a ks] rest IH]; simpl.
  - constructor.
  - destruct (any_in ks text) eqn:E.
    + apply first_table_hit. apply any_in_spec. exact E.
    + apply first_table_skip; [apply any_in_false; exact E | exact IH].
Qed.

(** The first-table rule leaves no choice. *)
Lemma first_table_functional {A : Type} (text : str)
      (table : list (A * list str)) (r1 r2 : option A) :
  first_table text table r1 -> first_table text table r2 -> r1 = r2.
Proof.
  intros H1. revert r2.
  induction H1 as [|a ks rest Hm|a ks rest r Hn _ IH]; intros r2 H2;
    inversion H2; subst; try reflexivity; try contradiction.
  apply IH. assumption.
Qed.

End Substrings.

(* ------------------------------------------------------------------ *)
(** ** Intent classification *)

Section Intents.

(** C5.  Classification lower-cases the utterance and returns the intent of the
    first of the keyword sets create, view, complete, delete (in that order)
    one of whose keywords occurs in it, and [general_chat] when none does; it
    is a total function of the utterance, and "show me how to add a task",
    which has both a view cue and a create cue, is classified [create_task]. *)
Theorem classify_first_matching_set (utterance : str) :
  (exists r, first_table (lower utterance) intent_table r /\
             classify utterance = or_general_chat r) /\
  mentions create_keywords (lower (lit "show me how to add a task")) /\
  mentions view_keywords (lower (lit "show me how to add a task")) /\
  classify (lit "show me how to add a task") = create_task.
Proof.
  split; [|split; [|split]].
  - unfold classify, _classify_intent, intent_table.
    fold create_keywords view_keywords complete_keywords delete_keywords.
    destruct (any_in create_keywords (lower utterance)) eqn:E1.
    { exists (Some create_task). split; [|reflexivity].
      apply first_table_hit, any_in_spec, E1. }
    destruct (any_in view_keywords (lower utterance)) eqn:E2.
    { exists (Some view_tasks). split; [|reflexivity].
      apply first_table_skip; [apply any_in_false, E1|].
      apply first_table_hit, any_in_spec, E2. }
    destruct (any_in complete_keywords (lower utterance)) eqn:E3.
    { exists (Some complete_task). split; [|reflexivity].
      do 2 (apply first_table_skip; [apply any_in_false; assumption|]).
      apply first_table_hit, any_in_spec, E3. }
    destruct (any_in delete_keywords (lower utterance)) eqn:E4.
    { exists (Some delete_task). split; [|reflexivity].
      do 3 (apply first_table_skip; [apply any_in_false; assumption|]).
      apply first_table_hit, any_in_spec, E4. }
    exists None. split; [|reflexivity].
    do 4 (apply first_table_skip; [apply any_in_false; assumption|]).
    constructor.
  - apply any_in_spec. vm_compute. reflexivity.
  - apply any_in_spec. vm_compute. reflexivity.
  - vm_compute. reflexivity.
Qed.

End Intents.

(* ------------------------------------------------------------------ *)
(** ** The shape of a parse *)

Section ParseShape.

Lemma extract_due_date_reads_clock (text : str) (w : World) :
  _extract_due_date text w =
  (extract_due_date_at (clock w (reads w)) text, tick w).
Proof.
  unfold _extract_due_date, bind, datetime_now, lift, tick. reflexivity.
Qed.

Lemma parse_natural_language_unfold (user_input : str) (w : World) :
  parse_natural_language user_input w =
  (match extract_due_date_at (clock w (reads w)) (lower user_input) with
   | Ok due =>
       match _extract_description user_input with
       | Ok d =>
           Ok (mkParsed (title_of user_input due) (due_of due)
                        (or_medium (_extract_priority (lower user_input)))
                        (if truthy d then d else []))
       | Raise e => Raise e
       end
   | Raise e => Raise e
   end, tick w).
Proof.
  unfold parse_natural_language, bind.
  rewrite extract_due_date_reads_clock.
  destruct (extract_due_date_at (clock w (reads w)) (lower user_input))
    as [due|e]; [|reflexivity].
  unfold title_of, due_of, or_medium, lift, ret.
  destruct due as [d|]; [destruct (truthy d)|];
    destruct (_extract_description user_input); reflexivity.
Qed.

End ParseShape.

(* ------------------------------------------------------------------ *)
(** ** Priority extraction *)

Section Priorities.

Lemma extract_priority_values (text : str) :
  _extract_priority text = Some (lit "high") \/
  _extract_priority text = Some (lit "medium") \/
  _extract_priority text = Some (lit "low") \/
  _extract_priority text = None.
Proof.
  unfold _extract_priority, priority_keywords. cbn [first_priority].
  repeat match goal with
         | |- context [if ?b then _ else _] => destruct b
         end; auto.
Qed.

(** C8.  Priority extraction returns the priority of the first of the keyword
    maps high, medium, low (in that order) one of whose keywords occurs in the
    lower-cased text, and nothing when no keyword occurs, in which case the
    parser records [medium]; "this is urgent" gives high, "whenever you can"
    gives low and "buy milk" gives nothing. *)
Theorem extract_priority_first_keyword_map (utterance : str) (w : World) :
  let text := lower utterance in
  first_table text priority_table (_extract_priority text) /\
  match fst (parse_natural_language utterance w) with
  | Ok parsed =>
      p_priority parsed =
      match _extract_priority text with
      | Some p => p
      | None => lit "medium"
      end
  | Raise _ => True
  end /\
  _extract_priority (lower (lit "this is urgent")) = Some (lit "high") /\
  _extract_priority (lower (lit "whenever you can")) = Some (lit "low") /\
  _extract_priority (lower (lit "buy milk")) = None.
Proof.
  intros text. split; [|split; [|repeat split; vm_compute; reflexivity]].
  - apply (first_priority_table priority_keywords).
  - rewrite parse_natural_language_unfold. cbn [fst]. fold text.
    destruct (extract_due_date_at _ _); [|exact I].
    destruct (_extract_description utterance); [|exact I].
    cbn [p_priority].
    destruct (extract_priority_values text) as [E|[E|[E|E]]];
      rewrite E; reflexivity.
Qed.

End Priorities.

(* ------------------------------------------------------------------ *)
(** ** Facts about the matcher *)

Section Matcher.

Variable ic : bool.

Lemma flat_map_nil {A B} (f : A -> list B) (l : list A) :
  (forall x, In x l -> f x = []) -> flat_map f l = [].
Proof.
  induction l as [|x l IH]; intros H; simpl; [reflexivity|].
  rewrite (H x (or_introl eq_refl)), IH; [reflexivity|].
  intros y Hy. apply H. right. exact Hy.
Qed.

Lemma lit_match_suffix (p s rest : str) :
  lit_match ic p s = Some rest -> exists pre, s = pre ++ rest.
Proof.
  revert s. induction p as [|x p IH]; intros s; simpl.
  - intros [= ->]. exists []. reflexivity.
  - destruct s as [|y s]; [discriminate|].
    destruct (char_match ic x y); [|discriminate].
    intros H. destruct (IH _ H) as [pre ->]. exists (y :: pre). reflexivity.
Qed.

(** What is left after a match is a suffix of the input. *)
Lemma run_suffix (r : regex) :
  forall s c rest, In (c, rest) (run ic r s) -> exists pre, s = pre ++ rest.
Proof.
  induction r as [p|k lo hi g|r1 IH1 r2 IH2|r1 IH1 r2 IH2|r1 IH1|n r1 IH1|];
    intros s c rest; simpl.
  - destruct (lit_match ic p s) as [rest'|] eqn:E; [|intros []].
    intros [[= _ <-]|[]]. apply lit_match_suffix with (p := p). exact E.
  - rewrite in_map_iff. intros [j [[= _ <-] _]].
    exists (firstn j s). symmetry. apply firstn_skipn.
  - rewrite in_flat_map. intros [[c1 s1] [H1 H2]].
    rewrite in_map_iff in H2. destruct H2 as [[c2 s2] [[= _ <-] H2]].
    cbn [snd] in H2.
    destruct (IH1 _ _ _ H1) as [pre1 ->]. destruct (IH2 _ _ _ H2) as [pre2 ->].
    exists (pre1 ++ pre2). rewrite app_assoc. reflexivity.
  - rewrite in_app_iff. intros [H|H]; [apply (IH1 _ _ _ H) | apply (IH2 _ _ _ H)].
  - rewrite in_app_iff. intros [H|[[= _ <-]|[]]]; [apply (IH1 _ _ _ H)|].
    exists []. reflexivity.
  - rewrite in_map_iff. intros [[c1 s1] [[= _ <-] H]]. apply (IH1 _ _ _ H).
  - destruct (at_end s); [|intros []]. intros [[= _ <-]|[]].
    exists []. reflexivity.
Qed.

Lemma has_digit_suffix (pre s : str) : has_digit s -> has_digit (pre ++ s).
Proof.
  intros [c [Hin Hd]]. exists c. split; [|exact Hd].
  apply in_or_app. right. exact Hin.
Qed.

Lemma span_no_digit (hi : option nat) (s : str) :
  ~ has_digit s -> span Digit hi s = 0.
Proof.
  intros H. destruct s as [|c s]; [destruct hi as [[|]|]; reflexivity|].
  assert (E : isdigit c = false).
  { destruct (isdigit c) eqn:E; [|reflexivity].
    exfalso. apply H. exists c. split; [left; reflexivity | exact E]. }
  destruct hi as [[|h]|]; simpl; rewrite ?E; reflexivity.
Qed.

Lemma run_no_digit (r : regex) :
  demands_digit r = true ->
  forall s, ~ has_digit s -> run ic r s = [].
Proof.
  induction r as [p|k lo hi g|r1 IH1 r2 IH2|r1 IH1 r2 IH2|r1 IH1|n r1 IH1|];
    simpl; try discriminate.
  - destruct k; try discriminate. destruct lo as [|lo]; [discriminate|].
    intros _ s H. rewrite (span_no_digit hi H). unfold counts. simpl.
    destruct g; reflexivity.
  - intros D s H. apply flat_map_nil. intros [c1 s1] H1. cbn [snd fst].
    destruct (demands_digit r1) eqn:D1.
    + rewrite (IH1 eq_refl s H) in H1. destruct H1.
    + simpl in D. rewrite IH2; [reflexivity | exact D |].
      destruct (run_suffix _ _ _ _ H1) as [pre ->].
      intros H2. apply H. apply has_digit_suffix. exact H2.
  - rewrite andb_true_iff. intros [D1 D2] s H.
    rewrite (IH1 D1 s H), (IH2 D2 s H). reflexivity.
  - intros D s H. rewrite (IH1 D s H). reflexivity.
Qed.

Lemma search_from_no_digit (r : regex) :
  demands_digit r = true ->
  forall s pos, ~ has_digit s -> search_from ic r pos s = None.
Proof.
  intros D. induction s as [|c s IH]; intros pos H; simpl;
    unfold match_here; rewrite (run_no_digit _ D H); [reflexivity|].
  apply IH. intros [d [Hin Hd]]. apply H. exists d. split; [right|]; assumption.
Qed.

Lemma counts_nonempty (g : bool) (lo top : nat) :
  lo <= top -> counts g lo top <> [].
Proof.
  intros H. unfold counts. replace (S top - lo) with (S (top - lo)) by lia.
  cbn [seq]. destruct g; [|discriminate].
  cbn [rev]. intros E. apply app_eq_nil in E. destruct E as [_ E]. discriminate.
Qed.

Lemma search_from_digits (n : nat) :
  forall s pos, has_digit s ->
    search_from ic (Grp n (plus Digit)) pos s <> None.
Proof.
  induction s as [|c s IH]; intros pos [d [Hin Hd]]; [destruct Hin|].
  cbn [search_from]. unfold match_here at 1.
  destruct (isdigit c) eqn:E.
  - cbn [run plus span in_class]. rewrite E. cbn [option_map].
    pose proof (@counts_nonempty true 1 (S (span Digit None s))) as Hc.
    destruct (counts true 1 (S (span Digit None s))); [exfalso; apply Hc; [lia | reflexivity]|].
    cbn. discriminate.
  - cbn [run plus span in_class]. rewrite E. cbn.
    apply IH. destruct Hin as [->|Hin]; [congruence|].
    exists d. split; assumption.
Qed.

Lemma run_captures (n : nat) (r : regex) :
  always_captures n r = true ->
  forall s c rest, In (c, rest) (run ic r s) -> has_key n c = true.
Proof.
  unfold has_key.
  induction r as [p|k lo hi g|r1 IH1 r2 IH2|r1 IH1 r2 IH2|r1 IH1|m r1 IH1|];
    simpl; try discriminate.
  - intros D s c rest. rewrite in_flat_map. intros [[c1 s1] [H1 H2]].
    rewrite in_map_iff in H2. destruct H2 as [[c2 s2] [[= <- _] H2]].
    cbn [fst snd] in *. rewrite existsb_app.
    apply orb_true_iff in D. apply orb_true_iff. destruct D as [D|D].
    + left. apply (IH1 D _ _ _ H1).
    + right. apply (IH2 D _ _ _ H2).
  - rewrite andb_true_iff. intros [D1 D2] s c rest. rewrite in_app_iff.
    intros [H|H]; [apply (IH1 D1 _ _ _ H) | apply (IH2 D2 _ _ _ H)].
  - intros D s c rest. rewrite in_map_iff.
    intros [[c1 s1] [[= <- _] H]]. cbn [existsb fst].
    apply orb_true_iff in D. apply orb_true_iff. destruct D as [D|D].
    + left. exact D.
    + right. apply (IH1 D _ _ _ H).
Qed.

Lemma has_key_group (n : nat) (m : Match) :
  has_key n (m_caps m) = true -> exists g, group n m = Some g.
Proof.
  unfold has_key, group. intros H.
  destruct (find (fun p => Nat.eqb (fst p) n) (m_caps m)) as [[k g]|] eqn:E.
  - exists g. reflexivity.
  - apply existsb_exists in H. destruct H as [x [Hin Hx]].
    rewrite (find_none _ _ E x Hin) in Hx. discriminate.
Qed.

Lemma match_here_captures (n : nat) (r : regex) (pos : nat) (s : str)
      (m : Match) :
  always_captures n r = true ->
  match_here ic r pos s = Some m -> exists g, group n m = Some g.
Proof.
  unfold match_here. intros D.
  destruct (run ic r s) as [|[c rest] l] eqn:E; [discriminate|].
  intros [= <-]. apply has_key_group. cbn [m_caps].
  apply (run_captures n r D s c rest). rewrite E. left. reflexivity.
Qed.

Lemma search_from_captures (n : nat) (r : regex) :
  always_captures n r = true ->
  forall s pos m, search_from ic r pos s = Some m ->
                  exists g, group n m = Some g.
Proof.
  intros D. induction s as [|c s IH]; intros pos m; cbn [search_from];
    destruct (match_here ic r pos _) as [m'|] eqn:E.
  - intros [= <-]. apply (match_here_captures _ _ _ _ D E).
  - discriminate.
  - intros [= <-]. apply (match_here_captures _ _ _ _ D E).
  - apply IH.
Qed.

End Matcher.

(* ------------------------------------------------------------------ *)
(** ** What the groups of a match hold *)

Section Groups.

Lemma consumed_app (pre rest : str) : consumed (pre ++ rest) rest = pre.
Proof.
  unfold consumed. rewrite length_app, Nat.add_sub.
  rewrite firstn_app, Nat.sub_diag, firstn_all. simpl. apply app_nil_r.
Qed.

Lemma group_in_caps (n : nat) (m : Match) (g : str) :
  group n m = Some g -> In (n, g) (m_caps m).
Proof.
  unfold group.
  destruct (find (fun p => Nat.eqb (fst p) n) (m_caps m)) as [[k g']|] eqn:E;
    [|discriminate].
  intros [= <-]. apply find_some in E. destruct E as [Hin Hk].
  apply Nat.eqb_eq in Hk. cbn [fst] in Hk. subst k. exact Hin.
Qed.

Lemma run_caps_sat (ic : bool) (P : nat -> str -> Prop) (r : regex) :
  groups_sat ic P r ->
  forall s c rest, In (c, rest) (run ic r s) ->
                   Forall (fun e => P (fst e) (snd e)) c.
Proof.
  induction r as [p|k lo hi g|r1 IH1 r2 IH2|r1 IH1 r2 IH2|r1 IH1|n r1 IH1|];
    intros G s c rest; simpl.
  - destruct (lit_match ic p s); [|intros []].
    intros [[= <- _]|[]]. constructor.
  - rewrite in_map_iff. intros [j [[= <- _] _]]. constructor.
  - destruct G as [G1 G2]. rewrite in_flat_map. intros [[c1 s1] [H1 H2]].
    rewrite in_map_iff in H2. destruct H2 as [[c2 s2] [[= <- _] H2]].
    cbn [fst snd] in *. apply Forall_app.
    split; [apply (IH1 G1 _ _ _ H1) | apply (IH2 G2 _ _ _ H2)].
  - destruct G as [G1 G2]. rewrite in_app_iff.
    intros [H|H]; [apply (IH1 G1 _ _ _ H) | apply (IH2 G2 _ _ _ H)].
  - rewrite in_app_iff. intros [H|[[= <- _]|[]]];
      [apply (IH1 G _ _ _ H) | constructor].
  - destruct G as [G0 G1]. rewrite in_map_iff.
    intros [[c1 s1] [[= <- _] H]]. cbn [fst snd].
    constructor; [apply (G0 _ _ _ H) | apply (IH1 G1 _ _ _ H)].
  - destruct (at_end s); [|intros []]. intros [[= <- _]|[]]. constructor.
Qed.

Lemma search_from_caps_sat (ic : bool) (P : nat -> str -> Prop) (r : regex) :
  groups_sat ic P r ->
  forall s pos m, search_from ic r pos s = Some m ->
                  Forall (fun e => P (fst e) (snd e)) (m_caps m).
Proof.
  intros G. induction s as [|x s IH]; intros pos m; cbn [search_from];
    unfold match_here; destruct (run ic r _) as [|[c rest] l] eqn:E.
  - discriminate.
  - intros [= <-]. cbn [m_caps].
    apply (run_caps_sat ic P r G [] c rest). rewrite E. left. reflexivity.
  - apply IH.
  - intros [= <-]. cbn [m_caps].
    apply (run_caps_sat ic P r G (x :: s) c rest). rewrite E. left.
    reflexivity.
Qed.

Lemma search_group_sat (ic : bool) (P : nat -> str -> Prop) (r : regex)
      (s : str) (m : Match) (n : nat) (g : str) :
  groups_sat ic P r ->
  search ic r s = Some m -> group n m = Some g -> P n g.
Proof.
  intros G Hs Hg. apply group_in_caps in Hg.
  pose proof (search_from_caps_sat ic P r G s 0 Hs) as F.
  rewrite Forall_forall in F. apply (F (n, g) Hg).
Qed.

Lemma lit_match_exact (p s rest : str) :
  lit_match false p s = Some rest -> s = p ++ rest.
Proof.
  revert s. induction p as [|x p IH]; intros s; simpl.
  - intros [= ->]. reflexivity.
  - destruct s as [|y s]; [discriminate|]. unfold char_match.
    destruct (eqb_char x y) eqn:E; [|discriminate].
    apply eqb_char_eq in E. subst y.
    intros H. rewrite (IH _ H). reflexivity.
Qed.

(** A literal covers exactly its own text. *)
Lemma run_lit_consumed (p s : str) (c : caps) (rest : str) :
  In (c, rest) (run false (Lit p) s) -> consumed s rest = p.
Proof.
  simpl. destruct (lit_match false p s) as [rest'|] eqn:E; [|intros []].
  intros [[= _ <-]|[]]. rewrite (lit_match_exact _ _ E). apply consumed_app.
Qed.

Lemma in_counts (g : bool) (lo top j : nat) :
  In j (counts g lo top) -> lo <= j <= top.
Proof.
  unfold counts. intros H.
  assert (H' : In j (seq lo (S top - lo)))
    by (destruct g; [apply in_rev|]; exact H).
  apply in_seq in H'. lia.
Qed.

Lemma run_alt_app (ic : bool) (r1 r2 : regex) (s : str) :
  run ic (Alt r1 r2) s = run ic r1 s ++ run ic r2 s.
Proof. reflexivity. Qed.

Lemma match_here_group_sat (ic : bool) (P : nat -> str -> Prop) (r : regex)
      (pos : nat) (s : str) (m : Match) (n : nat) (g : str) :
  groups_sat ic P r ->
  match_here ic r pos s = Some m -> group n m = Some g -> P n g.
Proof.
  intros G Hs Hg. apply group_in_caps in Hg. unfold match_here in Hs.
  destruct (run ic r s) as [|[c rest] l] eqn:E; [discriminate|].
  injection Hs as <-. cbn [m_caps] in Hg.
  pose proof (run_caps_sat ic P r G s c rest) as F.
  rewrite E in F. specialize (F (or_introl eq_refl)).
  rewrite Forall_forall in F. apply (F (n, g) Hg).
Qed.

Lemma span_le (k : cclass) (s : str) :
  forall hi, span k (Some hi) s <= hi.
Proof.
  induction s as [|c s IH]; intros [|hi]; simpl; try lia.
  destruct (in_class k c); [|lia]. specialize (IH hi). lia.
Qed.

(** A bounded repetition covers no more characters than its bound. *)
Lemma run_rep_consumed (ic : bool) (k : cclass) (lo hi : nat) (g : bool)
      (s : str) (c : caps) (rest : str) :
  In (c, rest) (run ic (Rep k lo (Some hi) g) s) ->
  List.length (consumed s rest) <= hi.
Proof.
  simpl. rewrite in_map_iff. intros [j [[= _ <-] Hj]].
  apply in_counts in Hj. pose proof (span_le k s hi) as Hs.
  unfold consumed. rewrite length_firstn, length_skipn. lia.
Qed.

End Groups.

(* ------------------------------------------------------------------ *)
(** ** The task-reference resolver *)

Section References.

Lemma id_patterns_capture (pattern : regex) :
  In pattern id_patterns -> always_captures 1 pattern = true.
Proof.
  intros [<-|[<-|[<-|[]]]]; reflexivity.
Qed.

Lemma id_patterns_demand_digit (pattern : regex) :
  In pattern id_patterns -> demands_digit pattern = true.
Proof.
  intros [<-|[<-|[<-|[]]]]; reflexivity.
Qed.

Lemma int_cases (g : str) :
  int g = if (List.length g <=? 4300)%nat then Ok (decimal g)
          else Raise ValueError.
Proof.
  unfold int, max_str_digits.
  destruct (Nat.ltb_spec 4300 (List.length g)) as [H|H];
    destruct (Nat.leb_spec (List.length g) 4300) as [H'|H'];
    try reflexivity; exfalso; lia.
Qed.

Lemma reference_of_int (m : Match) :
  rbind (int (captured 1 m)) (fun n => Ok (Some n)) = reference_of m.
Proof.
  unfold reference_of. rewrite int_cases.
  destruct (List.length (captured 1 m) <=? 4300)%nat; reflexivity.
Qed.

Lemma first_reference_first_match (patterns : list regex) (text : str) :
  (forall pattern, In pattern patterns -> always_captures 1 pattern = true) ->
  first_reference patterns text =
  match first_match patterns text with
  | Some m => reference_of m
  | None => Ok None
  end.
Proof.
  induction patterns as [|pattern rest IH]; intros H; simpl; [reflexivity|].
  destruct (search true pattern text) as [m|] eqn:E.
  - destruct (search_from_captures true 1 pattern
                (H pattern (or_introl eq_refl)) text 0 E) as [g Hg].
    rewrite <- reference_of_int. unfold captured. rewrite Hg. reflexivity.
  - apply IH. intros p Hp. apply H. right. exact Hp.
Qed.

Lemma reference_of_not_absent (m : Match) : reference_of m <> Ok None.
Proof.
  unfold reference_of.
  destruct (List.length (captured 1 m) <=? 4300)%nat; discriminate.
Qed.

Lemma first_match_no_digit (patterns : list regex) (text : str) :
  (forall pattern, In pattern patterns -> demands_digit pattern = true) ->
  ~ has_digit text -> first_match patterns text = None.
Proof.
  induction patterns as [|pattern rest IH]; intros H Hd; simpl; [reflexivity|].
  unfold search.
  rewrite (search_from_no_digit true pattern (H pattern (or_introl eq_refl))
             0 Hd).
  apply IH; [|exact Hd]. intros p Hp. apply H. right. exact Hp.
Qed.

Lemma first_match_digits (text : str) :
  has_digit text -> first_match id_patterns text <> None.
Proof.
  intros Hd H.
  pose proof (search_from_digits true 1 0 Hd) as Hs.
  unfold id_patterns in H. cbn [first_match] in H. unfold search in H.
  destruct (search_from true _ 0 text); [discriminate|].
  destruct (search_from true _ 0 text); [discriminate|].
  destruct (search_from true (Grp 1 (plus Digit)) 0 text);
    [discriminate | apply Hs; reflexivity].
Qed.

Lemma extract_task_reference_cases (text : str) :
  _extract_task_reference text =
  match first_match id_patterns text with
  | Some m => reference_of m
  | None => Ok None
  end.
Proof. apply first_reference_first_match, id_patterns_capture. Qed.

(** C9.  The resolver tries [task\s*#?(\d+)], then [#(\d+)], then a bare
    [(\d+)], each case-insensitively and at its leftmost match, and the first
    of them that matches decides: the result is the integer of the digits it
    captured when these are at most 4300, and a [ValueError] when they are
    more; it is nothing exactly when the utterance contains no digit;
    "delete task #7" gives 7 and "remove item" gives nothing. *)
Theorem extract_task_reference_first_pattern (utterance : str) :
  _extract_task_reference utterance =
    match first_match numeric_patterns utterance with
    | Some m =>
        if (List.length (captured 1 m) <=? 4300)%nat
        then Ok (Some (decimal (captured 1 m)))
        else Raise ValueError
    | None => Ok None
    end /\
  (_extract_task_reference utterance = Ok None <-> ~ has_digit utterance) /\
  _extract_task_reference (lit "delete task #7") = Ok (Some 7%Z) /\
  _extract_task_reference (lit "remove item") = Ok None.
Proof.
  pose proof (extract_task_reference_cases utterance) as E.
  split; [exact E|]. split; [|split; vm_compute; reflexivity].
  rewrite E. split.
  - intros H Hd. apply (first_match_digits Hd).
    destruct (first_match id_patterns utterance) as [m|]; [|reflexivity].
    exfalso. exact (@reference_of_not_absent m H).
  - intros Hd.
    rewrite (first_match_no_digit id_patterns id_patterns_demand_digit Hd).
    reflexivity.
Qed.

(** C9, the claim as worded: a run of 4301 digits after "task" is matched by
    the first pattern, and no integer is returned. *)
Lemma long_reference_raises :
  (exists m, first_match numeric_patterns long_reference = Some m /\
             captured 1 m = repeat "1"%char 4301) /\
  _extract_task_reference long_reference = Raise ValueError.
Proof.
  split; [eexists; split; vm_compute; reflexivity | vm_compute; reflexivity].
Qed.

End References.

(* ------------------------------------------------------------------ *)
(** ** Marking a task complete *)

Section Store.

Lemma update_task_unfold (task_id : Z) (a b c d e : option str) (w : World) :
  TaskDatabase.update_task task_id a b c d e w =
  if TaskDatabase.fits_int64 task_id
  then (Ok (0 <? List.length (filter (fun t => Z.eqb (id t) task_id)
                                     (tasks w))),
        mkWorld (clock w) (S (reads w))
                (map (fun t =>
                        if Z.eqb (id t) task_id
                        then TaskDatabase.set_columns
                               a b c d e (isoformat (clock w (reads w))) t
                        else t) (tasks w)))
  else (Raise OverflowError, tick w).
Proof.
  unfold TaskDatabase.update_task, TaskDatabase.bind_int, bind, lift,
    datetime_now, tick.
  destruct (TaskDatabase.fits_int64 task_id); reflexivity.
Qed.

Lemma mark_task_complete_unfold (task_id : Z) (w : World) :
  mark_task_complete task_id w =
  if TaskDatabase.fits_int64 task_id
  then (Ok (0 <? List.length (filter (fun t => Z.eqb (id t) task_id)
                                     (tasks w))),
        mkWorld (clock w) (S (reads w))
                (map (fun t =>
                        if Z.eqb (id t) task_id
                        then TaskDatabase.set_columns
                               None None None None (Some (lit "completed"))
                               (isoformat (clock w (reads w))) t
                        else t) (tasks w)))
  else (Raise OverflowError, tick w).
Proof. apply update_task_unfold. Qed.

Lemma rowcount_positive (task_id : Z) (rows : list Task) :
  (0 <? List.length (filter (fun t => Z.eqb (id t) task_id) rows)) = true <->
  exists t, In t rows /\ id t = task_id.
Proof.
  rewrite Nat.ltb_lt. split.
  - destruct (filter _ rows) as [|t l] eqn:E; [simpl; lia|]. intros _.
    assert (H : In t (filter (fun t => Z.eqb (id t) task_id) rows))
      by (rewrite E; left; reflexivity).
    apply filter_In in H. destruct H as [Hin Hid].
    exists t. split; [exact Hin | apply Z.eqb_eq; exact Hid].
  - intros [t [Hin Hid]].
    assert (H : In t (filter (fun t => Z.eqb (id t) task_id) rows)).
    { apply filter_In. split; [exact Hin | apply Z.eqb_eq; exact Hid]. }
    destruct (filter _ rows); [destruct H | simpl; lia].
Qed.

Lemma stored_id_fits (w : World) (t : Task) :
  stored_ids w -> In t (tasks w) -> TaskDatabase.fits_int64 (id t) = true.
Proof.
  unfold stored_ids. rewrite Forall_forall. intros H Hin. apply H, Hin.
Qed.

(** C10.  On a table of 64-bit ids (the ids SQLite stores), for every row
    and every id passed: marking a task complete returns true exactly when
    the table has a row with that id; it returns true or false for an id
    that fits 64 bits, and for any other [sqlite3] raises [OverflowError];
    the table keeps its rows in place; a row with another id is unchanged,
    and in a row with that id only [status] (now "completed") and
    [updated_at] (now the time of the call) change: id, title, description,
    due date, priority and creation time are as before. *)
Theorem mark_task_complete_frame (w : World) (task_id : Z) (i : nat)
        (t : Task) :
  stored_ids w ->
  nth_error (tasks w) i = Some t ->
  let out := mark_task_complete task_id w in
  (fst out = Ok true <-> exists t0, In t0 (tasks w) /\ id t0 = task_id) /\
  (TaskDatabase.fits_int64 task_id = true ->
   fst out = Ok true \/ fst out = Ok false) /\
  (TaskDatabase.fits_int64 task_id = false -> fst out = Raise OverflowError) /\
  List.length (tasks (snd out)) = List.length (tasks w) /\
  exists t', nth_error (tasks (snd out)) i = Some t' /\
    id t' = id t /\ title t' = title t /\ description t' = description t /\
    due_date t' = due_date t /\ priority t' = priority t /\
    created_at t' = created_at t /\
    (id t <> task_id -> t' = t) /\
    (id t = task_id ->
     status t' = Some (lit "completed") /\
     updated_at t' = Some (isoformat (clock w (reads w)))).
Proof.
  intros Hw Hi out. subst out. rewrite mark_task_complete_unfold.
  destruct (TaskDatabase.fits_int64 task_id) eqn:F; cbn [fst snd tasks tick].
  - split; [|split; [|split; [|split]]].
    + rewrite <- rowcount_positive. split; [intros [= ->]|intros ->];
        reflexivity.
    + intros _.
      destruct (0 <? List.length (filter (fun t0 => Z.eqb (id t0) task_id)
                                         (tasks w)))%nat; [left|right];
        reflexivity.
    + discriminate.
    + apply length_map.
    + rewrite nth_error_map, Hi. cbn [option_map].
      eexists. split; [reflexivity|].
      destruct (Z.eqb (id t) task_id) eqn:E.
      * apply Z.eqb_eq in E. cbn.
        do 6 (split; [reflexivity|]). split; [intros H; contradiction|].
        intros _. split; reflexivity.
      * apply Z.eqb_neq in E.
        do 6 (split; [reflexivity|]). split; [reflexivity|].
        intros H. contradiction.
  - assert (N : forall t0, In t0 (tasks w) -> id t0 <> task_id).
    { intros t0 Hin E. rewrite <- E, (@stored_id_fits w t0 Hw Hin) in F.
      discriminate. }
    split; [|split; [|split; [|split]]].
    + split; [discriminate|]. intros [t0 [Hin E]]. exfalso.
      exact (N t0 Hin E).
    + discriminate.
    + reflexivity.
    + reflexivity.
    + exists t. split; [exact Hi|].
      do 6 (split; [reflexivity|]). split; [reflexivity|].
      intros E. exfalso. exact (N t (nth_error_In _ _ Hi) E).
Qed.

Lemma mark_task_complete_frame_witness :
  stored_ids sample_world /\
  nth_error (tasks sample_world) 1 = Some sample_task /\
  fst (mark_task_complete 7 sample_world) = Ok true /\
  exists t', nth_error (tasks (snd (mark_task_complete 7 sample_world))) 1 =
             Some t' /\
             title t' = lit "call mom" /\
             status t' = Some (lit "completed") /\
             updated_at t' = Some (lit "2024-01-01T10:00:00").
Proof.
  assert (Hw : stored_ids sample_world) by (repeat constructor).
  split; [exact Hw|]. split; [reflexivity|].
  destruct (@mark_task_complete_frame sample_world 7 1 sample_task Hw eq_refl)
    as (Hb & _ & _ & _ & t' & Hn & _ & Ht & _ & _ & _ & _ & _ & Hs).
  destruct (Hs eq_refl) as [Hst Hup].
  split.
  - apply Hb. exists sample_task. split; [right; left|]; reflexivity.
  - exists t'. split; [exact Hn|]. split; [exact Ht|]. split; [exact Hst|].
    exact Hup.
Defined.

End Store.

(* ------------------------------------------------------------------ *)
(** ** Calendar arithmetic *)

Section Calendar.

Local Open Scope Z_scope.


Lemma one_day : timedelta 1 0 0 = Ok us_per_day.
Proof. reflexivity. Qed.

(** Adding one day moves the calendar day by one and keeps the time of day,
    when there is a next day. *)
Lemma add_one_day_cases (d : datetime) :
  valid d ->
  add d us_per_day =
  if ordinal d + 1 <=? MAXORDINAL
  then Ok (mkDatetime (ordinal d + 1) (hour d) (minute d) (second d)
                      (microsecond d))
  else Raise OverflowError.
Proof.
  intros (Ho & Hh & Hm & Hs & Hu). unfold add, to_us.
  set (secs := hour d * 3600 + minute d * 60 + second d).
  set (tod := secs * us_per_second + microsecond d).
  assert (Hsecs : 0 <= secs < 86400) by (unfold secs; lia).
  assert (Htod : 0 <= tod < us_per_day)
    by (unfold tod, us_per_day, us_per_second; lia).
  replace ((ordinal d * 86400 + hour d * 3600 + minute d * 60 + second d)
           * us_per_second + microsecond d + us_per_day)
    with ((ordinal d + 1) * us_per_day + tod)
    by (unfold tod, secs, us_per_day; ring).
  assert (Ed : ((ordinal d + 1) * us_per_day + tod) / us_per_day
               = ordinal d + 1).
  { symmetry. apply Z.div_unique with (r := tod); [left; exact Htod | ring]. }
  assert (Er : ((ordinal d + 1) * us_per_day + tod) mod us_per_day = tod).
  { symmetry. apply Z.mod_unique with (q := ordinal d + 1);
      [left; exact Htod | ring]. }
  rewrite Ed, Er.
  assert (Es : tod / us_per_second = secs).
  { symmetry. apply Z.div_unique with (r := microsecond d);
      [left; unfold us_per_second; lia | unfold tod; ring]. }
  assert (Eu : tod mod us_per_second = microsecond d).
  { symmetry. apply Z.mod_unique with (q := secs);
      [left; unfold us_per_second; lia | unfold tod; ring]. }
  rewrite Es, Eu.
  assert (E1 : secs / 3600 = hour d).
  { symmetry. apply Z.div_unique with (r := minute d * 60 + second d);
      [left; lia | unfold secs; ring]. }
  assert (E2 : secs mod 3600 = minute d * 60 + second d).
  { symmetry. apply Z.mod_unique with (q := hour d);
      [left; lia | unfold secs; ring]. }
  assert (E3 : (minute d * 60 + second d) / 60 = minute d).
  { symmetry. apply Z.div_unique with (r := second d); [left; lia | ring]. }
  assert (E4 : secs mod 60 = second d).
  { symmetry. apply Z.mod_unique with (q := hour d * 60 + minute d);
      [left; lia | unfold secs; ring]. }
  rewrite E1, E2, E3, E4.
  destruct (Z.ltb_spec 0 (ordinal d + 1)); [|lia].
  reflexivity.
Qed.

Lemma add_one_day (d : datetime) :
  valid d -> ordinal d < MAXORDINAL ->
  add d us_per_day =
  Ok (mkDatetime (ordinal d + 1) (hour d) (minute d) (second d)
                 (microsecond d)).
Proof.
  intros Hv Hmax. rewrite (add_one_day_cases Hv).
  destruct (Z.leb_spec (ordinal d + 1) MAXORDINAL); [reflexivity | lia].
Qed.

(** The last day has no next day. *)
Lemma add_last_day (d : datetime) :
  valid d -> ordinal d = MAXORDINAL ->
  add d us_per_day = Raise OverflowError.
Proof.
  intros Hv Hmax. rewrite (add_one_day_cases Hv).
  destruct (Z.leb_spec (ordinal d + 1) MAXORDINAL); [lia | reflexivity].
Qed.

End Calendar.

(* ------------------------------------------------------------------ *)
(** ** Resolution of "tomorrow", "today" and clock times *)

(** Closed range conditions are settled by evaluation. *)
Ltac by_evaluation :=
  unfold valid; repeat split; vm_compute; (reflexivity || discriminate).

Section Resolution.

Local Open Scope Z_scope.

Lemma new_year_10am_valid : valid new_year_10am.
Proof. by_evaluation. Qed.

Lemma parse_tomorrow_steps (now : datetime) :
  _parse_time_expression (lit "tomorrow") now =
  rbind (timedelta 1 0 0) (fun one_day =>
  rbind (add now one_day) (fun tomorrow =>
  rbind (replace tomorrow 9 0 0 0) (fun r => Ok (Some (isoformat r))))).
Proof. reflexivity. Qed.

Lemma parse_today_steps (now : datetime) :
  _parse_time_expression (lit "today") now =
  rbind (replace now 18 0 0 0) (fun r => Ok (Some (isoformat r))).
Proof. reflexivity. Qed.

Lemma by_tomorrow_match :
  search false by_pattern (lit "finish report by tomorrow") =
  Some (mkMatch 14 (lit "by tomorrow") [(1%nat, lit "tomorrow")]).
Proof. vm_compute. reflexivity. Qed.

Lemma by_tomorrow_resolution (now : datetime) :
  extract_due_date_at now (lit "finish report by tomorrow") =
  _parse_time_expression (lit "tomorrow") now.
Proof.
  unfold extract_due_date_at. rewrite by_tomorrow_match. reflexivity.
Qed.

(** C7.  "today" resolves, at every reference time [now], to [now]'s own day
    at 18:00:00, also when 18:00 is not after [now].  "tomorrow" resolves to
    the day after [now]'s at 09:00:00 whatever [now]'s time of day when
    [now]'s day has a next day, and "finish report by tomorrow" resolves the
    same way; on the last day, 9999-12-31, both raise [OverflowError]. *)
Theorem tomorrow_and_today_resolution (now : datetime) :
  _parse_time_expression (lit "today") now =
    Ok (Some (isoformat (mkDatetime (ordinal now) 18 0 0 0))) /\
  (valid now -> ordinal now < MAXORDINAL ->
   _parse_time_expression (lit "tomorrow") now =
     Ok (Some (isoformat (mkDatetime (ordinal now + 1) 9 0 0 0))) /\
   extract_due_date_at now (lit "finish report by tomorrow") =
     Ok (Some (isoformat (mkDatetime (ordinal now + 1) 9 0 0 0)))) /\
  (valid now -> ordinal now = MAXORDINAL ->
   _parse_time_expression (lit "tomorrow") now = Raise OverflowError /\
   extract_due_date_at now (lit "finish report by tomorrow") =
     Raise OverflowError).
Proof.
  split; [|split].
  - rewrite parse_today_steps. reflexivity.
  - intros Hv Hmax. rewrite by_tomorrow_resolution.
    assert (E : _parse_time_expression (lit "tomorrow") now =
                Ok (Some (isoformat (mkDatetime (ordinal now + 1) 9 0 0 0)))).
    { rewrite parse_tomorrow_steps, one_day. cbn [rbind].
      rewrite (add_one_day Hv Hmax). reflexivity. }
    split; exact E.
  - intros Hv Hmax. rewrite by_tomorrow_resolution.
    assert (E : _parse_time_expression (lit "tomorrow") now =
                Raise OverflowError).
    { rewrite parse_tomorrow_steps, one_day. cbn [rbind].
      rewrite (add_last_day Hv Hmax). reflexivity. }
    split; exact E.
Qed.

(** At 2024-01-01T19:30:00 "today" is still 2024-01-01T18:00:00 and
    "tomorrow" is 2024-01-02T09:00:00. *)
Lemma tomorrow_and_today_resolution_witness :
  valid new_year_evening /\ ordinal new_year_evening < MAXORDINAL /\
  _parse_time_expression (lit "tomorrow") new_year_evening =
    Ok (Some (lit "2024-01-02T09:00:00")) /\
  _parse_time_expression (lit "today") new_year_evening =
    Ok (Some (lit "2024-01-01T18:00:00")).
Proof.
  assert (Hv : valid new_year_evening) by by_evaluation.
  assert (Hm : ordinal new_year_evening < MAXORDINAL) by by_evaluation.
  destruct (tomorrow_and_today_resolution new_year_evening) as (H2 & H1 & _).
  destruct (H1 Hv Hm) as (H1' & _).
  split; [exact Hv|]. split; [exact Hm|]. split.
  - rewrite H1'. vm_compute. reflexivity.
  - rewrite H2. vm_compute. reflexivity.
Defined.

(** C7, as stated for every reference time, fails on the last day: at
    9999-12-31T19:30:00 there is no "now plus one day", and "tomorrow" raises
    [OverflowError] instead of resolving; "today" still resolves. *)
Lemma tomorrow_on_the_last_day :
  valid last_evening /\
  isoformat last_evening = lit "9999-12-31T19:30:00" /\
  _parse_time_expression (lit "tomorrow") last_evening = Raise OverflowError /\
  extract_due_date_at last_evening (lit "finish report by tomorrow") =
    Raise OverflowError /\
  _parse_time_expression (lit "today") last_evening =
    Ok (Some (lit "9999-12-31T18:00:00")).
Proof.
  split; [by_evaluation|]. repeat split; vm_compute; reflexivity.
Qed.

End Resolution.

Section ClockTimes.

Local Open Scope Z_scope.

Lemma digit_is_not (c x : ascii) :
  isdigit c = true -> isdigit x = false -> eqb_char c x = false.
Proof.
  intros Hc Hx. destruct (eqb_char c x) eqn:E; [|reflexivity].
  apply eqb_char_eq in E. subst x. congruence.
Qed.

Lemma time_pattern_starts_with_digit (s : str) (m : Match) :
  re_match false time_pattern s = Some m ->
  exists c rest, s = c :: rest /\ isdigit c = true.
Proof.
  unfold re_match, match_here. destruct s as [|c rest].
  - vm_compute. discriminate.
  - destruct (isdigit c) eqn:E.
    + intros _. exists c, rest. split; [reflexivity | exact E].
    + unfold time_pattern. cbn [seqs run range span in_class option_map].
      rewrite E. cbn. discriminate.
Qed.

Lemma clock_is_no_keyword (s : str) (m : Match) :
  re_match false time_pattern s = Some m ->
  Str.eqb s (lit "tomorrow") = false /\ Str.eqb s (lit "today") = false /\
  Str.eqb s (lit "noon") = false /\ Str.eqb s (lit "midnight") = false.
Proof.
  intros H. destruct (time_pattern_starts_with_digit _ H) as (c & rest & -> & Hc).
  repeat split; cbn [lit list_ascii_of_string Str.eqb];
    rewrite (@digit_is_not c _ Hc) by reflexivity; reflexivity.
Qed.

Lemma period_hour (h : Z) (period : option str) :
  (if period_is period "pm" && negb (h =? 12) then h + 12
   else if period_is period "am" && (h =? 12) then 0 else h)
  = hour24 h period.
Proof.
  unfold period_is, hour24. destruct period as [p|]; [|reflexivity].
  destruct (Str.eqb p (lit "pm")) eqn:Epm.
  - apply str_eqb_eq in Epm. subst p.
    change (Str.eqb (lit "pm") (lit "am")) with false.
    destruct (h =? 12); reflexivity.
  - destruct (Str.eqb p (lit "am")); destruct (h =? 12); reflexivity.
Qed.

Lemma int_short (g : str) :
  (List.length g <= 4300)%nat -> int g = Ok (decimal g).
Proof.
  intros H. rewrite int_cases.
  destruct (Nat.leb_spec (List.length g) 4300); [reflexivity | exfalso; lia].
Qed.

(** The groups of the time pattern hold at most two characters each. *)
Lemma time_pattern_groups :
  groups_sat false (fun _ g => (List.length g <= 2)%nat) time_pattern.
Proof.
  unfold time_pattern, L, star, range. cbn [seqs groups_sat]. repeat split.
  - intros s c rest H. apply (run_rep_consumed _ _ _ _ _ _ _ _ H).
  - intros s c rest H. apply (run_rep_consumed _ _ _ _ _ _ _ _ H).
  - intros s c rest H. rewrite run_alt_app, in_app_iff in H.
    destruct H as [H|H]; rewrite (run_lit_consumed _ s c rest H);
      simpl; lia.
Qed.

Lemma time_group_short (s : str) (m : Match) (n : nat) (g : str) :
  re_match false time_pattern s = Some m -> group n m = Some g ->
  (List.length g <= 4300)%nat.
Proof.
  intros Hm Hg.
  pose proof (@match_here_group_sat false _ time_pattern 0 s m n g
                time_pattern_groups Hm Hg) as H.
  cbn beta in H. lia.
Qed.

Lemma group_int_hour (s : str) (m : Match) (h : str) :
  re_match false time_pattern s = Some m -> group 1 m = Some h ->
  group_int 1 m = Ok (decimal h).
Proof.
  intros Hm Hg. unfold group_int. rewrite Hg.
  apply int_short, (@time_group_short s m 1%nat h Hm Hg).
Qed.

Lemma group_int_or_0_minute (s : str) (m : Match) :
  re_match false time_pattern s = Some m ->
  group_int_or_0 2 m = Ok (minute_of (group 2 m)).
Proof.
  intros Hm. unfold group_int_or_0, minute_of.
  destruct (group 2 m) as [g|] eqn:Hg; [|reflexivity].
  rewrite (@int_short g (@time_group_short s m 2%nat g Hm Hg)).
  destruct g; reflexivity.
Qed.






End ClockTimes.

(* ------------------------------------------------------------------ *)
(** ** Worked examples *)

Section Examples.

Example call_mom_at_3pm :
  extract_due_date_at new_year_10am (lit "remind me to call mom at 3 pm") =
  Ok (Some (lit "2024-01-01T15:00:00")).
Proof. vm_compute. reflexivity. Qed.

Example ping_me_in_2_hours :
  extract_due_date_at new_year_10am (lit "ping me in 2 hours") =
  Ok (Some (lit "2024-01-01T12:00:00")).
Proof. vm_compute. reflexivity. Qed.

Example standup_at_9_rolls_over :
  extract_due_date_at new_year_10am (lit "standup at 9") =
  Ok (Some (lit "2024-01-02T09:00:00")).
Proof. vm_compute. reflexivity. Qed.

Example by_comes_before_at :
  extract_due_date_at new_year_10am (lit "meet at 4 pm, slides by 2 pm") =
  Ok (Some (lit "2024-01-01T14:00:00")).
Proof. vm_compute. reflexivity. Qed.

Example no_date_no_default :
  extract_due_date_at new_year_10am (lit "buy milk") = Ok None.
Proof. vm_compute. reflexivity. Qed.

Example parse_call_mom :
  fst (parse_natural_language (lit "Remind me to call mom at 3 PM, urgent")
                              morning_world) =
  Ok (mkParsed (lit "Remind me to call mom, urgent")
               (Some (lit "2024-01-01T15:00:00")) (lit "high")
               (lit "call mom")).
Proof. vm_compute. reflexivity. Qed.

End Examples.

(* ------------------------------------------------------------------ *)
(** ** Digits that are no time of day *)

Section OutOfRange.

(** C1.  The parse of "call mom at 25" does not return a record: the hour 25
    reaches [datetime.replace], which raises [ValueError]; so does the minute
    75 of "call mom at 5:75", and the hour 13 + 12 of "pay rent by 13 pm";
    "remind me in 9999999999 days" raises [OverflowError] in [timedelta].
    This holds whatever the wall clock shows. *)
Theorem parse_raises_on_out_of_range_clock (w : World) :
  fst (parse_natural_language (lit "call mom at 25") w) = Raise ValueError /\
  fst (parse_natural_language (lit "call mom at 5:75") w) = Raise ValueError /\
  fst (parse_natural_language (lit "pay rent by 13 pm") w) = Raise ValueError /\
  fst (parse_natural_language (lit "remind me in 9999999999 days") w) =
    Raise OverflowError.
Proof.
  repeat split; vm_compute; reflexivity.
Qed.

End OutOfRange.

(* ------------------------------------------------------------------ *)
(** ** The order of the three expression families *)

Section DueDateOrder.

Lemma group_strip_captured (r : regex) (text : str) (m : Match) :
  always_captures 1 r = true ->
  search false r text = Some m ->
  group_strip 1 m = Ok (strip (captured 1 m)).
Proof.
  intros D H. destruct (@search_from_captures false 1 r D text 0 m H) as [g Hg].
  unfold group_strip, captured. rewrite Hg. reflexivity.
Qed.

Lemma extract_due_date_at_order (now : datetime) (text : str) :
  first_matching_family now text (extract_due_date_at now text).
Proof.
  unfold extract_due_date_at.
  destruct (search false by_pattern text) as [m|] eqn:Eby.
  { rewrite (@group_strip_captured by_pattern text m eq_refl Eby). cbn [rbind].
    apply (@by_decides now text m Eby). }
  destruct (search false at_pattern text) as [m|] eqn:Eat.
  { rewrite (@group_strip_captured at_pattern text m eq_refl Eat). cbn [rbind].
    apply (@at_decides now text m Eby Eat). }
  destruct (search false relative_pattern text) as [m|] eqn:Ein.
  { destruct (@search_from_captures false 1 relative_pattern eq_refl text 0 m Ein)
      as [g1 Hg1].
    destruct (@search_from_captures false 2 relative_pattern eq_refl text 0 m Ein)
      as [g2 Hg2].
    pose proof (@in_decides now text m Eby Eat Ein) as H.
    unfold resolve_relative, captured in H. rewrite Hg1, Hg2 in H.
    unfold group_int. rewrite Hg1, Hg2. cbn [rbind]. exact H. }
  apply (@none_matches now text Eby Eat Ein).
Qed.

(** C2, as the program has it.  Due-date extraction reads the clock once and
    tests the patterns of the three families in the order "by", "at", "in"; the
    first family whose pattern matches the text decides the result, which is
    the resolution of that match, and the later families are not consulted;
    when no pattern matches the result is absent. *)
Theorem extract_due_date_first_matching_family (text : str) (w : World) :
  first_matching_family (clock w (reads w)) text
                        (fst (_extract_due_date text w)).
Proof.
  rewrite extract_due_date_reads_clock. cbn [fst].
  apply extract_due_date_at_order.
Qed.

(** C2, as stated, fails: in "submit by next friday at 5 pm" the "by" pattern
    matches "next friday", which resolves to nothing, and the extraction
    returns nothing although the "at" family would give 17:00. *)
Lemma by_next_word_shadows_at :
  fst (_extract_due_date (lit "submit by next friday at 5 pm") morning_world)
    = Ok None /\
  at_family new_year_10am (lit "submit by next friday at 5 pm")
    = Ok (Some (lit "2024-01-01T17:00:00")) /\
  first_success new_year_10am (lit "submit by next friday at 5 pm")
    = Ok (Some (lit "2024-01-01T17:00:00")) /\
  fst (_extract_due_date (lit "submit by next friday at 5 pm") morning_world)
    <> first_success (clock morning_world (reads morning_world))
                     (lit "submit by next friday at 5 pm").
Proof.
  repeat split; vm_compute; (reflexivity || discriminate).
Qed.

End DueDateOrder.

(* ------------------------------------------------------------------ *)
(** ** The title *)

Section Titles.

Lemma lstrip_keeps_last (a : str) (c : ascii) :
  isspace c = false -> exists a', lstrip (a ++ [c]) = a' ++ [c].
Proof.
  intros H. induction a as [|x a IH]; simpl.
  - rewrite H. exists []. reflexivity.
  - destruct (isspace x); [exact IH|]. exists (x :: a). reflexivity.
Qed.

(** Trimming a text that begins with a visible character keeps that
    character in front. *)
Lemma strip_keeps_head (c : ascii) (s : str) :
  isspace c = false -> exists t, strip (c :: s) = c :: t.
Proof.
  intros H. unfold strip, rstrip. cbn [lstrip]. rewrite H. cbn [rev].
  destruct (@lstrip_keeps_last (rev s) c H) as [a' ->].
  exists (rev a'). rewrite rev_app_distr. reflexivity.
Qed.

(** A pattern that begins with [\s+] cannot match at a visible character. *)
Lemma run_space_led (r : regex) (c : ascii) (s : str) :
  isspace c = false -> run true (Seq (plus Space) r) (c :: s) = [].
Proof.
  intros H. cbn [run plus span in_class]. rewrite H. reflexivity.
Qed.

Lemma sub_keeps_head (r : regex) (c : ascii) (s : str) :
  isspace c = false ->
  sub true (Seq (plus Space) r) (c :: s) = c :: sub true (Seq (plus Space) r) s.
Proof.
  intros H. unfold sub. cbn [sub_from]. unfold match_here.
  rewrite (@run_space_led r c s H). reflexivity.
Qed.

Lemma patterns_to_remove_space_led :
  Forall (fun p => exists r, p = Seq (plus Space) r) patterns_to_remove.
Proof.
  unfold patterns_to_remove.
  repeat (constructor; [eexists; reflexivity|]). constructor.
Qed.

Lemma removal_keeps_head (patterns : list regex) (c : ascii) :
  isspace c = false ->
  Forall (fun p => exists r, p = Seq (plus Space) r) patterns ->
  forall s, exists t,
    fold_left (fun cleaned pattern => sub true pattern cleaned) patterns
              (c :: s) = c :: t.
Proof.
  intros H F. induction F as [|p ps [r ->] _ IH]; intros s; simpl.
  - exists s. reflexivity.
  - rewrite (@sub_keeps_head r c s H). apply IH.
Qed.

Lemma clean_title_keeps_head (c : ascii) (s d : str) :
  isspace c = false ->
  exists t, _clean_title_from_date (c :: s) d = c :: t.
Proof.
  intros H. unfold _clean_title_from_date.
  destruct (@removal_keeps_head patterns_to_remove c H patterns_to_remove_space_led s) as [t ->].
  apply strip_keeps_head. exact H.
Qed.

End Titles.

(* ------------------------------------------------------------------ *)
(** ** The parse and the wall clock *)

Section WallClock.

(** C6, as the program has it.  A parse reads the wall clock exactly once and
    touches nothing else; its outcome (the record, or the exception) is
    determined by the utterance and that one reading: two runs on the same
    utterance whose reading is the same moment agree. *)
Theorem parse_determined_by_utterance_and_reading (utterance : str)
        (w1 w2 : World) :
  clock w1 (reads w1) = clock w2 (reads w2) ->
  fst (parse_natural_language utterance w1) =
  fst (parse_natural_language utterance w2) /\
  reads (snd (parse_natural_language utterance w1)) = S (reads w1) /\
  clock (snd (parse_natural_language utterance w1)) = clock w1 /\
  tasks (snd (parse_natural_language utterance w1)) = tasks w1.
Proof.
  intros H. rewrite !parse_natural_language_unfold. cbn [fst snd].
  rewrite H. repeat split.
Qed.

Lemma parse_determined_by_utterance_and_reading_witness :
  clock morning_world (reads morning_world) =
  clock later_world (reads later_world) /\
  fst (parse_natural_language (lit "ping me in 2 hours") morning_world) =
  fst (parse_natural_language (lit "ping me in 2 hours") later_world).
Proof.
  split; [reflexivity|].
  apply (@parse_determined_by_utterance_and_reading
           (lit "ping me in 2 hours") morning_world later_world eq_refl).
Defined.

(** C6, as stated, fails: the parse has the utterance as its only argument and
    reads the wall clock itself, so two runs on the same utterance an hour
    apart give different records. *)
Lemma parse_reads_wall_clock :
  fst (parse_natural_language (lit "ping me in 2 hours") morning_world) =
    Ok (mkParsed (lit "ping me") (Some (lit "2024-01-01T12:00:00"))
                 (lit "medium") []) /\
  fst (parse_natural_language (lit "ping me in 2 hours") hour_later_world) =
    Ok (mkParsed (lit "ping me") (Some (lit "2024-01-01T13:00:00"))
                 (lit "medium") []) /\
  fst (parse_natural_language (lit "ping me in 2 hours") morning_world) <>
  fst (parse_natural_language (lit "ping me in 2 hours") hour_later_world) /\
  reads (snd (parse_natural_language (lit "ping me in 2 hours")
                                     morning_world)) =
  S (reads morning_world).
Proof.
  repeat split; vm_compute; (reflexivity || discriminate).
Qed.

End WallClock.

(* ================================================================== *)
(** * Further properties of the code *)

(* ------------------------------------------------------------------ *)
(** ** Relative times *)

Section RelativeTimes.

Local Open Scope Z_scope.

(** Adding a span that stays within the calendar gives the moment that many
    microseconds later. *)
Lemma add_exact (d : datetime) (delta : Z) :
  valid d -> 0 <= delta ->
  (to_us d + delta) / us_per_day <= MAXORDINAL ->
  exists d', add d delta = Ok d' /\ valid d' /\ to_us d' = to_us d + delta.
Proof.
  intros (Ho & Hh & Hm & Hs & Hu) Hdelta Hmax. unfold add.
  set (total := to_us d + delta) in *.
  assert (Hday : us_per_day = 86400000000) by reflexivity.
  assert (Hsec : us_per_second = 1000000) by reflexivity.
  assert (Htot : us_per_day <= total).
  { unfold total, to_us. rewrite Hday, Hsec. lia. }
  pose proof (Z.div_mod total us_per_day ltac:(rewrite Hday; lia)) as E1.
  pose proof (Z.mod_pos_bound total us_per_day ltac:(rewrite Hday; lia)) as B1.
  set (days := total / us_per_day) in *.
  set (rem := total mod us_per_day) in *.
  pose proof (Z.div_mod rem us_per_second ltac:(rewrite Hsec; lia)) as E2.
  pose proof (Z.mod_pos_bound rem us_per_second ltac:(rewrite Hsec; lia)) as B2.
  set (secs := rem / us_per_second) in *.
  set (us := rem mod us_per_second) in *.
  pose proof (Z.div_mod secs 3600 ltac:(lia)) as E3.
  pose proof (Z.mod_pos_bound secs 3600 ltac:(lia)) as B3.
  pose proof (Z.div_mod (secs mod 3600) 60 ltac:(lia)) as E4.
  pose proof (Z.mod_pos_bound (secs mod 3600) 60 ltac:(lia)) as B4.
  assert (E5 : secs mod 60 = (secs mod 3600) mod 60).
  { symmetry. apply Z.mod_mod_divide. exists 60. reflexivity. }
  assert (Hdays : 1 <= days) by (rewrite Hday in *; nia).
  assert (Hsecs : 0 <= secs < 86400) by (rewrite Hday, Hsec in *; nia).
  destruct (Z.ltb_spec 0 days); [|lia].
  destruct (Z.leb_spec days MAXORDINAL); [|lia].
  cbn [andb]. eexists. split; [reflexivity|]. split.
  - unfold valid. cbn [ordinal hour minute second microsecond].
    rewrite E5. rewrite Hsec in *. repeat split; try lia; nia.
  - unfold to_us. cbn [ordinal hour minute second microsecond].
    rewrite E5. rewrite Hday, Hsec in *. lia.
Qed.

(** The three ways [_calculate_relative_time] builds and adds its span. *)
Lemma span_then_add (now : datetime) (days hours minutes : Z) :
  valid now -> 0 <= days -> 0 <= hours -> 0 <= minutes ->
  let later := to_us now
               + (days * 86400 + hours * 3600 + minutes * 60) * us_per_second in
  let outcome :=
    rbind (rbind (timedelta days hours minutes) (fun d => Ok (Some d)))
          (fun delta =>
             match delta with
             | None => Ok None
             | Some d =>
                 rbind (add now d) (fun r => Ok (Some (isoformat r)))
             end) in
  if later / us_per_day <=? MAXORDINAL
  then exists d, outcome = Ok (Some (isoformat d)) /\ valid d /\ to_us d = later
  else outcome = Raise OverflowError.
Proof.
  intros Hv Hd Hh Hm later outcome. subst outcome. unfold timedelta.
  set (us := (days * 86400 + hours * 3600 + minutes * 60) * us_per_second)
    in *.
  assert (Hus : 0 <= us) by (unfold us, us_per_second; lia).
  assert (Hday : 0 < us_per_day) by reflexivity.
  assert (Hnow : 0 <= to_us now).
  { destruct Hv as (Ho & Hh' & Hm' & Hs & Hu).
    unfold to_us, us_per_second, MAXORDINAL in *. lia. }
  assert (Hle : us / us_per_day <= later / us_per_day).
  { apply Z.div_le_mono; [exact Hday | unfold later; lia]. }
  assert (H0 : 0 <= us / us_per_day) by (apply Z.div_pos; lia).
  rewrite Z.abs_eq by exact H0.
  destruct (Z.leb_spec (later / us_per_day) MAXORDINAL) as [Hin|Hout].
  - destruct (Z.leb_spec (us / us_per_day) 999999999) as [_|Hbig];
      [|unfold MAXORDINAL in Hin; lia].
    cbn [rbind].
    destruct (add_exact Hv Hus Hin) as (d & Ea & Hvd & Et).
    exists d. rewrite Ea. cbn [rbind].
    split; [reflexivity|]. split; [exact Hvd | exact Et].
  - destruct (Z.leb_spec (us / us_per_day) 999999999) as [_|Hbig];
      [|reflexivity].
    cbn [rbind]. unfold add. fold later.
    destruct (Z.leb_spec (later / us_per_day) MAXORDINAL) as [Hin|_]; [lia|].
    rewrite andb_false_r. reflexivity.
Qed.

Lemma calculate_relative_time_cases (amount : Z) (unit : str)
      (now : datetime) :
  valid now -> 0 <= amount ->
  match unit_seconds unit with
  | None => _calculate_relative_time amount unit now = Ok None
  | Some k =>
      let later := to_us now + amount * k * us_per_second in
      if later / us_per_day <=? MAXORDINAL
      then exists d,
          _calculate_relative_time amount unit now = Ok (Some (isoformat d)) /\
          valid d /\ to_us d = later
      else _calculate_relative_time amount unit now = Raise OverflowError
  end.
Proof.
  intros Hv Ha. unfold unit_seconds, _calculate_relative_time.
  destruct (startswith (lit "minute") unit).
  { pose proof (@span_then_add now 0 0 amount Hv ltac:(lia) ltac:(lia) Ha)
      as H. cbv zeta in H |- *.
    replace (to_us now + amount * 60 * us_per_second)
      with (to_us now + (0 * 86400 + 0 * 3600 + amount * 60) * us_per_second)
      by ring. exact H. }
  destruct (startswith (lit "hour") unit).
  { pose proof (@span_then_add now 0 amount 0 Hv ltac:(lia) Ha ltac:(lia))
      as H. cbv zeta in H |- *.
    replace (to_us now + amount * 3600 * us_per_second)
      with (to_us now + (0 * 86400 + amount * 3600 + 0 * 60) * us_per_second)
      by ring. exact H. }
  destruct (startswith (lit "day") unit).
  { pose proof (@span_then_add now amount 0 0 Hv Ha ltac:(lia) ltac:(lia))
      as H. cbv zeta in H |- *.
    replace (to_us now + amount * 86400 * us_per_second)
      with (to_us now + (amount * 86400 + 0 * 3600 + 0 * 60) * us_per_second)
      by ring. exact H. }
  reflexivity.
Qed.

(** X1.  [_calculate_relative_time] adds [amount] minutes, hours or days to the
    reference time exactly, microseconds included, for a unit that begins
    with "minute", "hour" or "day"; it raises [OverflowError] when the result
    lies after the last calendar day, and returns nothing for any other
    unit. *)
Theorem calculate_relative_time_exact (amount : Z) (unit : str)
        (now : datetime) :
  valid now -> 0 <= amount ->
  match unit_seconds unit with
  | None => _calculate_relative_time amount unit now = Ok None
  | Some k =>
      let later := to_us now + amount * k * us_per_second in
      if later / us_per_day <=? MAXORDINAL
      then exists d,
          _calculate_relative_time amount unit now = Ok (Some (isoformat d)) /\
          valid d /\ to_us d = later
      else _calculate_relative_time amount unit now = Raise OverflowError
  end.
Proof. apply calculate_relative_time_cases. Qed.

(** Two hours after 2024-01-01T10:00:00. *)
Lemma calculate_relative_time_exact_witness :
  valid new_year_10am /\ 0 <= 2 /\
  exists d,
    _calculate_relative_time 2 (lit "hours") new_year_10am =
      Ok (Some (isoformat d)) /\
    to_us d = to_us new_year_10am + 2 * 3600 * us_per_second.
Proof.
  split; [exact new_year_10am_valid|]. split; [lia|].
  pose proof (@calculate_relative_time_exact 2 (lit "hours") new_year_10am
                new_year_10am_valid ltac:(lia)) as H.
  change (unit_seconds (lit "hours")) with (Some 3600) in H. cbv zeta in H.
  destruct ((to_us new_year_10am + 2 * 3600 * us_per_second) / us_per_day
              <=? MAXORDINAL) eqn:E; [|vm_compute in E; discriminate E].
  destruct H as (d & H1 & _ & H2). exists d. split; assumption.
Defined.

End RelativeTimes.

(* ------------------------------------------------------------------ *)
(** ** Trimming and deleting *)

Section Trimming.

Lemma subseq_refl (s : str) : subseq s s.
Proof. induction s; constructor; assumption. Qed.

Lemma subseq_nil_l (s : str) : subseq [] s.
Proof. induction s; constructor; assumption. Qed.

Lemma subseq_trans (a b c : str) : subseq a b -> subseq b c -> subseq a c.
Proof.
  intros Hab Hbc. revert a Hab.
  induction Hbc as [|x b c Hbc IH|x b c Hbc IH]; intros a Hab.
  - exact Hab.
  - apply subseq_drop. apply IH. exact Hab.
  - inversion Hab; subst.
    + apply subseq_drop. apply IH. assumption.
    + apply subseq_keep. apply IH. assumption.
Qed.

Lemma subseq_app_l (pre s : str) : subseq s (pre ++ s).
Proof.
  induction pre; simpl; [apply subseq_refl | apply subseq_drop; assumption].
Qed.

Lemma subseq_app_r (s post : str) : subseq s (s ++ post).
Proof.
  induction s; simpl; [apply subseq_nil_l | apply subseq_keep; assumption].
Qed.

Lemma subseq_length (a b : str) :
  subseq a b -> (List.length a <= List.length b)%nat.
Proof. induction 1; simpl; lia. Qed.

Lemma lstrip_suffix (s : str) : exists ws, s = ws ++ lstrip s.
Proof.
  induction s as [|c s [ws IH]]; simpl.
  - exists []. reflexivity.
  - destruct (isspace c).
    + exists (c :: ws). simpl. rewrite <- IH. reflexivity.
    + exists []. reflexivity.
Qed.

Lemma lstrip_head (s : str) (c : ascii) (t : str) :
  lstrip s = c :: t -> isspace c = false.
Proof.
  induction s as [|x s IH]; simpl; [discriminate|].
  destruct (isspace x) eqn:E; [exact IH|].
  intros [= -> _]. exact E.
Qed.

Lemma rstrip_prefix (s : str) : exists ws, s = rstrip s ++ ws.
Proof.
  unfold rstrip. destruct (lstrip_suffix (rev s)) as [ws H].
  exists (rev ws). rewrite <- rev_app_distr, <- H, rev_involutive.
  reflexivity.
Qed.

Lemma rstrip_last (s : str) (c : ascii) (t : str) :
  rstrip s = t ++ [c] -> isspace c = false.
Proof.
  unfold rstrip. intros H.
  apply (f_equal (@rev ascii)) in H.
  rewrite rev_involutive, rev_app_distr in H. simpl in H.
  apply (@lstrip_head (rev s) c (rev t)). exact H.
Qed.

(** What [strip] returns has no white space at either end. *)
Lemma strip_trimmed (s : str) : trimmed (strip s).
Proof.
  unfold trimmed, strip. split.
  - intros c t H.
    destruct (rstrip_prefix (lstrip s)) as [ws Hws].
    rewrite H in Hws. simpl in Hws.
    apply (@lstrip_head s c (t ++ ws)). exact Hws.
  - intros c t H. apply (@rstrip_last (lstrip s) c t). exact H.
Qed.

(** What [strip] returns is a piece of its argument. *)
Lemma strip_occurs (s : str) : occurs (strip s) s.
Proof.
  unfold strip. destruct (lstrip_suffix s) as [ws1 H1].
  destruct (rstrip_prefix (lstrip s)) as [ws2 H2].
  exists ws1, ws2. rewrite <- H2. exact H1.
Qed.

Lemma strip_subseq (s : str) : subseq (strip s) s.
Proof.
  destruct (strip_occurs s) as (pre & post & H).
  rewrite H at 2.
  apply subseq_trans with (b := strip s ++ post);
    [apply subseq_app_r | apply subseq_app_l].
Qed.

Lemma sub_from_subseq (ic : bool) (r : regex) (s : str) :
  forall skip, subseq (sub_from ic r skip s) s.
Proof.
  induction s as [|c s IH]; intros skip; cbn [sub_from].
  - constructor.
  - destruct skip as [|k]; [|apply subseq_drop, IH].
    destruct (match_here ic r 0 (c :: s)) as [m|];
      [|apply subseq_keep, IH].
    destruct (List.length (m_text m));
      [apply subseq_keep, IH | apply subseq_drop, IH].
Qed.

Lemma removal_subseq (patterns : list regex) :
  forall s,
    subseq (fold_left (fun cleaned pattern => sub true pattern cleaned)
                      patterns s) s.
Proof.
  induction patterns as [|p ps IH]; intros s; simpl.
  - apply subseq_refl.
  - apply subseq_trans with (b := sub true p s);
      [apply IH | apply sub_from_subseq].
Qed.

(** X2.  The title of every parse that returns is the utterance with some
    characters deleted, nothing inserted or reordered, and it neither begins
    nor ends with white space. *)
Theorem parse_title_is_trimmed_remainder (utterance : str) (w : World)
        (parsed : ParsedTask) :
  fst (parse_natural_language utterance w) = Ok parsed ->
  subseq (p_title parsed) utterance /\ trimmed (p_title parsed).
Proof.
  rewrite parse_natural_language_unfold. cbn [fst].
  destruct (extract_due_date_at _ _) as [due|]; [|discriminate].
  destruct (_extract_description utterance) as [desc|]; [|discriminate].
  intros [= <-]. cbn [p_title]. unfold title_of, _clean_title_from_date.
  destruct (due_of due) as [d|].
  - split; [|apply strip_trimmed].
    eapply subseq_trans; [apply strip_subseq | apply removal_subseq].
  - split; [apply strip_subseq | apply strip_trimmed].
Qed.

Lemma parse_title_is_trimmed_remainder_witness :
  exists parsed,
    fst (parse_natural_language (lit "  Call mom at 3 PM  ") morning_world)
      = Ok parsed /\
    p_title parsed = lit "Call mom" /\
    subseq (p_title parsed) (lit "  Call mom at 3 PM  ") /\
    trimmed (p_title parsed).
Proof.
  eexists. split; [vm_compute; reflexivity|]. split; [reflexivity|].
  apply (@parse_title_is_trimmed_remainder (lit "  Call mom at 3 PM  ")
                                           morning_world).
  vm_compute. reflexivity.
Defined.

End Trimming.

(* ------------------------------------------------------------------ *)
(** ** The title of a parse *)

Section ParsedTitle.

Lemma date_phrases_removed : patterns_to_remove = date_phrases.
Proof. reflexivity. Qed.

Lemma subseq_forall (P : ascii -> Prop) (a b : str) :
  subseq a b -> Forall P b -> Forall P a.
Proof.
  induction 1 as [|c a b _ IH|c a b _ IH]; intros F.
  - constructor.
  - inversion F; subst. apply IH. assumption.
  - inversion F; subst. constructor; [assumption | apply IH; assumption].
Qed.

Lemma trimmed_spaces_nil (s : str) :
  trimmed s -> Forall (fun c => isspace c = true) s -> s = [].
Proof.
  intros [H _] F. destruct s as [|c t]; [reflexivity|].
  inversion F as [|? ? Hc _]; subst.
  rewrite (H c t eq_refl) in Hc. discriminate Hc.
Qed.

(** C3, as the program has it.  When the parse returns, the title is the raw
    input trimmed if no due date was found; if one was, it is the raw input
    with every match of the seven date phrases deleted, one phrase after the
    other, and then trimmed.  Either way it is the input with characters
    deleted only, without white space at either end.  It is not empty when
    the utterance begins with a character that is not white space, and it is
    empty when the utterance has no other characters than white space. *)
Theorem parse_title (utterance : str) (w : World) (parsed : ParsedTask) :
  fst (parse_natural_language utterance w) = Ok parsed ->
  p_title parsed =
    match p_due_date parsed with
    | None => strip utterance
    | Some _ => strip (delete_phrases date_phrases utterance)
    end /\
  subseq (p_title parsed) utterance /\ trimmed (p_title parsed) /\
  (forall c rest, utterance = c :: rest -> isspace c = false ->
                  p_title parsed <> []) /\
  (Forall (fun c => isspace c = true) utterance -> p_title parsed = []).
Proof.
  rewrite parse_natural_language_unfold. cbn [fst].
  destruct (extract_due_date_at _ _) as [due|]; [|discriminate].
  destruct (_extract_description utterance) as [desc|]; [|discriminate].
  intros [= <-]. cbn [p_due_date p_title]. unfold title_of.
  assert (Hshape : subseq (match due_of due with
                      | Some d => _clean_title_from_date utterance d
                      | None => strip utterance
                      end) utterance /\
              trimmed (match due_of due with
                       | Some d => _clean_title_from_date utterance d
                       | None => strip utterance
                       end)).
  { unfold _clean_title_from_date. destruct (due_of due) as [d|].
    - split; [|apply strip_trimmed].
      eapply subseq_trans; [apply strip_subseq | apply removal_subseq].
    - split; [apply strip_subseq | apply strip_trimmed]. }
  destruct Hshape as [Hsub Htrim].
  split; [|split; [exact Hsub|split; [exact Htrim|split]]].
  - destruct (due_of due); reflexivity.
  - intros c rest -> Hc.
    destruct (due_of due) as [d|].
    + destruct (@clean_title_keeps_head c rest d Hc) as [t ->]. discriminate.
    + destruct (@strip_keeps_head c rest Hc) as [t ->]. discriminate.
  - intros F. apply (trimmed_spaces_nil Htrim).
    apply (subseq_forall Hsub F).
Qed.

Lemma parse_title_witness :
  exists parsed,
    fst (parse_natural_language (lit "Remind me to call mom at 3 PM")
                                morning_world) = Ok parsed /\
    p_due_date parsed = Some (lit "2024-01-01T15:00:00") /\
    p_title parsed = lit "Remind me to call mom" /\
    p_title parsed <> [].
Proof.
  eexists. split; [vm_compute; reflexivity|].
  split; [reflexivity|]. split; [reflexivity|].
  refine (proj1 (proj2 (proj2 (proj2
            (@parse_title (lit "Remind me to call mom at 3 PM")
                          morning_world _ _)))) _ _ eq_refl _).
  - vm_compute. reflexivity.
  - vm_compute. reflexivity.
Defined.

(** C3, as stated, fails: an utterance that is only a date phrase after white
    space has a due date and an empty title, and the empty utterance has an
    empty title. *)
Lemma parse_title_can_be_empty :
  fst (parse_natural_language (lit " at noon") morning_world) =
    Ok (mkParsed [] (Some (lit "2024-01-01T12:00:00")) (lit "medium") []) /\
  fst (parse_natural_language [] morning_world) =
    Ok (mkParsed [] None (lit "medium") []).
Proof.
  split; vm_compute; reflexivity.
Qed.

(** A date phrase that is not led by white space stays in the title. *)
Example date_phrase_kept_in_title :
  fst (parse_natural_language (lit "at 5 call mom") morning_world) =
    Ok (mkParsed (lit "at 5 call mom") (Some (lit "2024-01-02T05:00:00"))
                 (lit "medium") []) /\
  fst (parse_natural_language (lit "standby 5") morning_world) =
    Ok (mkParsed (lit "standby 5") (Some (lit "2024-01-02T05:00:00"))
                 (lit "medium") []).
Proof.
  split; vm_compute; reflexivity.
Qed.

End ParsedTitle.

(* ------------------------------------------------------------------ *)
(** ** The groups of a match are pieces of the text *)

Section Captures.

Variable ic : bool.

Lemma occurs_app_l (g pre s : str) : occurs g s -> occurs g (pre ++ s).
Proof.
  intros (a & b & ->). exists (pre ++ a), b. rewrite app_assoc. reflexivity.
Qed.

Lemma occurs_trans (a b c : str) : occurs a b -> occurs b c -> occurs a c.
Proof.
  intros (p1 & q1 & ->) (p2 & q2 & ->).
  exists (p2 ++ p1), (q1 ++ q2). rewrite <- !app_assoc. reflexivity.
Qed.

(** Every group of a match holds a piece of the input. *)
Lemma run_caps_occur (r : regex) :
  forall s c rest, In (c, rest) (run ic r s) ->
                   Forall (fun e => occurs (snd e) s) c.
Proof.
  induction r as [p|k lo hi g|r1 IH1 r2 IH2|r1 IH1 r2 IH2|r1 IH1|n r1 IH1|];
    intros s c rest; simpl.
  - destruct (lit_match ic p s); [|intros []].
    intros [[= <- _]|[]]. constructor.
  - rewrite in_map_iff. intros [j [[= <- _] _]]. constructor.
  - rewrite in_flat_map. intros [[c1 s1] [H1 H2]].
    rewrite in_map_iff in H2. destruct H2 as [[c2 s2] [[= <- _] H2]].
    cbn [fst snd] in *. apply Forall_app. split; [apply (IH1 _ _ _ H1)|].
    destruct (run_suffix ic r1 s c1 s1 H1) as [pre ->].
    eapply Forall_impl; [|apply (IH2 _ _ _ H2)].
    intros e He. apply occurs_app_l. exact He.
  - rewrite in_app_iff. intros [H|H]; [apply (IH1 _ _ _ H) | apply (IH2 _ _ _ H)].
  - rewrite in_app_iff. intros [H|[[= <- _]|[]]]; [apply (IH1 _ _ _ H)|].
    constructor.
  - rewrite in_map_iff. intros [[c1 s1] [[= <- _] H]]. cbn [fst snd].
    constructor; [|apply (IH1 _ _ _ H)].
    destruct (run_suffix ic r1 s c1 s1 H) as [pre ->].
    cbn [snd]. rewrite consumed_app. exists [], s1. reflexivity.
  - destruct (at_end s); [|intros []]. intros [[= <- _]|[]]. constructor.
Qed.

Lemma search_from_caps_occur (r : regex) :
  forall s pos m, search_from ic r pos s = Some m ->
                  Forall (fun e => occurs (snd e) s) (m_caps m).
Proof.
  induction s as [|x s IH]; intros pos m; cbn [search_from];
    unfold match_here; destruct (run ic r _) as [|[c rest] l] eqn:E.
  - discriminate.
  - intros [= <-]. cbn [m_caps].
    apply (run_caps_occur r [] c rest). rewrite E. left. reflexivity.
  - intros H. eapply Forall_impl; [|apply (IH _ _ H)].
    intros e He. apply (occurs_app_l [x]). exact He.
  - intros [= <-]. cbn [m_caps].
    apply (run_caps_occur r (x :: s) c rest). rewrite E. left. reflexivity.
Qed.

Lemma search_group_occurs (r : regex) (s : str) (m : Match) (n : nat)
      (g : str) :
  search ic r s = Some m -> group n m = Some g -> occurs g s.
Proof.
  intros Hs Hg. apply group_in_caps in Hg.
  pose proof (search_from_caps_occur r s 0 Hs) as F.
  rewrite Forall_forall in F. apply (F (n, g) Hg).
Qed.

End Captures.

(* ------------------------------------------------------------------ *)
(** ** The description *)

Section Descriptions.

Lemma trimmed_nil : trimmed [].
Proof.
  split; intros c t H; [discriminate H|].
  destruct t; discriminate H.
Qed.

Lemma description_of_match (r : regex) (text : str) (m : Match) :
  always_captures 1 r = true ->
  search true r text = Some m ->
  exists d, group_strip 1 m = Ok d /\ trimmed d /\ occurs d text.
Proof.
  intros D H.
  destruct (@search_from_captures true 1 r D text 0 m H) as [g Hg].
  exists (strip g). unfold group_strip. rewrite Hg.
  split; [reflexivity|]. split; [apply strip_trimmed|].
  apply occurs_trans with (b := g); [apply strip_occurs|].
  apply (@search_group_occurs true r text m 1 g H Hg).
Qed.

Lemma extract_description_returns (text : str) :
  exists d, _extract_description text = Ok d /\ trimmed d /\ occurs d text.
Proof.
  unfold _extract_description.
  destruct (search true to_pattern text) as [m|] eqn:Eto.
  { apply (@description_of_match to_pattern text m eq_refl Eto). }
  destruct (search true about_pattern text) as [m|] eqn:Eabout.
  { apply (@description_of_match about_pattern text m eq_refl Eabout). }
  exists []. split; [reflexivity|]. split; [apply trimmed_nil|].
  exists [], text. reflexivity.
Qed.

(** X3.  [_extract_description] never raises, and what it returns is a piece
    of the text as it stands there (nothing rewritten), without white space
    at either end. *)
Theorem description_is_trimmed_piece (text : str) :
  exists d, _extract_description text = Ok d /\ trimmed d /\ occurs d text.
Proof. apply extract_description_returns. Qed.

End Descriptions.

(* ------------------------------------------------------------------ *)
(** ** What the groups of the date patterns hold *)

Section GroupContents.

(** A pattern that begins with a literal covers a text that begins with it. *)
Lemma run_lit_led_consumed (p : str) (r : regex) (s : str) (c : caps)
      (rest : str) :
  In (c, rest) (run false (Seq (Lit p) r) s) ->
  exists t, consumed s rest = p ++ t.
Proof.
  cbn [run]. rewrite in_flat_map. intros [[c1 s1] [H1 H2]].
  rewrite in_map_iff in H2. destruct H2 as [[c2 s2] [[= _ <-] H2]].
  cbn [snd] in H2.
  destruct (lit_match false p s) as [rest'|] eqn:E; [|destruct H1].
  destruct H1 as [[= _ <-]|[]].
  destruct (run_suffix false r rest' c2 s2 H2) as [t ->].
  exists t. rewrite (lit_match_exact _ _ E), app_assoc. apply consumed_app.
Qed.

(** A pattern that begins with at least one digit covers a text that begins
    with a digit. *)
Lemma run_digit_led_consumed (lo : nat) (hi : option nat) (g : bool)
      (r : regex) (s : str) (c : caps) (rest : str) :
  In (c, rest) (run false (Seq (Rep Digit (S lo) hi g) r) s) ->
  starts_with_digit (consumed s rest).
Proof.
  cbn [run]. rewrite in_flat_map. intros [[c1 s1] [H1 H2]].
  rewrite in_map_iff in H2. destruct H2 as [[c2 s2] [[= _ <-] H2]].
  cbn [snd] in H2.
  rewrite in_map_iff in H1. destruct H1 as [j [[= _ <-] Hj]].
  apply in_counts in Hj.
  destruct s as [|d s0]; [destruct hi as [[|]|]; simpl in Hj; lia|].
  destruct (isdigit d) eqn:Ed.
  - destruct (run_suffix false r _ c2 s2 H2) as [t Ht].
    destruct j as [|j]; [lia|]. cbn [skipn] in Ht.
    assert (E : d :: s0 = (d :: firstn j s0 ++ t) ++ s2).
    { simpl. rewrite <- app_assoc, <- Ht, firstn_skipn. reflexivity. }
    rewrite E, consumed_app. exists d, (firstn j s0 ++ t).
    split; [reflexivity | exact Ed].
  - destruct hi as [[|h]|]; cbn [span in_class] in Hj; rewrite ?Ed in Hj; lia.
Qed.

Ltac open_pattern :=
  unfold by_pattern, at_pattern, relative_pattern, clock_re, ampm, L, plus,
    star, range;
  cbn [seqs alts groups_sat]; repeat split.

Lemma by_pattern_groups : groups_sat false by_capture by_pattern.
Proof.
  open_pattern. intros s c rest H _.
  rewrite !run_alt_app, !in_app_iff in H. destruct H as [H|[H|[H|H]]].
  - left. apply (run_digit_led_consumed _ _ _ _ _ _ _ H).
  - right. left. apply (run_lit_consumed _ s c rest H).
  - right. right. left. apply (run_lit_consumed _ s c rest H).
  - right. right. right.
    destruct (run_lit_led_consumed _ _ s c rest H) as [t ->].
    reflexivity.
Qed.

Lemma at_pattern_groups : groups_sat false at_capture at_pattern.
Proof.
  open_pattern. intros s c rest H _.
  rewrite !run_alt_app, !in_app_iff in H. destruct H as [H|[H|H]].
  - left. apply (run_digit_led_consumed _ _ _ _ _ _ _ H).
  - right. left. apply (run_lit_consumed _ s c rest H).
  - right. right. apply (run_lit_consumed _ s c rest H).
Qed.

Lemma relative_pattern_groups :
  groups_sat false unit_capture relative_pattern.
Proof.
  open_pattern; try (intros s c rest H E; discriminate E).
  intros s c rest H _.
  rewrite !run_alt_app, !in_app_iff in H. destruct H as [H|[H|H]].
  - destruct (run_lit_led_consumed _ _ s c rest H) as [t ->].
    discriminate.
  - destruct (run_lit_led_consumed _ _ s c rest H) as [t ->].
    discriminate.
  - destruct (run_lit_led_consumed _ _ s c rest H) as [t ->].
    discriminate.
Qed.

End GroupContents.

(* ------------------------------------------------------------------ *)
(** ** When no due date comes out *)

Section AbsentDueDate.

Lemma digit_not_space (d : ascii) : isdigit d = true -> isspace d = false.
Proof.
  destruct d as [[] [] [] [] [] [] [] []]; intros H; vm_compute in H |- *;
    congruence.
Qed.

Lemma lower_digit (d : ascii) : isdigit d = true -> lower_char d = d.
Proof.
  destruct d as [[] [] [] [] [] [] [] []]; intros H; vm_compute in H |- *;
    congruence.
Qed.

Lemma run_seq_nonempty (ic : bool) (r1 r2 : regex) (s : str) :
  run ic r1 s <> [] -> (forall s', run ic r2 s' <> []) ->
  run ic (Seq r1 r2) s <> [].
Proof.
  intros H1 H2. cbn [run].
  destruct (run ic r1 s) as [|m1 l1]; [contradiction|]. cbn [flat_map].
  intros E. apply app_eq_nil in E. destruct E as [E _].
  apply map_eq_nil in E. apply (H2 _ E).
Qed.

Lemma run_opt_nonempty (ic : bool) (r : regex) (s : str) :
  run ic (Opt r) s <> [].
Proof.
  cbn [run]. intros E. apply app_eq_nil in E. destruct E as [_ E].
  discriminate E.
Qed.

Lemma run_star_nonempty (ic : bool) (k : cclass) (s : str) :
  run ic (star k) s <> [].
Proof.
  cbn [run star]. pose proof (@counts_nonempty true 0 (span k None s)) as H.
  destruct (counts true 0 (span k None s)); [exfalso; apply H; [lia|reflexivity]|].
  discriminate.
Qed.

(** The time pattern matches every text that begins with a digit. *)
Lemma time_pattern_matches_digit (d : ascii) (s : str) :
  isdigit d = true -> re_match false time_pattern (d :: s) <> None.
Proof.
  intros Hd. unfold re_match, match_here.
  assert (H : run false time_pattern (d :: s) <> []).
  { unfold time_pattern. cbn [seqs]. apply run_seq_nonempty.
    - cbn [run range span in_class option_map]. rewrite Hd.
      pose proof (@counts_nonempty true 1
                    (S (span Digit (Some (pred 2)) s))) as H.
      destruct (counts true 1 (S (span Digit (Some (pred 2)) s)));
        [exfalso; apply H; [lia|reflexivity]|]. discriminate.
    - intros s1. apply run_seq_nonempty; [apply run_opt_nonempty|].
      intros s2. apply run_seq_nonempty; [apply run_star_nonempty|].
      intros s3. apply run_opt_nonempty. }
  destruct (run false time_pattern (d :: s)) as [|[c rest] l];
    [contradiction | discriminate].
Qed.

(** A clock expression gives a timestamp or an exception, never nothing. *)
Lemma parse_clock_not_absent (g : str) (now : datetime) :
  starts_with_digit g -> _parse_time_expression (strip g) now <> Ok None.
Proof.
  intros (d & t & E & Hd). subst g.
  destruct (@strip_keeps_head d t (digit_not_space d Hd)) as [t' ->].
  unfold _parse_time_expression.
  change (lower (d :: t')) with (lower_char d :: lower t').
  rewrite (lower_digit d Hd).
  cbn [lit list_ascii_of_string Str.eqb].
  rewrite !(@digit_is_not d _ Hd) by reflexivity. cbn [andb].
  pose proof (@time_pattern_matches_digit d (lower t') Hd) as Hm.
  destruct (re_match false time_pattern (d :: lower t')) as [m|];
    [|contradiction].
  destruct (group_int 1 m) as [h|]; cbn [rbind]; [|discriminate].
  destruct (group_int_or_0 2 m) as [mi|]; cbn [rbind]; [|discriminate].
  destruct (replace now _ _ 0 0) as [r|]; cbn [rbind]; [|discriminate].
  destruct (leb r now); cbn [rbind]; [|discriminate].
  destruct (timedelta 1 0 0); cbn [rbind]; [|discriminate].
  destruct (add r _); cbn [rbind]; discriminate.
Qed.

Lemma parse_keyword_not_absent (g : str) (now : datetime) :
  g = lit "tomorrow" \/ g = lit "today" \/ g = lit "noon" \/
  g = lit "midnight" ->
  _parse_time_expression (strip g) now <> Ok None.
Proof.
  intros [-> | [-> | [-> | ->]]].
  - change (strip (lit "tomorrow")) with (lit "tomorrow").
    rewrite parse_tomorrow_steps, one_day. cbn [rbind].
    destruct (add now us_per_day); cbn [rbind]; discriminate.
  - change (strip (lit "today")) with (lit "today").
    rewrite parse_today_steps. discriminate.
  - discriminate.
  - discriminate.
Qed.

Lemma lstrip_keeps_tail (a : str) (c : ascii) (q : str) :
  isspace c = false -> exists a', lstrip (a ++ c :: q) = a' ++ c :: q.
Proof.
  intros H. induction a as [|x a IH]; simpl.
  - rewrite H. exists []. reflexivity.
  - destruct (isspace x); [exact IH|]. exists (x :: a). reflexivity.
Qed.

(** "next ..." is no time expression the resolver knows. *)
Lemma parse_next_absent (g : str) (now : datetime) :
  startswith (lit "next") g = true ->
  _parse_time_expression (strip g) now = Ok None.
Proof.
  intros H. apply startswith_spec in H. destruct H as [y ->].
  assert (E : exists t, strip (lit "next" ++ y) = lit "next" ++ t).
  { unfold strip. change (lstrip (lit "next" ++ y)) with (lit "next" ++ y).
    unfold rstrip. rewrite rev_app_distr.
    change (rev (lit "next")) with ("t"%char :: rev (lit "nex")).
    destruct (@lstrip_keeps_tail (rev y) "t"%char (rev (lit "nex")) eq_refl)
      as [a' ->].
    exists (rev a'). rewrite rev_app_distr. reflexivity. }
  destruct E as [t ->]. reflexivity.
Qed.

Lemma relative_not_absent (amount : Z) (unit : str) (now : datetime) :
  unit_seconds unit <> None ->
  _calculate_relative_time amount unit now <> Ok None.
Proof.
  unfold unit_seconds, _calculate_relative_time. intros H.
  destruct (startswith (lit "minute") unit);
    [|destruct (startswith (lit "hour") unit);
      [|destruct (startswith (lit "day") unit); [|contradiction]]];
    destruct (timedelta _ _ _); cbn [rbind]; try discriminate;
    destruct (add now _); cbn [rbind]; discriminate.
Qed.

Lemma extract_due_date_at_cases (now : datetime) (text : str) :
  match search false by_pattern text with
  | Some m => extract_due_date_at now text = resolve_clock now m
  | None =>
      match search false at_pattern text with
      | Some m => extract_due_date_at now text = resolve_clock now m
      | None =>
          match search false relative_pattern text with
          | Some m => extract_due_date_at now text = resolve_relative now m
          | None => extract_due_date_at now text = Ok None
          end
      end
  end.
Proof.
  unfold extract_due_date_at.
  destruct (search false by_pattern text) as [m|] eqn:Eby.
  { rewrite (@group_strip_captured by_pattern text m eq_refl Eby).
    reflexivity. }
  destruct (search false at_pattern text) as [m|] eqn:Eat.
  { rewrite (@group_strip_captured at_pattern text m eq_refl Eat).
    reflexivity. }
  destruct (search false relative_pattern text) as [m|] eqn:Ein;
    [|reflexivity].
  destruct (@search_from_captures false 1 relative_pattern eq_refl text 0 m
              Ein) as [g1 Hg1].
  destruct (@search_from_captures false 2 relative_pattern eq_refl text 0 m
              Ein) as [g2 Hg2].
  unfold resolve_relative, captured, group_int. rewrite Hg1, Hg2.
  reflexivity.
Qed.

(** X4.  Due-date extraction returns nothing in exactly two cases: none of the
    three patterns matches the text, or the "by" pattern matched and caught a
    "next <word>".  So a match of the "at" or of the "in" pattern, and a "by"
    followed by a clock time, "tomorrow" or "today", always give a timestamp
    or an exception. *)
Theorem due_date_absent_iff (text : str) (w : World) :
  fst (_extract_due_date text w) = Ok None <->
  (search false by_pattern text = None /\
   search false at_pattern text = None /\
   search false relative_pattern text = None) \/
  (exists m, search false by_pattern text = Some m /\
             startswith (lit "next") (captured 1 m) = true).
Proof.
  rewrite extract_due_date_reads_clock. cbn [fst].
  set (now := clock w (reads w)).
  pose proof (extract_due_date_at_cases now text) as C.
  destruct (search false by_pattern text) as [m|] eqn:Eby.
  { rewrite C. unfold resolve_clock.
    destruct (@search_from_captures false 1 by_pattern eq_refl text 0 m Eby)
      as [g Hg].
    pose proof (@search_group_sat false by_capture by_pattern text m 1 g
                  by_pattern_groups Eby Hg eq_refl) as Hcap.
    unfold captured. rewrite Hg. split.
    - intros H. right. exists m. split; [reflexivity|]. rewrite Hg.
      destruct Hcap as [Hd|[Hk|[Hk|Hn]]].
      + exfalso. apply (parse_clock_not_absent now Hd H).
      + exfalso. apply (@parse_keyword_not_absent g now); [|exact H]. tauto.
      + exfalso. apply (@parse_keyword_not_absent g now); [|exact H]. tauto.
      + exact Hn.
    - intros [[H _]|(m' & [= <-] & H)]; [discriminate H|].
      rewrite Hg in H. apply parse_next_absent. exact H. }
  destruct (search false at_pattern text) as [m|] eqn:Eat.
  { rewrite C. unfold resolve_clock.
    destruct (@search_from_captures false 1 at_pattern eq_refl text 0 m Eat)
      as [g Hg].
    pose proof (@search_group_sat false at_capture at_pattern text m 1 g
                  at_pattern_groups Eat Hg eq_refl) as Hcap.
    unfold captured. rewrite Hg. split.
    - intros H. exfalso. destruct Hcap as [Hd|Hk].
      + apply (parse_clock_not_absent now Hd H).
      + apply (@parse_keyword_not_absent g now); [|exact H]. tauto.
    - intros [(_ & H & _)|(m' & H & _)]; discriminate H. }
  destruct (search false relative_pattern text) as [m|] eqn:Ein.
  { rewrite C. unfold resolve_relative.
    destruct (@search_from_captures false 2 relative_pattern eq_refl text 0 m
                Ein) as [g Hg].
    pose proof (@search_group_sat false unit_capture relative_pattern text m
                  2 g relative_pattern_groups Ein Hg eq_refl) as Hcap.
    unfold captured at 2. rewrite Hg. split.
    - intros H. exfalso.
      destruct (int (captured 1 m)) as [amount|]; cbn [rbind] in H;
        [|discriminate H].
      apply (@relative_not_absent amount g now Hcap H).
    - intros [(_ & _ & H)|(m' & H & _)]; discriminate H. }
  rewrite C. split; [|reflexivity]. intros _. left. repeat split.
Qed.

End AbsentDueDate.

(* ------------------------------------------------------------------ *)
(** ** Which exceptions a parse can raise, and when it cannot *)

Section ErrorKinds.

Local Open Scope Z_scope.

Lemma replace_raises (d : datetime) (h m s us : Z) (e : exn) :
  replace d h m s us = Raise e -> e = ValueError.
Proof.
  unfold replace. destruct (_ && _); [discriminate|].
  intros [= <-]. reflexivity.
Qed.

Lemma timedelta_raises (days hours minutes : Z) (e : exn) :
  timedelta days hours minutes = Raise e -> e = OverflowError.
Proof.
  unfold timedelta. destruct (_ <=? _); [discriminate|].
  intros [= <-]. reflexivity.
Qed.

Lemma add_raises (d : datetime) (delta : Z) (e : exn) :
  add d delta = Raise e -> e = OverflowError.
Proof.
  unfold add. destruct (_ && _); [discriminate|].
  intros [= <-]. reflexivity.
Qed.

Lemma parse_time_expression_raises (time_str : str) (now : datetime)
      (e : exn) :
  _parse_time_expression time_str now = Raise e ->
  e = ValueError \/ e = OverflowError.
Proof.
  unfold _parse_time_expression.
  destruct (Str.eqb _ (lit "tomorrow")).
  { destruct (timedelta 1 0 0) as [d|e1] eqn:E1; cbn [rbind];
      [|intros [= <-]; right; apply (timedelta_raises _ _ _ E1)].
    destruct (add now d) as [t|e2] eqn:E2; cbn [rbind];
      [|intros [= <-]; right; apply (add_raises _ _ E2)].
    destruct (replace t 9 0 0 0) as [r|e3] eqn:E3; cbn [rbind];
      [discriminate | intros [= <-]; left; apply (replace_raises _ _ _ _ _ E3)]. }
  destruct (Str.eqb _ (lit "today")).
  { destruct (replace now 18 0 0 0) as [r|e3] eqn:E3; cbn [rbind];
      [discriminate | intros [= <-]; left; apply (replace_raises _ _ _ _ _ E3)]. }
  destruct (Str.eqb _ (lit "noon")).
  { destruct (replace now 12 0 0 0) as [r|e3] eqn:E3; cbn [rbind];
      [discriminate | intros [= <-]; left; apply (replace_raises _ _ _ _ _ E3)]. }
  destruct (Str.eqb _ (lit "midnight")).
  { destruct (replace now 0 0 0 0) as [r|e3] eqn:E3; cbn [rbind];
      [discriminate | intros [= <-]; left; apply (replace_raises _ _ _ _ _ E3)]. }
  destruct (re_match false time_pattern (lower time_str)) as [m|] eqn:Em;
    [|discriminate].
  destruct (@match_here_captures false 1 time_pattern 0 (lower time_str) m
              eq_refl Em) as [g Hg].
  rewrite (@group_int_hour _ m g Em Hg), (@group_int_or_0_minute _ m Em).
  cbn [rbind].
  destruct (replace now _ _ 0 0) as [r|e3] eqn:E3; cbn [rbind];
    [|intros [= <-]; left; apply (replace_raises _ _ _ _ _ E3)].
  destruct (leb r now); cbn [rbind]; [|discriminate].
  destruct (timedelta 1 0 0) as [d|e1] eqn:E1; cbn [rbind];
    [|intros [= <-]; right; apply (timedelta_raises _ _ _ E1)].
  destruct (add r d) as [t|e2] eqn:E2; cbn [rbind];
    [discriminate | intros [= <-]; right; apply (add_raises _ _ E2)].
Qed.

Lemma calculate_relative_time_raises (amount : Z) (unit : str)
      (now : datetime) (e : exn) :
  _calculate_relative_time amount unit now = Raise e -> e = OverflowError.
Proof.
  unfold _calculate_relative_time.
  destruct (startswith (lit "minute") unit);
    [|destruct (startswith (lit "hour") unit);
      [|destruct (startswith (lit "day") unit); [|discriminate]]];
    (destruct (timedelta _ _ _) as [d|e1] eqn:E1; cbn [rbind];
     [|intros [= <-]; apply (timedelta_raises _ _ _ E1)];
     destruct (add now d) as [t|e2] eqn:E2; cbn [rbind];
     [discriminate | intros [= <-]; apply (add_raises _ _ E2)]).
Qed.

Lemma int_raises (g : str) (e : exn) : int g = Raise e -> e = ValueError.
Proof.
  rewrite int_cases. destruct (_ <=? _)%nat; [discriminate|].
  intros [= <-]. reflexivity.
Qed.

Lemma extract_due_date_at_raises (now : datetime) (text : str) (e : exn) :
  extract_due_date_at now text = Raise e ->
  e = ValueError \/ e = OverflowError.
Proof.
  pose proof (extract_due_date_at_cases now text) as C.
  destruct (search false by_pattern text);
    [rewrite C; apply parse_time_expression_raises|].
  destruct (search false at_pattern text);
    [rewrite C; apply parse_time_expression_raises|].
  destruct (search false relative_pattern text) as [m|];
    rewrite C; [|discriminate].
  unfold resolve_relative.
  destruct (int (captured 1 m)) as [amount|e0] eqn:Ei; cbn [rbind].
  - intros H. right. apply (calculate_relative_time_raises _ _ _ H).
  - intros [= <-]. left. apply (int_raises _ Ei).
Qed.

(** X5.  A parse raises nothing but [ValueError] (digits that are no time of
    day) or [OverflowError] (a date beyond the calendar): the calls on a
    possibly missing group never fail. *)
Theorem parse_raises_only_value_or_overflow (utterance : str) (w : World)
        (e : exn) :
  fst (parse_natural_language utterance w) = Raise e ->
  e = ValueError \/ e = OverflowError.
Proof.
  rewrite parse_natural_language_unfold. cbn [fst].
  destruct (extract_due_date_at _ _) as [due|e1] eqn:E1.
  - destruct (extract_description_returns utterance) as (d & -> & _).
    discriminate.
  - intros [= <-]. apply (extract_due_date_at_raises _ _ E1).
Qed.

Lemma parse_raises_only_value_or_overflow_witness :
  fst (parse_natural_language (lit "call mom at 25") morning_world) =
    Raise ValueError /\
  (ValueError = ValueError \/ ValueError = OverflowError).
Proof.
  split; [vm_compute; reflexivity|].
  apply (@parse_raises_only_value_or_overflow (lit "call mom at 25")
                                              morning_world ValueError).
  vm_compute. reflexivity.
Defined.

Lemma lower_char_digit (c : ascii) :
  isdigit (lower_char c) = true -> isdigit c = true.
Proof.
  destruct c as [[] [] [] [] [] [] [] []]; intros H; vm_compute in H |- *;
    congruence.
Qed.

Lemma has_digit_lower (s : str) : has_digit (lower s) -> has_digit s.
Proof.
  intros (c & Hin & Hd). unfold lower in Hin. apply in_map_iff in Hin.
  destruct Hin as (c0 & <- & Hin0). exists c0. split; [exact Hin0|].
  apply lower_char_digit. exact Hd.
Qed.

Lemma has_digit_occurs (g s : str) : occurs g s -> has_digit g -> has_digit s.
Proof.
  intros (pre & post & ->) (c & Hin & Hd). exists c. split; [|exact Hd].
  apply in_or_app. right. apply in_or_app. left. exact Hin.
Qed.

Lemma starts_with_digit_has_digit (g : str) :
  starts_with_digit g -> has_digit g.
Proof.
  intros (d & t & -> & Hd). exists d. split; [left; reflexivity | exact Hd].
Qed.

Lemma parse_tomorrow_ok (now : datetime) :
  valid now -> ordinal now < MAXORDINAL ->
  exists d, _parse_time_expression (lit "tomorrow") now = Ok (Some d).
Proof.
  intros Hv Hmax. rewrite parse_tomorrow_steps, one_day. cbn [rbind].
  rewrite (add_one_day Hv Hmax). eexists. reflexivity.
Qed.

(** X6.  With the clock on a day that is not the last of the calendar, the
    parse of an utterance that has no decimal digit always returns a
    record. *)
Theorem parse_without_digits_returns (utterance : str) (w : World) :
  valid (clock w (reads w)) ->
  ordinal (clock w (reads w)) < MAXORDINAL ->
  ~ has_digit utterance ->
  exists parsed, fst (parse_natural_language utterance w) = Ok parsed.
Proof.
  intros Hv Hmax Hnd. rewrite parse_natural_language_unfold. cbn [fst].
  destruct (extract_description_returns utterance) as (d & -> & _).
  set (now := clock w (reads w)) in *.
  set (text := lower utterance).
  assert (Hnt : ~ has_digit text)
    by (intros H; apply Hnd, has_digit_lower; exact H).
  assert (E : exists due, extract_due_date_at now text = Ok due);
    [|destruct E as [due ->]; eexists; reflexivity].
  pose proof (extract_due_date_at_cases now text) as C.
  destruct (search false by_pattern text) as [m|] eqn:Eby.
  { rewrite C. unfold resolve_clock.
    destruct (@search_from_captures false 1 by_pattern eq_refl text 0 m Eby)
      as [g Hg].
    pose proof (@search_group_sat false by_capture by_pattern text m 1 g
                  by_pattern_groups Eby Hg eq_refl) as Hcap.
    pose proof (@search_group_occurs false by_pattern text m 1 g Eby Hg)
      as Hocc.
    unfold captured. rewrite Hg.
    destruct Hcap as [Hd | [-> | [-> | Hn]]].
    - exfalso. apply Hnt. apply (has_digit_occurs Hocc).
      apply starts_with_digit_has_digit. exact Hd.
    - destruct (parse_tomorrow_ok Hv Hmax) as [x Hx].
      exists (Some x). exact Hx.
    - eexists. reflexivity.
    - exists None. apply parse_next_absent. exact Hn. }
  destruct (search false at_pattern text) as [m|] eqn:Eat.
  { rewrite C. unfold resolve_clock.
    destruct (@search_from_captures false 1 at_pattern eq_refl text 0 m Eat)
      as [g Hg].
    pose proof (@search_group_sat false at_capture at_pattern text m 1 g
                  at_pattern_groups Eat Hg eq_refl) as Hcap.
    pose proof (@search_group_occurs false at_pattern text m 1 g Eat Hg)
      as Hocc.
    unfold captured. rewrite Hg.
    destruct Hcap as [Hd | [-> | ->]].
    - exfalso. apply Hnt. apply (has_digit_occurs Hocc).
      apply starts_with_digit_has_digit. exact Hd.
    - eexists. reflexivity.
    - eexists. reflexivity. }
  unfold search in C.
  rewrite (@search_from_no_digit false relative_pattern eq_refl text 0 Hnt)
    in C.
  exists None. exact C.
Qed.

Lemma parse_without_digits_returns_witness :
  valid (clock morning_world (reads morning_world)) /\
  ordinal (clock morning_world (reads morning_world)) < MAXORDINAL /\
  ~ has_digit (lit "Finish the report by tomorrow") /\
  exists parsed,
    fst (parse_natural_language (lit "Finish the report by tomorrow")
                                morning_world) = Ok parsed.
Proof.
  assert (Hv : valid (clock morning_world (reads morning_world)))
    by exact new_year_10am_valid.
  assert (Hm : ordinal (clock morning_world (reads morning_world))
               < MAXORDINAL) by by_evaluation.
  assert (Hd : ~ has_digit (lit "Finish the report by tomorrow")).
  { intros (c & Hin & Hc). cbn in Hin.
    repeat (destruct Hin as [<-|Hin]; [vm_compute in Hc; discriminate Hc|]).
    destruct Hin. }
  split; [exact Hv|]. split; [exact Hm|]. split; [exact Hd|].
  apply (@parse_without_digits_returns _ morning_world Hv Hm Hd).
Defined.

End ErrorKinds.

(* ------------------------------------------------------------------ *)
(** ** The record a parse returns *)

Section RecordShape.

Lemma isoformat_length (d : datetime) :
  List.length (isoformat d) = 19%nat \/ List.length (isoformat d) = 26%nat.
Proof.
  unfold isoformat. destruct (ord2ymd (ordinal d)) as [[y m] dd].
  destruct (Z.eqb (microsecond d) 0); [left | right]; reflexivity.
Qed.

Lemma parse_time_expression_iso (time_str : str) (now : datetime) (s : str) :
  _parse_time_expression time_str now = Ok (Some s) ->
  exists d, s = isoformat d.
Proof.
  unfold _parse_time_expression.
  destruct (Str.eqb _ (lit "tomorrow")).
  { destruct (timedelta 1 0 0) as [d|]; cbn [rbind]; [|discriminate].
    destruct (add now d) as [t|]; cbn [rbind]; [|discriminate].
    destruct (replace t 9 0 0 0) as [r|]; cbn [rbind]; [|discriminate].
    intros [= <-]. exists r. reflexivity. }
  destruct (Str.eqb _ (lit "today")).
  { destruct (replace now 18 0 0 0) as [r|]; cbn [rbind]; [|discriminate].
    intros [= <-]. exists r. reflexivity. }
  destruct (Str.eqb _ (lit "noon")).
  { destruct (replace now 12 0 0 0) as [r|]; cbn [rbind]; [|discriminate].
    intros [= <-]. exists r. reflexivity. }
  destruct (Str.eqb _ (lit "midnight")).
  { destruct (replace now 0 0 0 0) as [r|]; cbn [rbind]; [|discriminate].
    intros [= <-]. exists r. reflexivity. }
  destruct (re_match false time_pattern (lower time_str)) as [m|];
    [|discriminate].
  destruct (group_int 1 m); cbn [rbind]; [|discriminate].
  destruct (group_int_or_0 2 m); cbn [rbind]; [|discriminate].
  destruct (replace now _ _ 0 0) as [r|]; cbn [rbind]; [|discriminate].
  destruct (leb r now); cbn [rbind].
  - destruct (timedelta 1 0 0) as [d|]; cbn [rbind]; [|discriminate].
    destruct (add r d) as [t|]; cbn [rbind]; [|discriminate].
    intros [= <-]. exists t. reflexivity.
  - intros [= <-]. exists r. reflexivity.
Qed.

Lemma calculate_relative_time_iso (amount : Z) (unit : str) (now : datetime)
      (s : str) :
  _calculate_relative_time amount unit now = Ok (Some s) ->
  exists d, s = isoformat d.
Proof.
  unfold _calculate_relative_time.
  destruct (startswith (lit "minute") unit);
    [|destruct (startswith (lit "hour") unit);
      [|destruct (startswith (lit "day") unit); [|discriminate]]];
    (destruct (timedelta _ _ _) as [d|]; cbn [rbind]; [|discriminate];
     destruct (add now d) as [t|]; cbn [rbind]; [|discriminate];
     intros [= <-]; exists t; reflexivity).
Qed.

Lemma extract_due_date_at_iso (now : datetime) (text : str) (s : str) :
  extract_due_date_at now text = Ok (Some s) -> exists d, s = isoformat d.
Proof.
  pose proof (extract_due_date_at_cases now text) as C.
  destruct (search false by_pattern text);
    [rewrite C; apply parse_time_expression_iso|].
  destruct (search false at_pattern text);
    [rewrite C; apply parse_time_expression_iso|].
  destruct (search false relative_pattern text) as [m|];
    rewrite C; [|discriminate].
  unfold resolve_relative.
  destruct (int (captured 1 m)) as [amount|]; cbn [rbind]; [|discriminate].
  apply calculate_relative_time_iso.
Qed.

(** X7.  In the record of a parse the priority is "high", "medium" or "low";
    the due date is exactly what due-date extraction returned for the
    lower-cased utterance (a date found is never dropped), and when present it
    is the ISO text of a datetime, 19 characters long, or 26 with
    microseconds. *)
Theorem parse_record_shape (utterance : str) (w : World)
        (parsed : ParsedTask) :
  fst (parse_natural_language utterance w) = Ok parsed ->
  (p_priority parsed = lit "high" \/ p_priority parsed = lit "medium" \/
   p_priority parsed = lit "low") /\
  fst (_extract_due_date (lower utterance) w) = Ok (p_due_date parsed) /\
  forall s, p_due_date parsed = Some s ->
            (exists d, s = isoformat d) /\
            (List.length s = 19%nat \/ List.length s = 26%nat).
Proof.
  rewrite parse_natural_language_unfold, extract_due_date_reads_clock.
  cbn [fst].
  destruct (extract_due_date_at _ _) as [due|] eqn:E; [|discriminate].
  destruct (_extract_description utterance) as [desc|]; [|discriminate].
  intros [= <-]. cbn [p_priority p_due_date].
  assert (Hdue : due_of due = due /\
                 forall s, due = Some s -> exists d, s = isoformat d).
  { destruct due as [s|]; [|split; [reflexivity | discriminate]].
    destruct (extract_due_date_at_iso _ _ E) as [d ->].
    split; [|intros s [= <-]; exists d; reflexivity].
    unfold due_of.
    destruct (isoformat_length d) as [L|L];
      destruct (isoformat d); try discriminate L; reflexivity. }
  destruct Hdue as [Hd Hiso]. rewrite Hd. split; [|split].
  - unfold or_medium.
    destruct (extract_priority_values (lower utterance)) as [P|[P|[P|P]]];
      rewrite P; cbn; tauto.
  - reflexivity.
  - intros s Hs. destruct (Hiso s Hs) as [d ->].
    split; [exists d; reflexivity | apply isoformat_length].
Qed.

Lemma parse_record_shape_witness :
  exists parsed,
    fst (parse_natural_language (lit "Call mom at 3 PM, urgent")
                                morning_world) = Ok parsed /\
    p_priority parsed = lit "high" /\
    p_due_date parsed = Some (lit "2024-01-01T15:00:00") /\
    fst (_extract_due_date (lower (lit "Call mom at 3 PM, urgent"))
                           morning_world) = Ok (p_due_date parsed).
Proof.
  eexists. split; [vm_compute; reflexivity|].
  split; [reflexivity|]. split; [reflexivity|].
  refine (proj1 (proj2 (@parse_record_shape (lit "Call mom at 3 PM, urgent")
                                            morning_world _ _))).
  vm_compute. reflexivity.
Defined.

End RecordShape.

(* ------------------------------------------------------------------ *)
(** ** The task table: update, delete, insert and look up *)

Section Table.

Local Open Scope Z_scope.

Lemma lookup_unfold (task_id : Z) (w : World) :
  lookup task_id w =
  if TaskDatabase.fits_int64 task_id
  then Ok (find (fun t => Z.eqb (id t) task_id) (tasks w))
  else Raise OverflowError.
Proof.
  unfold lookup, TaskDatabase.get_task_by_id, TaskDatabase.bind_int, bind,
    lift.
  destruct (TaskDatabase.fits_int64 task_id); reflexivity.
Qed.

(** What [get_task_by_id] finds depends on the rows only. *)
Lemma lookup_rows (task_id : Z) (w w' : World) :
  tasks w' = tasks w -> lookup task_id w' = lookup task_id w.
Proof. intros E. rewrite !lookup_unfold, E. reflexivity. Qed.

Lemma lookup_raises (task_id : Z) :
  TaskDatabase.fits_int64 task_id = false ->
  forall w, lookup task_id w = Raise OverflowError.
Proof. intros F w. rewrite lookup_unfold, F. reflexivity. Qed.

Lemma lookup_returns (task_id : Z) :
  TaskDatabase.fits_int64 task_id = true ->
  forall w,
    lookup task_id w = Ok (find (fun t => Z.eqb (id t) task_id) (tasks w)).
Proof. intros F w. rewrite lookup_unfold, F. reflexivity. Qed.

Lemma find_map_same_id (f : Task -> Task) (k : Z) (rows : list Task) :
  (forall t, id (f t) = id t) ->
  find (fun t => Z.eqb (id t) k) (map f rows)
  = option_map f (find (fun t => Z.eqb (id t) k) rows).
Proof.
  intros Hf. induction rows as [|t rows IH]; simpl; [reflexivity|].
  rewrite Hf. destruct (Z.eqb (id t) k); [reflexivity | exact IH].
Qed.

Lemma find_id (k : Z) (rows : list Task) (t : Task) :
  find (fun t => Z.eqb (id t) k) rows = Some t -> id t = k /\ In t rows.
Proof.
  intros H. apply find_some in H. destruct H as [Hin Hk].
  split; [apply Z.eqb_eq; exact Hk | exact Hin].
Qed.

Lemma find_none_id (k : Z) (rows : list Task) :
  find (fun t => Z.eqb (id t) k) rows = None <->
  ~ exists t, In t rows /\ id t = k.
Proof.
  split.
  - intros H (t & Hin & Hk).
    pose proof (find_none _ _ H t Hin) as E. cbn in E.
    apply Z.eqb_neq in E. contradiction.
  - intros H. destruct (find _ rows) as [t|] eqn:E; [|reflexivity].
    exfalso. apply H. exists t. destruct (find_id _ _ E). tauto.
Qed.

Lemma delete_task_unfold (task_id : Z) (w : World) :
  TaskDatabase.delete_task task_id w =
  if TaskDatabase.fits_int64 task_id
  then (Ok (0 <? List.length (filter (fun t => Z.eqb (id t) task_id)
                                     (tasks w)))%nat,
        mkWorld (clock w) (reads w)
                (filter (fun t => negb (Z.eqb (id t) task_id)) (tasks w)))
  else (Raise OverflowError, w).
Proof.
  unfold TaskDatabase.delete_task, TaskDatabase.bind_int, bind, lift.
  destruct (TaskDatabase.fits_int64 task_id); reflexivity.
Qed.

Lemma rowcount_lookup (task_id : Z) (w : World) :
  (0 <? List.length (filter (fun t => Z.eqb (id t) task_id) (tasks w)))%nat
  = match find (fun t => Z.eqb (id t) task_id) (tasks w) with
    | Some _ => true
    | None => false
    end.
Proof.
  destruct (find _ (tasks w)) as [t|] eqn:E.
  - apply rowcount_positive. exists t. destruct (find_id _ _ E). tauto.
  - destruct (0 <? _)%nat eqn:R; [|reflexivity].
    apply rowcount_positive in R. apply find_none_id in E. contradiction.
Qed.

Lemma update_task_lookup (task_id : Z) (nt nd ndd np ns : option str)
      (w : World) :
  let out := TaskDatabase.update_task task_id nt nd ndd np ns w in
  fst out = match lookup task_id w with
            | Ok (Some _) => Ok true
            | Ok None => Ok false
            | Raise e => Raise e
            end /\
  lookup task_id (snd out) =
    match lookup task_id w with
    | Ok (Some t) =>
        Ok (Some (mkTask (id t)
                         (match nt with Some v => v | None => title t end)
                         (updated nd (description t))
                         (updated ndd (due_date t))
                         (updated np (priority t))
                         (updated ns (status t))
                         (created_at t)
                         (Some (isoformat (clock w (reads w))))))
    | other => other
    end /\
  (forall other, other <> task_id ->
                 lookup other (snd out) = lookup other w) /\
  reads (snd out) = S (reads w) /\
  (TaskDatabase.fits_int64 task_id = true ->
   exists found, lookup task_id w = Ok found) /\
  (TaskDatabase.fits_int64 task_id = false ->
   lookup task_id w = Raise OverflowError /\ tasks (snd out) = tasks w).
Proof.
  intros out. subst out. rewrite update_task_unfold.
  destruct (TaskDatabase.fits_int64 task_id) eqn:F; cbn [fst snd].
  - rewrite !(@lookup_returns task_id F). cbn [tasks reads].
    split; [|split; [|split; [|split; [|split]]]].
    + rewrite rowcount_lookup. destruct (find _ (tasks w)); reflexivity.
    + rewrite find_map_same_id
        by (intros t; destruct (Z.eqb (id t) task_id); reflexivity).
      destruct (find _ (tasks w)) as [t|] eqn:E; [|reflexivity].
      destruct (find_id _ _ E) as [Hid _]. cbn [option_map].
      destruct (Z.eqb_spec (id t) task_id); [reflexivity | contradiction].
    + intros other Hne. rewrite !lookup_unfold. cbn [tasks].
      destruct (TaskDatabase.fits_int64 other); [|reflexivity].
      rewrite find_map_same_id
        by (intros t; destruct (Z.eqb (id t) task_id); reflexivity).
      destruct (find _ (tasks w)) as [t|] eqn:E; [|reflexivity].
      destruct (find_id _ _ E) as [Hid _]. cbn [option_map].
      destruct (Z.eqb_spec (id t) task_id); [congruence | reflexivity].
    + reflexivity.
    + intros _. eexists. reflexivity.
    + discriminate.
  - rewrite !(@lookup_raises task_id F).
    split; [|split; [|split; [|split; [|split]]]].
    + reflexivity.
    + reflexivity.
    + intros other _. apply lookup_rows. reflexivity.
    + reflexivity.
    + discriminate.
    + intros _. split; reflexivity.
Qed.

(** X8.  [update_task] returns true when [get_task_by_id] finds the task and
    false when it finds none; for an id that does not fit 64 bits both raise
    [OverflowError] and the rows stay as they are.  The row found afterwards
    has the given columns set, the columns not given as they were (so no
    column can be cleared), and [updated_at] at the time of the call, also
    when no column is given; id and creation time never change.  What
    [get_task_by_id] finds for any other id is unchanged, and the clock is
    read once in every case. *)
Theorem update_task_then_get (task_id : Z) (nt nd ndd np ns : option str)
        (w : World) :
  let out := TaskDatabase.update_task task_id nt nd ndd np ns w in
  fst out = match lookup task_id w with
            | Ok (Some _) => Ok true
            | Ok None => Ok false
            | Raise e => Raise e
            end /\
  lookup task_id (snd out) =
    match lookup task_id w with
    | Ok (Some t) =>
        Ok (Some (mkTask (id t)
                         (match nt with Some v => v | None => title t end)
                         (updated nd (description t))
                         (updated ndd (due_date t))
                         (updated np (priority t))
                         (updated ns (status t))
                         (created_at t)
                         (Some (isoformat (clock w (reads w))))))
    | other => other
    end /\
  (forall other, other <> task_id ->
                 lookup other (snd out) = lookup other w) /\
  reads (snd out) = S (reads w) /\
  (TaskDatabase.fits_int64 task_id = true ->
   exists found, lookup task_id w = Ok found) /\
  (TaskDatabase.fits_int64 task_id = false ->
   lookup task_id w = Raise OverflowError /\ tasks (snd out) = tasks w).
Proof. apply update_task_lookup. Qed.

(** X15.  [update_task_priority] reports whether the task exists; afterwards
    the task has the new priority, whatever text it is, [updated_at] is the
    time of the call, and its title, description, due date, status and
    creation time are as before; other tasks are as before. *)
Theorem update_task_priority_then_get (task_id : Z) (new_priority : str)
        (w : World) (t : Task) :
  lookup task_id w = Ok (Some t) ->
  let out := update_task_priority task_id new_priority w in
  fst out = Ok true /\
  lookup task_id (snd out) =
    Ok (Some (mkTask (id t) (title t) (description t) (due_date t)
                     (Some new_priority) (status t) (created_at t)
                     (Some (isoformat (clock w (reads w)))))) /\
  forall other, other <> task_id ->
                lookup other (snd out) = lookup other w.
Proof.
  intros H out. subst out. unfold update_task_priority.
  destruct (update_task_lookup task_id None None None (Some new_priority)
                               None w) as (H1 & H2 & H3 & _).
  cbv zeta in H1, H2, H3. rewrite H in H1, H2.
  split; [exact H1|]. split; [exact H2 | exact H3].
Qed.

Lemma update_task_priority_then_get_witness :
  lookup 7 sample_world = Ok (Some sample_task) /\
  fst (update_task_priority 7 (lit "high") sample_world) = Ok true /\
  lookup 7 (snd (update_task_priority 7 (lit "high") sample_world)) =
    Ok (Some (mkTask 7 (lit "call mom") (Some (lit "call mom")) None
                     (Some (lit "high")) (Some (lit "pending"))
                     (Some (lit "2024-01-01 09:00:00"))
                     (Some (lit "2024-01-01T10:00:00")))).
Proof.
  split; [reflexivity|].
  destruct (@update_task_priority_then_get 7 (lit "high") sample_world
              sample_task eq_refl) as (H1 & H2 & _).
  split; [exact H1 | exact H2].
Defined.

Lemma find_filter_other (k task_id : Z) (rows : list Task) :
  k <> task_id ->
  find (fun t => Z.eqb (id t) k)
       (filter (fun t => negb (Z.eqb (id t) task_id)) rows)
  = find (fun t => Z.eqb (id t) k) rows.
Proof.
  intros Hne. induction rows as [|t rows IH]; simpl; [reflexivity|].
  destruct (Z.eqb_spec (id t) task_id) as [E|E]; cbn [negb].
  - rewrite IH. destruct (Z.eqb_spec (id t) k); [congruence | reflexivity].
  - simpl. rewrite IH. reflexivity.
Qed.

Lemma find_filter_same (task_id : Z) (rows : list Task) :
  find (fun t => Z.eqb (id t) task_id)
       (filter (fun t => negb (Z.eqb (id t) task_id)) rows) = None.
Proof.
  apply find_none_id. intros (t & Hin & Hid).
  apply filter_In in Hin. destruct Hin as [_ H].
  rewrite Hid, Z.eqb_refl in H. discriminate H.
Qed.

Lemma delete_task_lookup (task_id : Z) (w : World) :
  let out := TaskManager.delete_task task_id w in
  fst out = match lookup task_id w with
            | Ok (Some _) => Ok true
            | Ok None => Ok false
            | Raise e => Raise e
            end /\
  lookup task_id (snd out) = match lookup task_id w with
                             | Ok _ => Ok None
                             | Raise e => Raise e
                             end /\
  (forall other, other <> task_id ->
                 lookup other (snd out) = lookup other w) /\
  reads (snd out) = reads w /\
  fst (TaskManager.delete_task task_id (snd out)) =
    match lookup task_id w with
    | Ok _ => Ok false
    | Raise e => Raise e
    end /\
  (TaskDatabase.fits_int64 task_id = true ->
   exists found, lookup task_id w = Ok found) /\
  (TaskDatabase.fits_int64 task_id = false ->
   lookup task_id w = Raise OverflowError /\ snd out = w).
Proof.
  intros out. subst out. unfold TaskManager.delete_task.
  rewrite !delete_task_unfold.
  destruct (TaskDatabase.fits_int64 task_id) eqn:F; cbn [fst snd].
  - rewrite !(@lookup_returns task_id F). cbn [tasks reads].
    split; [|split; [|split; [|split; [|split; [|split]]]]].
    + rewrite rowcount_lookup. destruct (find _ (tasks w)); reflexivity.
    + rewrite find_filter_same. reflexivity.
    + intros other Hne. rewrite !lookup_unfold. cbn [tasks].
      rewrite (find_filter_other _ Hne). reflexivity.
    + reflexivity.
    + set (w' := mkWorld (clock w) (reads w)
                         (filter (fun t => negb (Z.eqb (id t) task_id))
                                 (tasks w))).
      change (filter (fun t => Z.eqb (id t) task_id)
                     (filter (fun t => negb (Z.eqb (id t) task_id))
                             (tasks w)))
        with (filter (fun t => Z.eqb (id t) task_id) (tasks w')).
      rewrite (rowcount_lookup task_id w'). unfold w'. cbn [tasks].
      rewrite find_filter_same. reflexivity.
    + intros _. eexists. reflexivity.
    + discriminate.
  - rewrite !(@lookup_raises task_id F).
    split; [|split; [|split; [|split; [|split; [|split]]]]];
      try reflexivity.
    + discriminate.
    + intros _. split; reflexivity.
Qed.

(** X9.  [delete_task] returns true when [get_task_by_id] finds the task and
    false when it finds none; afterwards [get_task_by_id] finds nothing for
    that id and the same as before for every other id, the clock is
    untouched, and deleting the same id again returns false.  For an id that
    does not fit 64 bits every one of these calls raises [OverflowError] and
    nothing changes. *)
Theorem delete_task_then_get (task_id : Z) (w : World) :
  let out := TaskManager.delete_task task_id w in
  fst out = match lookup task_id w with
            | Ok (Some _) => Ok true
            | Ok None => Ok false
            | Raise e => Raise e
            end /\
  lookup task_id (snd out) = match lookup task_id w with
                             | Ok _ => Ok None
                             | Raise e => Raise e
                             end /\
  (forall other, other <> task_id ->
                 lookup other (snd out) = lookup other w) /\
  reads (snd out) = reads w /\
  fst (TaskManager.delete_task task_id (snd out)) =
    match lookup task_id w with
    | Ok _ => Ok false
    | Raise e => Raise e
    end /\
  (TaskDatabase.fits_int64 task_id = true ->
   exists found, lookup task_id w = Ok found) /\
  (TaskDatabase.fits_int64 task_id = false ->
   lookup task_id w = Raise OverflowError /\ snd out = w).
Proof. apply delete_task_lookup. Qed.

End Table.

(* ------------------------------------------------------------------ *)
(** ** Inserting *)

Section Inserting.

Local Open Scope Z_scope.

Lemma last_rowid_bound (rows : list Task) (l : Z) :
  TaskDatabase.last_rowid rows = Some l ->
  forall t, In t rows -> id t <= l.
Proof.
  revert l. induction rows as [|x rows IH]; intros l; simpl; [discriminate|].
  destruct (TaskDatabase.last_rowid rows) as [m|] eqn:E.
  - intros [= <-] t [<-|Hin]; [lia|]. specialize (IH m eq_refl t Hin). lia.
  - intros [= <-] t [<-|Hin]; [lia|].
    destruct rows as [|y rows]; [destruct Hin|]. simpl in E.
    destruct (TaskDatabase.last_rowid rows); discriminate E.
Qed.

Lemma last_rowid_none (rows : list Task) :
  TaskDatabase.last_rowid rows = None -> rows = [].
Proof.
  destruct rows as [|x rows]; [reflexivity|]. simpl.
  destruct (TaskDatabase.last_rowid rows); discriminate.
Qed.

(** The id of a new row is above every id in the table and above the
    recorded sequence. *)
Lemma new_rowid_fresh (rows : list Task) (seq v : Z) :
  TaskDatabase.new_rowid rows seq = Some v ->
  (forall t, In t rows -> id t < v) /\ seq < v.
Proof.
  unfold TaskDatabase.new_rowid.
  destruct (TaskDatabase.last_rowid rows) as [l|] eqn:E.
  - destruct (Z.leb_spec TaskDatabase.MAX_ROWID l); [discriminate|].
    destruct (Z.eqb_spec seq TaskDatabase.MAX_ROWID); [discriminate|].
    pose proof (last_rowid_bound _ E) as B.
    destruct (Z.ltb_spec (l + 1) (seq + 1)); intros [= <-];
      (split; [intros t Hin; specialize (B t Hin); lia | lia]).
  - apply last_rowid_none in E. subst rows.
    destruct (Z.eqb_spec seq TaskDatabase.MAX_ROWID); [discriminate|].
    destruct (Z.ltb_spec 1 (seq + 1)); intros [= <-];
      (split; [intros t [] | lia]).
Qed.

Lemma new_rowid_some (rows : list Task) (seq : Z) :
  seq < TaskDatabase.MAX_ROWID ->
  (forall t, In t rows -> id t < TaskDatabase.MAX_ROWID) ->
  exists v, TaskDatabase.new_rowid rows seq = Some v.
Proof.
  intros Hs Hr. unfold TaskDatabase.new_rowid.
  destruct (TaskDatabase.last_rowid rows) as [l|] eqn:E.
  - assert (Hl : l < TaskDatabase.MAX_ROWID).
    { clear Hs. revert l E. induction rows as [|x rows IH]; intros l;
        simpl; [discriminate|].
      destruct (TaskDatabase.last_rowid rows) as [m|].
      - intros [= <-].
        specialize (IH (fun t H => Hr t (or_intror H)) m eq_refl).
        pose proof (Hr x (or_introl eq_refl)). lia.
      - intros [= <-]. apply (Hr x (or_introl eq_refl)). }
    destruct (Z.leb_spec TaskDatabase.MAX_ROWID l); [lia|].
    destruct (Z.eqb_spec seq TaskDatabase.MAX_ROWID); [lia|].
    eexists. reflexivity.
  - destruct (Z.eqb_spec seq TaskDatabase.MAX_ROWID); [lia|].
    eexists. reflexivity.
Qed.

Lemma find_app_last (k : Z) (rows : list Task) (row : Task) :
  find (fun t => Z.eqb (id t) k) (rows ++ [row]) =
  match find (fun t => Z.eqb (id t) k) rows with
  | Some t => Some t
  | None => if Z.eqb (id row) k then Some row else None
  end.
Proof.
  induction rows as [|t rows IH]; simpl; [reflexivity|].
  destruct (Z.eqb (id t) k); [reflexivity | exact IH].
Qed.

Lemma last_rowid_in (rows : list Task) (l : Z) :
  TaskDatabase.last_rowid rows = Some l -> exists t, In t rows /\ id t = l.
Proof.
  revert l. induction rows as [|x rows IH]; intros l; simpl; [discriminate|].
  destruct (TaskDatabase.last_rowid rows) as [m|] eqn:E.
  - intros [= <-]. destruct (IH m eq_refl) as (t & Hin & Ht).
    destruct (Z.max_spec (id x) m) as [[_ ->]|[_ ->]].
    + exists t. split; [right; exact Hin | exact Ht].
    + exists x. split; [left|]; reflexivity.
  - intros [= <-]. exists x. split; [left|]; reflexivity.
Qed.

Lemma fits_int64_range (n : Z) :
  TaskDatabase.fits_int64 n = true <->
  TaskDatabase.MIN_ROWID <= n <= TaskDatabase.MAX_ROWID.
Proof.
  unfold TaskDatabase.fits_int64. rewrite andb_true_iff, !Z.leb_le. tauto.
Qed.

(** In a table of 64-bit ids with a 64-bit sequence the id of a new row is a
    64-bit integer. *)
Lemma new_rowid_fits (s : Store) (v : Z) :
  sqlite_store s ->
  TaskDatabase.new_rowid (tasks (world s)) (sequence s) = Some v ->
  TaskDatabase.fits_int64 v = true.
Proof.
  intros [Hids Hseq]. apply fits_int64_range in Hseq.
  unfold TaskDatabase.new_rowid.
  destruct (TaskDatabase.last_rowid (tasks (world s))) as [l|] eqn:E.
  - destruct (last_rowid_in _ E) as (t & Hin & Ht).
    pose proof (@stored_id_fits (world s) t Hids Hin) as Hl.
    rewrite Ht in Hl. apply fits_int64_range in Hl.
    destruct (Z.leb_spec TaskDatabase.MAX_ROWID l); [discriminate|].
    destruct (Z.eqb_spec (sequence s) TaskDatabase.MAX_ROWID); [discriminate|].
    destruct (Z.ltb_spec (l + 1) (sequence s + 1)); intros [= <-];
      apply fits_int64_range; unfold TaskDatabase.MIN_ROWID in *; lia.
  - destruct (Z.eqb_spec (sequence s) TaskDatabase.MAX_ROWID); [discriminate|].
    destruct (Z.ltb_spec 1 (sequence s + 1)); intros [= <-];
      apply fits_int64_range;
      unfold TaskDatabase.MIN_ROWID, TaskDatabase.MAX_ROWID in *; lia.
Qed.

Lemma add_task_returned (new_title new_description : str)
      (new_due_date : option str) (new_priority : str) (s : Store)
      (rowid : Z) (s' : Store) :
  TaskDatabase.add_task new_title new_description new_due_date
                        new_priority s = (Returned rowid, s') ->
  (forall t, In t (tasks (world s)) -> id t < rowid) /\
  sequence s < rowid /\ sequence s' = rowid /\
  (sqlite_store s ->
   TaskDatabase.fits_int64 rowid = true /\
   lookup rowid (world s') =
     Ok (Some (mkTask rowid new_title (Some new_description) new_due_date
                      (Some new_priority) (Some (lit "pending"))
                      (Some (timestamps s (inserts s)))
                      (Some (timestamps s (inserts s)))))) /\
  forall other, other <> rowid ->
                lookup other (world s') = lookup other (world s).
Proof.
  unfold TaskDatabase.add_task.
  destruct (TaskDatabase.new_rowid (tasks (world s)) (sequence s))
    as [v|] eqn:E; [|discriminate].
  intros [= <- <-]. destruct (new_rowid_fresh _ _ E) as [Hfresh Hseq].
  split; [exact Hfresh|]. split; [exact Hseq|]. split; [reflexivity|].
  cbn [world].
  assert (Hnone : find (fun t => Z.eqb (id t) v) (tasks (world s)) = None).
  { apply find_none_id. intros (t & Hin & Hid).
    specialize (Hfresh t Hin). lia. }
  split.
  - intros Hs. pose proof (new_rowid_fits Hs E) as F.
    split; [exact F|]. rewrite (@lookup_returns v F). cbn [tasks].
    rewrite find_app_last, Hnone. cbn [id]. rewrite Z.eqb_refl.
    reflexivity.
  - intros other Hne. rewrite !lookup_unfold. cbn [tasks].
    destruct (TaskDatabase.fits_int64 other); [|reflexivity].
    rewrite find_app_last. cbn [id].
    destruct (find (fun t => Z.eqb (id t) other) (tasks (world s)));
      [reflexivity|].
    destruct (Z.eqb_spec v other); [congruence | reflexivity].
Qed.

(** X10.  When [add_task] returns, its id is larger than every id in the table
    and than every id issued before, so ids are never reused, also not after
    a delete; in a store of 64-bit ids it is a 64-bit id, and [get_task_by_id]
    on it finds a row with the given title, description, due date and
    priority, status "pending" and both time stamps at the time of the
    insert; what it finds for other ids is unchanged.  [add_task] returns
    whenever the sequence and the ids in the table are below the largest row
    id. *)
Theorem add_task_then_get (new_title new_description : str)
        (new_due_date : option str) (new_priority : str) (s : Store) :
  (sequence s < TaskDatabase.MAX_ROWID ->
   (forall t, In t (tasks (world s)) -> id t < TaskDatabase.MAX_ROWID) ->
   exists rowid s',
     TaskDatabase.add_task new_title new_description new_due_date
                           new_priority s = (Returned rowid, s')) /\
  forall rowid s',
    TaskDatabase.add_task new_title new_description new_due_date
                          new_priority s = (Returned rowid, s') ->
    (forall t, In t (tasks (world s)) -> id t < rowid) /\
    sequence s < rowid /\ sequence s' = rowid /\
    (sqlite_store s ->
     TaskDatabase.fits_int64 rowid = true /\
     lookup rowid (world s') =
       Ok (Some (mkTask rowid new_title (Some new_description) new_due_date
                        (Some new_priority) (Some (lit "pending"))
                        (Some (timestamps s (inserts s)))
                        (Some (timestamps s (inserts s)))))) /\
    forall other, other <> rowid ->
                  lookup other (world s') = lookup other (world s).
Proof.
  split.
  - intros Hs Hr. unfold TaskDatabase.add_task.
    destruct (new_rowid_some _ Hs Hr) as [v ->].
    eexists. eexists. reflexivity.
  - intros rowid s'. apply add_task_returned.
Qed.

Lemma add_task_then_get_witness :
  sequence sample_store < TaskDatabase.MAX_ROWID /\
  sqlite_store sample_store /\
  exists s',
    TaskDatabase.add_task (lit "water plants") [] None (lit "low")
                          sample_store = (Returned 8, s') /\
    sequence s' = 8 /\
    lookup 8 (world s') =
      Ok (Some (mkTask 8 (lit "water plants") (Some []) None
                       (Some (lit "low")) (Some (lit "pending"))
                       (Some (lit "2024-01-01 09:30:00"))
                       (Some (lit "2024-01-01 09:30:00")))).
Proof.
  split; [reflexivity|].
  assert (Hst : sqlite_store sample_store)
    by (split; [repeat constructor | reflexivity]).
  split; [exact Hst|].
  destruct (@add_task_then_get (lit "water plants") [] None (lit "low")
                               sample_store) as [Hex Hget].
  eexists. split; [vm_compute; reflexivity|].
  destruct (Hget 8 _ eq_refl) as (_ & _ & Hs & Hl & _).
  split; [exact Hs | exact (proj2 (Hl Hst))].
Defined.

Lemma NoDup_snoc {A : Type} (l : list A) (x : A) :
  NoDup l -> ~ In x l -> NoDup (l ++ [x]).
Proof.
  induction l as [|y l IH]; intros Hnd Hx; simpl.
  - constructor; [intros [] | constructor].
  - inversion Hnd as [|? ? Hy Hl]; subst. constructor.
    + rewrite in_app_iff. intros [H|[H|[]]]; [contradiction|].
      apply Hx. left. symmetry. exact H.
    + apply IH; [exact Hl|]. intros H. apply Hx. right. exact H.
Qed.

Lemma NoDup_map_filter (p : Task -> bool) (rows : list Task) :
  NoDup (map id rows) -> NoDup (map id (filter p rows)).
Proof.
  induction rows as [|t rows IH]; simpl; [intros _; constructor|].
  intros H. inversion H as [|? ? Ht Hr]; subst.
  destruct (p t); [|apply IH; exact Hr].
  simpl. constructor; [|apply IH; exact Hr].
  intros Hin. apply Ht. apply in_map_iff in Hin.
  destruct Hin as (x & Hx & Hin). apply filter_In in Hin.
  apply in_map_iff. exists x. tauto.
Qed.

(** X11.  If no two rows share an id, that is still so after [update_task],
    after [delete_task] and after an [add_task] that returns. *)
Theorem unique_ids_kept (s : Store) (task_id : Z)
        (nt nd ndd np ns : option str) (new_title new_description : str)
        (new_due_date : option str) (new_priority : str) :
  unique_ids (world s) ->
  unique_ids (snd (TaskDatabase.update_task task_id nt nd ndd np ns
                                            (world s))) /\
  unique_ids (snd (TaskDatabase.delete_task task_id (world s))) /\
  forall rowid s',
    TaskDatabase.add_task new_title new_description new_due_date
                          new_priority s = (Returned rowid, s') ->
    unique_ids (world s').
Proof.
  unfold unique_ids. intros H. split; [|split].
  - rewrite update_task_unfold.
    destruct (TaskDatabase.fits_int64 task_id); cbn [snd tasks tick];
      [|exact H].
    rewrite map_map. erewrite map_ext; [exact H|].
    intros t. destruct (Z.eqb (id t) task_id); reflexivity.
  - rewrite delete_task_unfold.
    destruct (TaskDatabase.fits_int64 task_id); cbn [snd tasks]; [|exact H].
    apply NoDup_map_filter. exact H.
  - intros rowid s'. unfold TaskDatabase.add_task.
    destruct (TaskDatabase.new_rowid (tasks (world s)) (sequence s))
      as [v|] eqn:E; [|discriminate].
    intros [= <- <-]. cbn [world tasks]. rewrite map_app. cbn [map id].
    apply NoDup_snoc; [exact H|].
    destruct (new_rowid_fresh _ _ E) as [Hfresh _].
    intros Hin. apply in_map_iff in Hin. destruct Hin as (t & Ht & Hin).
    specialize (Hfresh t Hin). lia.
Qed.

Lemma unique_ids_kept_witness :
  unique_ids (world sample_store) /\
  unique_ids (snd (TaskDatabase.delete_task 3 (world sample_store))).
Proof.
  assert (H : unique_ids (world sample_store)).
  { unfold unique_ids. cbn.
    constructor; [intros [E|[]]; discriminate E|].
    constructor; [intros []|]. constructor. }
  split; [exact H|].
  apply (@unique_ids_kept sample_store 3 None None None None None [] [] None
                          [] H).
Defined.

(** X12.  [add_task_from_natural_language] stores what the parse produced:
    when it returns an id, [get_task_by_id] finds under it, in a store of
    64-bit ids, the title, description, due date and priority of the parse of
    the utterance, with status "pending"; when the parse raises, the
    exception comes out and the table is as before. *)
Theorem add_task_from_natural_language_stores_parse (utterance : str)
        (s : Store) :
  match add_task_from_natural_language utterance s with
  | (Returned rowid, s') =>
      exists parsed,
        fst (parse_natural_language utterance (world s)) = Ok parsed /\
        (sqlite_store s ->
         lookup rowid (world s') =
           Ok (Some (mkTask rowid (p_title parsed)
                            (Some (p_description parsed)) (p_due_date parsed)
                            (Some (p_priority parsed)) (Some (lit "pending"))
                            (Some (timestamps s (inserts s)))
                            (Some (timestamps s (inserts s))))))
  | (Raised e, s') =>
      fst (parse_natural_language utterance (world s)) = Raise e /\
      tasks (world s') = tasks (world s) /\ sequence s' = sequence s
  | (DatabaseFull, s') =>
      tasks (world s') = tasks (world s) /\ sequence s' = sequence s
  end.
Proof.
  unfold add_task_from_natural_language.
  pose proof (parse_natural_language_unfold utterance (world s)) as U.
  destruct (parse_natural_language utterance (world s)) as [[parsed|e] w']
    eqn:E.
  - assert (Hw : w' = tick (world s)) by (inversion U; reflexivity).
    destruct (TaskDatabase.add_task _ _ _ _ (with_world s w'))
      as [[rowid| |] s'] eqn:A.
    + exists parsed. split; [reflexivity|]. intros Hs.
      destruct (add_task_returned _ _ _ _ _ A) as (_ & _ & _ & L & _).
      apply L. subst w'. exact Hs.
    + unfold TaskDatabase.add_task in A.
      destruct (TaskDatabase.new_rowid _ _); discriminate A.
    + unfold TaskDatabase.add_task in A.
      destruct (TaskDatabase.new_rowid _ _); [discriminate A|].
      injection A as <-. subst w'. split; reflexivity.
  - assert (Hw : w' = tick (world s)) by (inversion U; reflexivity).
    subst w'. split; [reflexivity|]. split; reflexivity.
Qed.

Lemma add_task_from_natural_language_stores_parse_witness :
  sqlite_store sample_store /\
  exists s',
    add_task_from_natural_language (lit "Call mom at 3 PM, urgent")
                                   sample_store = (Returned 8, s') /\
    lookup 8 (world s') =
      Ok (Some (mkTask 8 (lit "Call mom, urgent") (Some []) 
                       (Some (lit "2024-01-01T15:00:00"))
                       (Some (lit "high")) (Some (lit "pending"))
                       (Some (lit "2024-01-01 09:30:00"))
                       (Some (lit "2024-01-01 09:30:00")))).
Proof.
  assert (Hst : sqlite_store sample_store)
    by (split; [repeat constructor | reflexivity]).
  split; [exact Hst|].
  pose proof (@add_task_from_natural_language_stores_parse
                (lit "Call mom at 3 PM, urgent") sample_store) as H.
  destruct (add_task_from_natural_language (lit "Call mom at 3 PM, urgent")
                                           sample_store)
    as [[rowid|e|] s'] eqn:E; vm_compute in E; try discriminate E.
  injection E as <- <-.
  destruct H as (parsed & Hp & Hl).
  vm_compute in Hp. injection Hp as <-.
  eexists. split; [reflexivity|]. exact (Hl Hst).
Defined.

End Inserting.

(* ------------------------------------------------------------------ *)
(** ** The completion and deletion handlers *)

Section Handlers.

Local Open Scope Z_scope.

Lemma update_without_hit (task_id : Z) (f : Task -> Task)
      (rows : list Task) :
  find (fun t => Z.eqb (id t) task_id) rows = None ->
  map (fun t => if Z.eqb (id t) task_id then f t else t) rows = rows.
Proof.
  induction rows as [|t rows IH]; simpl; [reflexivity|].
  destruct (Z.eqb (id t) task_id); [discriminate|].
  intros H. rewrite (IH H). reflexivity.
Qed.

Lemma delete_without_hit (task_id : Z) (rows : list Task) :
  find (fun t => Z.eqb (id t) task_id) rows = None ->
  filter (fun t => negb (Z.eqb (id t) task_id)) rows = rows.
Proof.
  induction rows as [|t rows IH]; simpl; [reflexivity|].
  destruct (Z.eqb (id t) task_id); [discriminate|].
  intros H. cbn [negb]. rewrite (IH H). reflexivity.
Qed.

Lemma extract_task_reference_raises (user_input : str) (e : exn) :
  _extract_task_reference user_input = Raise e -> e = ValueError.
Proof.
  rewrite extract_task_reference_cases.
  destruct (first_match id_patterns user_input) as [m|]; [|discriminate].
  unfold reference_of. destruct (_ <=? _)%nat; [discriminate|].
  intros [= <-]. reflexivity.
Qed.

(** X13.  The completion handler always answers.  When the utterance yields
    no number, or the number 0, it asks which task is meant and changes
    nothing.  For a number [n] other than 0 it answers [task_completed] when
    [get_task_by_id] finds task [n], whose status is "completed" afterwards;
    it answers that task [n] was not found when [get_task_by_id] finds none;
    and it reports the [OverflowError] when [n] does not fit 64 bits; in the
    last two cases the rows are as before.  When the digits are too many for
    [int] it reports the [ValueError] and changes nothing. *)
Theorem handle_complete_task_outcome (user_input : str) (w : World) :
  exists response w',
    _handle_complete_task user_input w = (Ok response, w') /\
    match _extract_task_reference user_input with
    | Ok (Some n) =>
        if n =? 0
        then response = error_response which_task_to_complete /\ w' = w
        else
          match lookup n w with
          | Ok (Some t) =>
              response = mkResponse (lit "task_completed")
                                    (completed_well_done n) (Some n) /\
              exists t', lookup n w' = Ok (Some t') /\
                         status t' = Some (lit "completed") /\
                         title t' = title t
          | Ok None =>
              response = error_response (not_found_to_complete n) /\
              tasks w' = tasks w
          | Raise e =>
              response = error_response (could_not_complete e) /\
              e = OverflowError /\ tasks w' = tasks w
          end
    | Ok None => response = error_response which_task_to_complete /\ w' = w
    | Raise e =>
        response = error_response (could_not_complete e) /\
        e = ValueError /\ w' = w
    end.
Proof.
  unfold _handle_complete_task.
  destruct (_extract_task_reference user_input) as [[n|]|e] eqn:Er;
    cbn [truthy_id].
  - destruct (Z.eqb n 0);
      [eexists; eexists; split; [reflexivity | split; reflexivity]|].
    unfold mark_task_complete. rewrite update_task_unfold, lookup_unfold.
    destruct (TaskDatabase.fits_int64 n) eqn:F.
    + rewrite rowcount_lookup.
      destruct (find (fun t => Z.eqb (id t) n) (tasks w)) as [t|] eqn:E.
      * eexists. eexists. split; [reflexivity|]. split; [reflexivity|].
        rewrite (@lookup_returns n F). cbn [tasks].
        rewrite find_map_same_id
          by (intros x; destruct (Z.eqb (id x) n); reflexivity).
        rewrite E. cbn [option_map]. destruct (find_id _ _ E) as [Hid _].
        destruct (Z.eqb_spec (id t) n); [|contradiction].
        eexists. split; [reflexivity|]. split; reflexivity.
      * eexists. eexists. split; [reflexivity|]. split; [reflexivity|].
        cbn [tasks]. apply update_without_hit. exact E.
    + eexists. eexists. split; [reflexivity|].
      split; [reflexivity|]. split; reflexivity.
  - eexists. eexists. split; [reflexivity | split; reflexivity].
  - eexists. eexists. split; [reflexivity|]. split; [reflexivity|].
    split; [exact (extract_task_reference_raises _ Er) | reflexivity].
Qed.

(** X14.  The deletion handler always answers.  When the utterance yields no
    number, or the number 0, it asks which task is meant and changes nothing.
    For a number [n] other than 0 it answers [task_deleted] when
    [get_task_by_id] finds task [n], which it no longer finds afterwards; it
    answers that task [n] was not found when [get_task_by_id] finds none; and
    it reports the [OverflowError] when [n] does not fit 64 bits; in the last
    two cases the rows are as before.  When the digits are too many for [int]
    it reports the [ValueError] and changes nothing. *)
Theorem handle_delete_task_outcome (user_input : str) (w : World) :
  exists response w',
    _handle_delete_task user_input w = (Ok response, w') /\
    match _extract_task_reference user_input with
    | Ok (Some n) =>
        if n =? 0
        then response = error_response which_task_to_delete /\ w' = w
        else
          match lookup n w with
          | Ok (Some t) =>
              response = mkResponse (lit "task_deleted")
                                    (deleted_successfully n) (Some n) /\
              lookup n w' = Ok None
          | Ok None =>
              response = error_response (not_found_to_delete n) /\
              tasks w' = tasks w
          | Raise e =>
              response = error_response (could_not_delete e) /\
              e = OverflowError /\ w' = w
          end
    | Ok None => response = error_response which_task_to_delete /\ w' = w
    | Raise e =>
        response = error_response (could_not_delete e) /\
        e = ValueError /\ w' = w
    end.
Proof.
  unfold _handle_delete_task.
  destruct (_extract_task_reference user_input) as [[n|]|e] eqn:Er;
    cbn [truthy_id].
  - destruct (Z.eqb n 0);
      [eexists; eexists; split; [reflexivity | split; reflexivity]|].
    unfold TaskManager.delete_task.
    rewrite delete_task_unfold, lookup_unfold.
    destruct (TaskDatabase.fits_int64 n) eqn:F.
    + rewrite rowcount_lookup.
      destruct (find (fun t => Z.eqb (id t) n) (tasks w)) as [t|] eqn:E.
      * eexists. eexists. split; [reflexivity|]. split; [reflexivity|].
        rewrite (@lookup_returns n F). cbn [tasks].
        rewrite find_filter_same. reflexivity.
      * eexists. eexists. split; [reflexivity|]. split; [reflexivity|].
        cbn [tasks]. apply delete_without_hit. exact E.
    + eexists. eexists. split; [reflexivity|].
      split; [reflexivity|]. split; reflexivity.
  - eexists. eexists. split; [reflexivity | split; reflexivity].
  - eexists. eexists. split; [reflexivity|]. split; [reflexivity|].
    split; [exact (extract_task_reference_raises _ Er) | reflexivity].
Qed.

(** "complete task 9223372036854775808" and "delete task 9223372036854775808"
    are answered with the [OverflowError] of [sqlite3]; the largest 64-bit
    number is answered with "not found"; a number of 4301 digits is answered
    with the [ValueError] of [int]. *)
Example task_ids_beyond_64_bits :
  fst (_handle_complete_task (lit "complete task 9223372036854775808")
                             sample_world) =
    Ok (error_response (could_not_complete OverflowError)) /\
  fst (_handle_delete_task (lit "delete task 9223372036854775808")
                           sample_world) =
    Ok (error_response (could_not_delete OverflowError)) /\
  fst (_handle_complete_task (lit "complete task 9223372036854775807")
                             sample_world) =
    Ok (error_response (not_found_to_complete 9223372036854775807)) /\
  fst (_handle_complete_task long_reference sample_world) =
    Ok (error_response (could_not_complete ValueError)).
Proof. repeat split; vm_compute; reflexivity. Qed.

End Handlers.

(* ------------------------------------------------------------------ *)
(** ** Sub-second precision *)

Section Precision.

Local Open Scope Z_scope.

Lemma isoformat_length_19 (d : datetime) :
  List.length (isoformat d) = 19%nat <-> microsecond d = 0.
Proof.
  unfold isoformat. destruct (ord2ymd (ordinal d)) as [[y m] dd].
  destruct (Z.eqb_spec (microsecond d) 0) as [E|E].
  - split; [intros _; exact E | intros _; reflexivity].
  - split; [intros H; discriminate H | intros H; contradiction].
Qed.

Lemma replace_microsecond (d : datetime) (h m : Z) (r : datetime) :
  replace d h m 0 0 = Ok r -> microsecond r = 0.
Proof.
  unfold replace. destruct (_ && _); [|discriminate].
  intros [= <-]. reflexivity.
Qed.

(** Adding whole seconds keeps the microseconds. *)
Lemma add_microsecond (d : datetime) (secs : Z) (t : datetime) :
  0 <= microsecond d < 1000000 ->
  add d (secs * us_per_second) = Ok t -> microsecond t = microsecond d.
Proof.
  intros Hu. unfold add. destruct (_ && _); [|discriminate].
  intros [= <-]. cbn [microsecond].
  rewrite Z.mod_mod_divide by (exists 86400; reflexivity).
  unfold to_us.
  replace ((ordinal d * 86400 + hour d * 3600 + minute d * 60 + second d)
           * us_per_second + microsecond d + secs * us_per_second)
    with (microsecond d
          + (ordinal d * 86400 + hour d * 3600 + minute d * 60 + second d
             + secs) * us_per_second) by ring.
  rewrite Z.mod_add by (unfold us_per_second; lia).
  apply Z.mod_small. exact Hu.
Qed.

Lemma timedelta_whole_seconds (days hours minutes : Z) (d : Z) :
  timedelta days hours minutes = Ok d ->
  d = (days * 86400 + hours * 3600 + minutes * 60) * us_per_second.
Proof.
  unfold timedelta. destruct (_ <=? _); [|discriminate].
  intros [= <-]. reflexivity.
Qed.

Lemma parse_time_expression_seconds (time_str : str) (now : datetime)
      (s : str) :
  _parse_time_expression time_str now = Ok (Some s) ->
  List.length s = 19%nat.
Proof.
  assert (Hday : forall r t, microsecond r = 0 ->
                             add r us_per_day = Ok t -> microsecond t = 0).
  { intros r t Hr Ha.
    rewrite <- Hr. apply (@add_microsecond r 86400 t); [lia | exact Ha]. }
  unfold _parse_time_expression.
  destruct (Str.eqb _ (lit "tomorrow")).
  { rewrite one_day. cbn [rbind].
    destruct (add now us_per_day) as [t|]; cbn [rbind]; [|discriminate].
    destruct (replace t 9 0 0 0) as [r|] eqn:E; cbn [rbind]; [|discriminate].
    intros [= <-]. apply isoformat_length_19.
    apply (replace_microsecond _ _ _ E). }
  destruct (Str.eqb _ (lit "today")).
  { destruct (replace now 18 0 0 0) as [r|] eqn:E; cbn [rbind];
      [|discriminate].
    intros [= <-]. apply isoformat_length_19.
    apply (replace_microsecond _ _ _ E). }
  destruct (Str.eqb _ (lit "noon")).
  { destruct (replace now 12 0 0 0) as [r|] eqn:E; cbn [rbind];
      [|discriminate].
    intros [= <-]. apply isoformat_length_19.
    apply (replace_microsecond _ _ _ E). }
  destruct (Str.eqb _ (lit "midnight")).
  { destruct (replace now 0 0 0 0) as [r|] eqn:E; cbn [rbind];
      [|discriminate].
    intros [= <-]. apply isoformat_length_19.
    apply (replace_microsecond _ _ _ E). }
  destruct (re_match false time_pattern (lower time_str)) as [m|];
    [|discriminate].
  destruct (group_int 1 m); cbn [rbind]; [|discriminate].
  destruct (group_int_or_0 2 m); cbn [rbind]; [|discriminate].
  destruct (replace now _ _ 0 0) as [r|] eqn:E; cbn [rbind]; [|discriminate].
  pose proof (replace_microsecond _ _ _ E) as Hr.
  destruct (leb r now); cbn [rbind].
  - rewrite one_day. cbn [rbind].
    destruct (add r us_per_day) as [t|] eqn:Ea; cbn [rbind]; [|discriminate].
    intros [= <-]. apply isoformat_length_19. apply (Hday r t Hr Ea).
  - intros [= <-]. apply isoformat_length_19. exact Hr.
Qed.

Lemma calculate_relative_time_microsecond (amount : Z) (unit : str)
      (now : datetime) (s : str) :
  valid now ->
  _calculate_relative_time amount unit now = Ok (Some s) ->
  exists d, s = isoformat d /\ microsecond d = microsecond now.
Proof.
  intros (_ & _ & _ & _ & Hu). unfold _calculate_relative_time.
  destruct (startswith (lit "minute") unit);
    [|destruct (startswith (lit "hour") unit);
      [|destruct (startswith (lit "day") unit); [|discriminate]]];
    (destruct (timedelta _ _ _) as [d|] eqn:Et; cbn [rbind]; [|discriminate];
     apply timedelta_whole_seconds in Et; subst d;
     destruct (add now _) as [t|] eqn:Ea; cbn [rbind]; [|discriminate];
     intros [= <-]; exists t; split; [reflexivity|];
     apply (@add_microsecond now _ t Hu Ea)).
Qed.

(** X16.  A due date resolved by [_parse_time_expression] (a clock time,
    "tomorrow", "today", "noon", "midnight") never has a fractional part: it
    is 19 characters long.  One computed by [_calculate_relative_time] carries
    the microseconds of the reference time, so it is 19 characters long only
    when those are zero. *)
Theorem due_date_precision (time_str unit : str) (amount : Z)
        (now : datetime) (s : str) :
  (_parse_time_expression time_str now = Ok (Some s) ->
   List.length s = 19%nat) /\
  (valid now ->
   _calculate_relative_time amount unit now = Ok (Some s) ->
   (List.length s = 19%nat <-> microsecond now = 0)).
Proof.
  split; [apply parse_time_expression_seconds|].
  intros Hv H.
  destruct (calculate_relative_time_microsecond _ _ Hv H) as (d & -> & <-).
  apply isoformat_length_19.
Qed.

Lemma due_date_precision_witness :
  valid (mkDatetime (ymd2ord 2024 1 1) 10 0 0 250000) /\
  _calculate_relative_time 2 (lit "hours")
    (mkDatetime (ymd2ord 2024 1 1) 10 0 0 250000) =
    Ok (Some (lit "2024-01-01T12:00:00.250000")) /\
  (List.length (lit "2024-01-01T12:00:00.250000") = 19%nat <->
   microsecond (mkDatetime (ymd2ord 2024 1 1) 10 0 0 250000) = 0).
Proof.
  assert (Hv : valid (mkDatetime (ymd2ord 2024 1 1) 10 0 0 250000))
    by by_evaluation.
  assert (H : _calculate_relative_time 2 (lit "hours")
                (mkDatetime (ymd2ord 2024 1 1) 10 0 0 250000) =
              Ok (Some (lit "2024-01-01T12:00:00.250000")))
    by (vm_compute; reflexivity).
  split; [exact Hv|]. split; [exact H|].
  apply (proj2 (@due_date_precision [] (lit "hours") 2 _ _) Hv H).
Defined.

End Precision.

(* ------------------------------------------------------------------ *)
(** ** Numbers in the text *)

Section Numbers.

Local Open Scope Z_scope.

Lemma firstn_span (k : cclass) :
  forall s hi j, (j <= span k hi s)%nat ->
                 Forall (fun c => in_class k c = true) (firstn j s).
Proof.
  induction s as [|c s IH]; intros hi j Hj.
  - rewrite firstn_nil. constructor.
  - destruct j as [|j]; [constructor|]. cbn [firstn].
    assert (H : in_class k c = true /\
                (j <= span k (option_map pred hi) s)%nat).
    { assert (G : forall hi', (S j <= (if in_class k c
                                     then S (span k hi' s) else 0))%nat ->
                           in_class k c = true /\ (j <= span k hi' s)%nat).
      { intros hi' G. destruct (in_class k c); [split; [reflexivity|]|]; lia. }
      destruct hi as [[|h]|]; cbn [span] in Hj; [lia | |];
        apply G; exact Hj. }
    destruct H as [Hc Hs]. constructor; [exact Hc | apply (IH _ _ Hs)].
Qed.

(** A run of digits covers digits only. *)
Lemma run_digits_consumed (ic : bool) (lo : nat) (hi : option nat)
      (g : bool) (s : str) (c : caps) (rest : str) :
  In (c, rest) (run ic (Rep Digit lo hi g) s) ->
  Forall (fun x => isdigit x = true) (consumed s rest).
Proof.
  cbn [run]. rewrite in_map_iff. intros [j [[= _ <-] Hj]].
  apply in_counts in Hj.
  rewrite <- (firstn_skipn j s) at 1. rewrite consumed_app.
  apply (@firstn_span Digit s hi j). lia.
Qed.

Lemma digit_val_nonneg (c : ascii) : isdigit c = true -> 0 <= digit_val c.
Proof.
  destruct c as [[] [] [] [] [] [] [] []]; intros H; vm_compute in H |- *;
    congruence.
Qed.

Lemma decimal_nonneg (g : str) :
  Forall (fun c => isdigit c = true) g -> 0 <= decimal g.
Proof.
  unfold decimal. assert (G : forall acc, 0 <= acc ->
      Forall (fun c => isdigit c = true) g ->
      0 <= fold_left (fun a c => 10 * a + digit_val c) g acc).
  { induction g as [|c g IH]; intros acc Ha F; cbn [fold_left]; [exact Ha|].
    inversion F as [|? ? Hc Hg]; subst. apply IH; [|exact Hg].
    pose proof (digit_val_nonneg c Hc). lia. }
  apply G. lia.
Qed.

Lemma id_patterns_digits (pattern : regex) :
  In pattern id_patterns -> groups_sat true digits_capture pattern.
Proof.
  intros [<-|[<-|[<-|[]]]]; unfold L, plus, star; cbn [seqs groups_sat];
    repeat split; intros s c rest H _;
    apply (run_digits_consumed _ _ _ _ _ _ _ H).
Qed.

Lemma first_match_from (patterns : list regex) (text : str) (m : Match) :
  first_match patterns text = Some m ->
  exists pattern, In pattern patterns /\ search true pattern text = Some m.
Proof.
  induction patterns as [|p ps IH]; simpl; [discriminate|].
  destruct (search true p text) as [m'|] eqn:E.
  - intros [= <-]. exists p. split; [left; reflexivity | exact E].
  - intros H. destruct (IH H) as (q & Hq & Hs). exists q.
    split; [right; exact Hq | exact Hs].
Qed.

(** X17.  A task reference is never negative: the digits are read without
    anything before them, so in "task -5" the reference is 5. *)
Theorem task_reference_nonneg (user_input : str) (n : Z) :
  _extract_task_reference user_input = Ok (Some n) -> 0 <= n.
Proof.
  rewrite extract_task_reference_cases.
  destruct (first_match id_patterns user_input) as [m|] eqn:E;
    [|discriminate].
  unfold reference_of. destruct (_ <=? _)%nat; [|discriminate].
  intros [= <-].
  destruct (first_match_from _ _ E) as (p & Hp & Hs).
  destruct (@search_from_captures true 1 p (@id_patterns_capture p Hp)
              user_input 0 m Hs) as [g Hg].
  unfold captured. rewrite Hg. apply decimal_nonneg.
  apply (@search_group_sat true digits_capture p user_input m 1 g
           (@id_patterns_digits p Hp) Hs Hg eq_refl).
Qed.

Lemma task_reference_nonneg_witness :
  _extract_task_reference (lit "complete task -5") = Ok (Some 5) /\ 0 <= 5.
Proof.
  split; [vm_compute; reflexivity|].
  apply (@task_reference_nonneg (lit "complete task -5") 5).
  vm_compute. reflexivity.
Defined.

Lemma relative_pattern_digits :
  groups_sat false digits_capture relative_pattern.
Proof.
  unfold relative_pattern, L, plus. cbn [seqs alts groups_sat].
  repeat split; try (intros s c rest H E; discriminate E).
  intros s c rest H _. apply (run_digits_consumed _ _ _ _ _ _ _ H).
Qed.

(** X18.  When neither the "by" nor the "at" pattern matches and "in N unit"
    does, due-date extraction gives the clock reading plus exactly N minutes,
    hours or days (N read from the digits, the unit from its first letters),
    or raises [OverflowError] when that lies beyond the calendar; when the
    digits are more than 4300 it raises [ValueError] in [int], before any
    date is computed. *)
Theorem in_family_exact (text : str) (w : World) (m : Match) :
  valid (clock w (reads w)) ->
  search false by_pattern text = None ->
  search false at_pattern text = None ->
  search false relative_pattern text = Some m ->
  exists k,
    unit_seconds (captured 2 m) = Some k /\ 0 <= decimal (captured 1 m) /\
    if (List.length (captured 1 m) <=? 4300)%nat
    then
      let later := to_us (clock w (reads w))
                   + decimal (captured 1 m) * k * us_per_second in
      if later / us_per_day <=? MAXORDINAL
      then exists d,
          fst (_extract_due_date text w) = Ok (Some (isoformat d)) /\
          valid d /\ to_us d = later
      else fst (_extract_due_date text w) = Raise OverflowError
    else fst (_extract_due_date text w) = Raise ValueError.
Proof.
  intros Hv Eby Eat Ein. rewrite extract_due_date_reads_clock. cbn [fst].
  set (now := clock w (reads w)) in *.
  pose proof (extract_due_date_at_cases now text) as C.
  rewrite Eby, Eat, Ein in C. rewrite C. unfold resolve_relative.
  destruct (@search_from_captures false 1 relative_pattern eq_refl text 0 m
              Ein) as [g1 Hg1].
  destruct (@search_from_captures false 2 relative_pattern eq_refl text 0 m
              Ein) as [g2 Hg2].
  pose proof (@search_group_sat false unit_capture relative_pattern text m
                2 g2 relative_pattern_groups Ein Hg2 eq_refl) as Hunit.
  pose proof (@search_group_sat false digits_capture relative_pattern text m
                1 g1 relative_pattern_digits Ein Hg1 eq_refl) as Hdig.
  apply decimal_nonneg in Hdig. unfold captured. rewrite Hg1, Hg2.
  destruct (unit_seconds g2) as [k|] eqn:Ek; [|contradiction].
  exists k. split; [reflexivity|]. split; [exact Hdig|].
  rewrite int_cases.
  destruct (List.length g1 <=? 4300)%nat; cbn [rbind]; [|reflexivity].
  pose proof (calculate_relative_time_cases g2 Hv Hdig) as R.
  rewrite Ek in R. exact R.
Qed.

Lemma in_family_exact_witness :
  valid (clock morning_world (reads morning_world)) /\
  fst (_extract_due_date (lit "ping me in 2 hours") morning_world) =
    Ok (Some (lit "2024-01-01T12:00:00")).
Proof.
  assert (Hv : valid (clock morning_world (reads morning_world)))
    by exact new_year_10am_valid.
  split; [exact Hv|].
  destruct (@in_family_exact (lit "ping me in 2 hours") morning_world
              (mkMatch 8 (lit "in 2 hours") [(1%nat, lit "2");
                                             (2%nat, lit "hours")])
              Hv) as (k & Hk & _ & H);
    vm_compute; reflexivity.
Defined.

End Numbers.

(* ------------------------------------------------------------------ *)
(** ** Clock digits beyond a day *)

Section BeyondADay.

Local Open Scope Z_scope.

Lemma replace_out_of_range (d : datetime) (h m : Z) :
  24 <= h \/ 60 <= m -> replace d h m 0 0 = Raise ValueError.
Proof.
  intros H. unfold replace, in_range.
  destruct (Z.ltb_spec h 24); destruct (Z.ltb_spec m 60);
    rewrite ?andb_false_r; try reflexivity; lia.
Qed.

(** X19.  A time expression in which the time pattern finds an hour that is
    24 or more after the 12-hour conversion, or minutes that are 60 or more,
    makes [_parse_time_expression] raise [ValueError], at every reference
    time. *)
Theorem clock_digits_out_of_range_raise (time_str : str) (now : datetime)
        (h : str) (mm period : option str) :
  clock_groups (lower time_str) = Some (h, mm, period) ->
  24 <= hour24 (decimal h) period \/ 60 <= minute_of mm ->
  _parse_time_expression time_str now = Raise ValueError.
Proof.
  intros Hg Hout. unfold clock_groups in Hg.
  destruct (re_match false time_pattern (lower time_str)) as [m|] eqn:Em;
    [|discriminate].
  destruct (group 1 m) as [h'|] eqn:E1; [|discriminate].
  injection Hg as -> E2 E3.
  destruct (clock_is_no_keyword _ Em) as (K1 & K2 & K3 & K4).
  unfold _parse_time_expression. rewrite K1, K2, K3, K4, Em.
  rewrite (@group_int_hour _ m h Em E1). cbn [rbind].
  rewrite (@group_int_or_0_minute _ m Em). cbn [rbind].
  rewrite E2, E3, period_hour.
  rewrite (replace_out_of_range now Hout). reflexivity.
Qed.

Lemma clock_digits_out_of_range_raise_witness :
  clock_groups (lower (lit "7:60 PM")) =
    Some (lit "7", Some (lit "60"), Some (lit "pm")) /\
  _parse_time_expression (lit "7:60 PM") new_year_evening =
    Raise ValueError.
Proof.
  split; [vm_compute; reflexivity|].
  apply (@clock_digits_out_of_range_raise (lit "7:60 PM") new_year_evening
           (lit "7") (Some (lit "60")) (Some (lit "pm"))).
  - vm_compute. reflexivity.
  - right. vm_compute. discriminate.
Defined.

End BeyondADay.
